(** * Time-locked media release: a shallow embedding of the client hooks

    The development follows the TypeScript sources:
    - [useMediaRelease.ts]        (creation path, [createMediaRelease]);
    - [useMediaReleaseViewer.ts]  (scanner, release table, reveal decoding);
    - the viewer page             ([handleReleaseSelect], [getTimeRemaining]).

    JavaScript values are embedded as a small dynamically typed universe,
    asynchronous calls to the chain provider as a trace-passing monad whose
    answers are given by an oracle reading the history of calls. *)

From Stdlib Require Import ZArith List String Ascii Bool Lia Permutation.
From Stdlib Require Import Decimal DecimalString DecimalZ.
From Stdlib.Strings Require Import Byte.
Import ListNotations.

Local Open Scope Z_scope.

(* ================================================================= *)
(** ** JavaScript values and objects *)

Module JS.

(** Numbers of the program are block heights, millisecond timestamps and
    byte counts: integers, far below 2^53, so they are embedded as [Z];
    [NaN] is kept because conversions of strings can produce it. *)
Inductive number : Type :=
| Int (z : Z)
| NaN.

#[local] Set Warnings "-register-all".

Inductive jsval : Type :=
| JUndefined
| JNull
| JBool (b : bool)
| JNum (n : number)
| JBig (z : Z)
| JStr (s : string)
| JObject (props : list (string * jsval)).

(** An object is its list of own properties in insertion order. *)
Definition obj : Type := list (string * jsval).

(** ToBoolean. *)
Definition truthy (v : jsval) : bool :=
  match v with
  | JUndefined | JNull => false
  | JBool b => b
  | JNum (Int z) => negb (z =? 0)
  | JNum NaN => false
  | JBig z => negb (z =? 0)
  | JStr s => negb (String.eqb s "")
  | JObject _ => true
  end.

(** [a || b] on values. *)
Definition js_or (a b : jsval) : jsval := if truthy a then a else b.

(** A value is "null" in the sense of the release table when it is
    [undefined] or [null]. *)
Definition nullish (v : jsval) : bool :=
  match v with
  | JUndefined | JNull => true
  | _ => false
  end.

(** Own-property lookup; [None] when the key is not an own property. *)
Fixpoint obj_lookup (k : string) (o : obj) : option jsval :=
  match o with
  | [] => None
  | (k', v) :: o' => if String.eqb k k' then Some v else obj_lookup k o'
  end.

(** Property read [o.k]: [undefined] when the key is absent. *)
Definition obj_get (k : string) (o : obj) : jsval :=
  match obj_lookup k o with
  | Some v => v
  | None => JUndefined
  end.

(** Property write [o.k = v]: an existing key keeps its position. *)
Fixpoint obj_set (k : string) (v : jsval) (o : obj) : obj :=
  match o with
  | [] => [(k, v)]
  | (k', v') :: o' =>
      if String.eqb k k' then (k', v) :: o' else (k', v') :: obj_set k v o'
  end.

(** Object spread [{ ...a, ...b }]: every own property of [b], also one
    whose value is [undefined], is written over [a]. *)
Definition spread (a b : obj) : obj :=
  fold_left (fun acc kv => obj_set (fst kv) (snd kv) acc) b a.

(** Property read on an arbitrary value, as in [payload.k]: primitives
    have none of the properties the program asks for. *)
Definition get_prop (k : string) (v : jsval) : jsval :=
  match v with
  | JObject props => obj_get k props
  | _ => JUndefined
  end.

Definition string_of_Z (z : Z) : string :=
  NilZero.string_of_int (Z.to_int z).

(** Arithmetic and comparison of numbers; [NaN] spreads and compares
    false. *)
Definition num_add (a b : number) : number :=
  match a, b with
  | Int x, Int y => Int (x + y)
  | _, _ => NaN
  end.

Definition num_gt (a b : number) : bool :=
  match a, b with
  | Int x, Int y => y <? x
  | _, _ => false
  end.

Definition num_string (a : number) : string :=
  match a with
  | Int z => string_of_Z z
  | NaN => "NaN"
  end.

(** [String(v)], which is also what [v.toString()] gives for the
    bigint, number, boolean and string values it is called on. *)
Definition js_string (v : jsval) : string :=
  match v with
  | JUndefined => "undefined"
  | JNull => "null"
  | JBool true => "true"
  | JBool false => "false"
  | JNum (Int z) => string_of_Z z
  | JNum NaN => "NaN"
  | JBig z => string_of_Z z
  | JStr s => s
  | JObject _ => "[object Object]"
  end.

(** [a === b] on primitives; two objects are equal only by identity,
    which values of this embedding do not carry. *)
Definition strict_eq (a b : jsval) : bool :=
  match a, b with
  | JUndefined, JUndefined => true
  | JNull, JNull => true
  | JBool x, JBool y => Bool.eqb x y
  | JNum (Int x), JNum (Int y) => x =? y
  | JBig x, JBig y => x =? y
  | JStr x, JStr y => String.eqb x y
  | _, _ => false
  end.

End JS.

Import JS.

(* ================================================================= *)
(** ** Effects: calls to the outside world, recorded in a trace *)

Module Eff.

Inductive exn : Type :=
| Error (message : string)
| TypeError (message : string)
| RangeError (message : string)
| SyntaxError (message : string)
| Rejected (reason : string).

Record Filter : Type := mkFilter {
  address : string;
  topics : list string
}.

(** What the code does to the outside world, in program order. *)
Inductive Event : Type :=
| EvGetBlockNumber
| EvGetLogs (f : Filter) (fromBlock toBlock : Z)
| EvMetaOf (requestId : Z)
| EvEncrypt (plaintext : string) (targetBlock : Z)
| EvGetFeeData
| EvEstimatePrice (callbackGasLimit : Z) (maxFeePerGas : Z)
| EvSendTx (callbackGasLimit targetBlock : Z) (encCidHash : string) (value : Z)
| EvWaitTx
| EvSleep (ms : Z)
| EvConsole (level : string) (message : string)
| EvSetItem (key value : string)
| EvSetStatus (status : string)
| EvSetIsProcessing (b : bool)
| EvFetch (url : string)
| EvCreateObjectURL (mime : string)
| EvDownload (url filename : string)
| EvRevokeObjectURL (url : string).

Inductive Res (A : Type) : Type :=
| Ok (a : A)
| Throw (e : exn).
Arguments Ok {A} a.
Arguments Throw {A} e.

(** A computation reads the history and extends it; [None] is a loop
    that ran out of fuel. *)
Definition M (A : Type) : Type := list Event -> option (Res A * list Event).

Definition ret {A} (a : A) : M A := fun h => Some (Ok a, h).
Definition throw {A} (e : exn) : M A := fun h => Some (Throw e, h).
Definition diverge {A} : M A := fun _ => None.

Definition bind {A B} (m : M A) (k : A -> M B) : M B :=
  fun h =>
    match m h with
    | Some (Ok a, h') => k a h'
    | Some (Throw e, h') => Some (Throw e, h')
    | None => None
    end.

(** [try { m } catch (e) { handler e }] *)
Definition try_catch {A} (m : M A) (handler : exn -> M A) : M A :=
  fun h =>
    match m h with
    | Some (Ok a, h') => Some (Ok a, h')
    | Some (Throw e, h') => handler e h'
    | None => None
    end.

(** [try { m } finally { f }] *)
Definition try_finally {A} (m : M A) (f : M unit) : M A :=
  fun h =>
    match m h with
    | Some (r, h') =>
        match f h' with
        | Some (Ok _, h'') => Some (r, h'')
        | Some (Throw e, h'') => Some (Throw e, h'')
        | None => None
        end
    | None => None
    end.

Definition emit (e : Event) : M unit := fun h => Some (Ok tt, h ++ [e]).

(** An awaited external call: the event is recorded, then the oracle
    answers from the history before the call. *)
Definition call {A} (e : Event) (answer : list Event -> Res A) : M A :=
  fun h => Some (answer h, h ++ [e]).

Definition console (level message : string) : M unit :=
  emit (EvConsole level message).

Definition lift {A} (r : Res A) : M A := fun h => Some (r, h).

(** [error instanceof Error ? error.message : ...]; a rejection of the
    provider carries its reason as message. *)
Definition message_of (e : exn) : string :=
  match e with
  | Error m | TypeError m | RangeError m | SyntaxError m | Rejected m => m
  end.

(** The events that are requests to the chain or to the time-lock
    service. *)
Definition is_network_call (e : Event) : bool :=
  match e with
  | EvGetBlockNumber | EvGetLogs _ _ _ | EvMetaOf _ | EvEncrypt _ _
  | EvGetFeeData | EvEstimatePrice _ _ | EvSendTx _ _ _ _ | EvWaitTx
  | EvFetch _ => true
  | _ => false
  end.

Definition network_calls (h : list Event) : list Event :=
  filter is_network_call h.

End Eff.

Import Eff.

Declare Scope eff_scope.
Delimit Scope eff_scope with eff.
Notation "x <- c1 ;; c2" := (bind c1 (fun x => c2))
  (at level 61, c1 at next level, right associativity) : eff_scope.
Notation "c1 ;; c2" := (bind c1 (fun _ => c2))
  (at level 61, right associativity) : eff_scope.
Local Open Scope eff_scope.

(* ================================================================= *)
(** ** The JSON text of flat objects

    [JSON.stringify] and [JSON.parse] belong to the host.  Strings are
    embedded as their UTF-8 bytes, on which [JSON.stringify] escapes the
    quote, the backslash and the control characters and copies every
    other byte.  The parser reads the JSON grammar of values whose
    members are strings, integers, [true], [false] and [null]; texts
    with nested values, fractions or exponents are outside its
    fragment and are answered with [None]. *)

Module Json.

Local Open Scope string_scope.

Definition dquote : ascii := ascii_of_nat 34.
Definition backslash : ascii := ascii_of_nat 92.

Definition hex_digit (n : nat) : ascii :=
  if Nat.ltb n 10 then ascii_of_nat (48 + n) else ascii_of_nat (87 + n).

Definition escape_char (c : ascii) : string :=
  let n := nat_of_ascii c in
  if Nat.eqb n 34 then String backslash (String dquote "")
  else if Nat.eqb n 92 then String backslash (String backslash "")
  else if Nat.eqb n 8 then String backslash "b"
  else if Nat.eqb n 12 then String backslash "f"
  else if Nat.eqb n 10 then String backslash "n"
  else if Nat.eqb n 13 then String backslash "r"
  else if Nat.eqb n 9 then String backslash "t"
  else if Nat.ltb n 32 then
    String backslash
      (String "u" (String "0" (String "0"
         (String (hex_digit (Nat.div n 16))
            (String (hex_digit (Nat.modulo n 16)) "")))))
  else String c "".

Fixpoint escape (s : string) : string :=
  match s with
  | EmptyString => ""
  | String c s' => escape_char c ++ escape s'
  end.

(** [QuoteJSONString] *)
Definition quote (s : string) : string :=
  String dquote (escape s ++ String dquote "").

Inductive json_text : Type :=
| Omitted
| Text (s : string)
| Unserializable.

(** [SerializeJSONProperty] on a value, nested objects included; a
    bigint cannot be serialized. *)
Fixpoint stringify_val (v : jsval) : json_text :=
  match v with
  | JUndefined => Omitted
  | JNull => Text "null"
  | JBool true => Text "true"
  | JBool false => Text "false"
  | JNum (Int z) => Text (string_of_Z z)
  | JNum NaN => Text "null"
  | JBig _ => Unserializable
  | JStr s => Text (quote s)
  | JObject props =>
      match
        (fix members (ps : list (string * jsval)) : option (list string) :=
           match ps with
           | [] => Some []
           | (k, v') :: ps' =>
               match stringify_val v', members ps' with
               | Unserializable, _ => None
               | _, None => None
               | Omitted, Some ts => Some ts
               | Text t, Some ts => Some ((quote k ++ ":" ++ t) :: ts)
               end
           end) props
      with
      | None => Unserializable
      | Some ts => Text ("{" ++ String.concat "," ts ++ "}")
      end
  end.

(** [JSON.stringify(o)] on an object. *)
Definition JSON_stringify (o : obj) : Res string :=
  match stringify_val (JObject o) with
  | Text s => Ok s
  | _ => Throw (TypeError "Do not know how to serialize a BigInt")
  end.

(** The members of an object as [stringify_val] writes them. *)
Fixpoint stringify_members (ps : list (string * jsval))
  : option (list string) :=
  match ps with
  | [] => Some []
  | (k, v') :: ps' =>
      match stringify_val v', stringify_members ps' with
      | Unserializable, _ => None
      | _, None => None
      | Omitted, Some ts => Some ts
      | Text t, Some ts => Some ((quote k ++ ":" ++ t) :: ts)
      end
  end.

(** Member values that are strings, integers, booleans or [null]. *)
Definition simple (v : jsval) : bool :=
  match v with
  | JStr _ | JNum (Int _) | JBool _ | JNull => true
  | _ => false
  end.

Definition simple_obj (o : obj) : bool := forallb (fun kv => simple (snd kv)) o.

Definition text_of (v : jsval) : string :=
  match stringify_val v with
  | Text t => t
  | _ => ""
  end.

Definition member_texts (o : obj) : list string :=
  map (fun kv => quote (fst kv) ++ ":" ++ text_of (snd kv)) o.

(** *** Parsing *)

Definition is_ws (c : ascii) : bool :=
  let n := nat_of_ascii c in
  Nat.eqb n 32 || Nat.eqb n 9 || Nat.eqb n 10 || Nat.eqb n 13.

Fixpoint skip_ws (s : string) : string :=
  match s with
  | String c s' => if is_ws c then skip_ws s' else s
  | EmptyString => s
  end.

Definition hex_value (c : ascii) : option N :=
  let n := N_of_ascii c in
  (if (48 <=? n) && (n <=? 57) then Some (n - 48)
   else if (97 <=? n) && (n <=? 102) then Some (n - 87)
   else if (65 <=? n) && (n <=? 70) then Some (n - 55)
   else None)%N.

(** The UTF-8 bytes of a code unit written [\uXXXX]; surrogates, which
    need their pair, are outside the fragment. *)
Definition utf8_of_code (n : N) : option string :=
  (if n <? 128 then Some (String (ascii_of_N n) "")
   else if n <? 2048 then
     Some (String (ascii_of_N (192 + n / 64))
             (String (ascii_of_N (128 + n mod 64)) ""))
   else if (55296 <=? n) && (n <=? 57343) then None
   else
     Some (String (ascii_of_N (224 + n / 4096))
             (String (ascii_of_N (128 + (n / 64) mod 64))
                (String (ascii_of_N (128 + n mod 64)) ""))))%N.

Definition simple_escape (e : ascii) : option ascii :=
  let n := nat_of_ascii e in
  if Nat.eqb n 34 then Some dquote
  else if Nat.eqb n 92 then Some backslash
  else if Nat.eqb n 47 then Some (ascii_of_nat 47)
  else if Nat.eqb n 98 then Some (ascii_of_nat 8)
  else if Nat.eqb n 102 then Some (ascii_of_nat 12)
  else if Nat.eqb n 110 then Some (ascii_of_nat 10)
  else if Nat.eqb n 114 then Some (ascii_of_nat 13)
  else if Nat.eqb n 116 then Some (ascii_of_nat 9)
  else None.

Definition prepend (p : string) (r : option (string * string))
  : option (string * string) :=
  match r with
  | Some (s, rest) => Some (p ++ s, rest)
  | None => None
  end.

(** The characters of a string literal after its opening quote, up to
    the closing quote. *)
Fixpoint parse_string_body (s : string) : option (string * string) :=
  match s with
  | EmptyString => None
  | String c rest =>
      if Ascii.eqb c dquote then Some ("", rest)
      else if Ascii.eqb c backslash then
        match rest with
        | EmptyString => None
        | String e rest1 =>
            match simple_escape e with
            | Some d => prepend (String d "") (parse_string_body rest1)
            | None =>
                if Ascii.eqb e "u" then
                  match rest1 with
                  | String h1 (String h2 (String h3 (String h4 rest2))) =>
                      match hex_value h1, hex_value h2,
                            hex_value h3, hex_value h4 with
                      | Some a, Some b, Some c', Some d =>
                          match utf8_of_code
                                  (((a * 16 + b) * 16 + c') * 16 + d)%N with
                          | Some bytes =>
                              prepend bytes (parse_string_body rest2)
                          | None => None
                          end
                      | _, _, _, _ => None
                      end
                  | _ => None
                  end
                else None
            end
        end
      else if Nat.ltb (nat_of_ascii c) 32 then None
      else prepend (String c "") (parse_string_body rest)
  end.

Definition parse_string (s : string) : option (string * string) :=
  match s with
  | String c rest => if Ascii.eqb c dquote then parse_string_body rest
                     else None
  | EmptyString => None
  end.

Definition digit_of (c : ascii) : option (uint -> uint) :=
  match nat_of_ascii c with
  | 48%nat => Some D0 | 49%nat => Some D1 | 50%nat => Some D2
  | 51%nat => Some D3 | 52%nat => Some D4 | 53%nat => Some D5
  | 54%nat => Some D6 | 55%nat => Some D7 | 56%nat => Some D8
  | 57%nat => Some D9
  | _ => None
  end.

Fixpoint read_uint (s : string) : uint * string :=
  match s with
  | EmptyString => (Nil, s)
  | String c rest =>
      match digit_of c with
      | Some k => let (d, r) := read_uint rest in (k d, r)
      | None => (Nil, s)
      end
  end.

(** What may not follow the digits of an integer. *)
Definition continues_number (s : string) : bool :=
  match s with
  | String c _ =>
      let n := nat_of_ascii c in
      Nat.eqb n 46 || Nat.eqb n 101 || Nat.eqb n 69
  | EmptyString => false
  end.

Definition parse_digits (s : string) : option (uint * string) :=
  let (d, rest) := read_uint s in
  if continues_number rest then None
  else
    match d with
    | Nil => None
    | D0 Nil => Some (d, rest)
    | D0 _ => None
    | _ => Some (d, rest)
    end.

Definition parse_number (s : string) : option (Z * string) :=
  match s with
  | String c rest =>
      if Ascii.eqb c "-" then
        match parse_digits rest with
        | Some (d, r) => Some (Z.of_int (Neg d), r)
        | None => None
        end
      else
        match parse_digits s with
        | Some (d, r) => Some (Z.of_int (Pos d), r)
        | None => None
        end
  | EmptyString => None
  end.

Fixpoint strip_prefix (p s : string) : option string :=
  match p, s with
  | EmptyString, _ => Some s
  | String a p', String b s' =>
      if Ascii.eqb a b then strip_prefix p' s' else None
  | _, EmptyString => None
  end.

(** A member value of the fragment. *)
Definition parse_prim (s : string) : option (jsval * string) :=
  match s with
  | EmptyString => None
  | String c _ =>
      if Ascii.eqb c dquote then
        match parse_string s with
        | Some (v, r) => Some (JStr v, r)
        | None => None
        end
      else if Ascii.eqb c "t" then
        option_map (pair (JBool true)) (strip_prefix "true" s)
      else if Ascii.eqb c "f" then
        option_map (pair (JBool false)) (strip_prefix "false" s)
      else if Ascii.eqb c "n" then
        option_map (pair JNull) (strip_prefix "null" s)
      else
        match parse_number s with
        | Some (z, r) => Some (JNum (Int z), r)
        | None => None
        end
  end.

(** The members of an object after its opening brace, one per unit of
    fuel; a key read again keeps its place and takes the later value. *)
Fixpoint parse_members (fuel : nat) (acc : obj) (s : string)
  : option (obj * string) :=
  match fuel with
  | O => None
  | S fuel' =>
      match parse_string (skip_ws s) with
      | None => None
      | Some (k, r1) =>
          match skip_ws r1 with
          | String c r2 =>
              if Ascii.eqb c ":" then
                match parse_prim (skip_ws r2) with
                | None => None
                | Some (v, r3) =>
                    let acc' := obj_set k v acc in
                    match skip_ws r3 with
                    | String c' r4 =>
                        if Ascii.eqb c' "," then parse_members fuel' acc' r4
                        else if Ascii.eqb c' "}" then Some (acc', r4)
                        else None
                    | EmptyString => None
                    end
                end
              else None
          | EmptyString => None
          end
      end
  end.

Definition parse_value (s : string) : option (jsval * string) :=
  match s with
  | EmptyString => None
  | String c rest =>
      if Ascii.eqb c "{" then
        match skip_ws rest with
        | String c' rest' =>
            if Ascii.eqb c' "}" then Some (JObject [], rest')
            else
              match parse_members (String.length rest) [] rest with
              | Some (o, r) => Some (JObject o, r)
              | None => None
              end
        | EmptyString => None
        end
      else parse_prim s
  end.

(** [JSON.parse(text)]; [None] is a [SyntaxError]. *)
Definition JSON_parse (text : string) : option jsval :=
  match parse_value (skip_ws text) with
  | Some (v, rest) =>
      match skip_ws rest with
      | EmptyString => Some v
      | _ => None
      end
  | None => None
  end.

(** *** Round trip *)

Lemma append_assoc (a b c : string) : (a ++ b) ++ c = a ++ (b ++ c).
Proof.
  induction a as [|x a IH]; simpl; [reflexivity|]. rewrite IH. reflexivity.
Qed.

Lemma body_escape_char c tail :
  parse_string_body (escape_char c ++ tail) =
  prepend (String c "") (parse_string_body tail).
Proof.
  destruct c as [[] [] [] [] [] [] [] []]; reflexivity.
Qed.

Lemma parse_string_body_escape s rest :
  parse_string_body (escape s ++ String dquote rest) = Some (s, rest).
Proof.
  induction s as [|c s IH]; simpl.
  - reflexivity.
  - rewrite append_assoc, body_escape_char, IH. reflexivity.
Qed.

Lemma parse_string_quote s rest :
  parse_string (quote s ++ rest) = Some (s, rest).
Proof.
  unfold quote. simpl. rewrite append_assoc. simpl.
  apply parse_string_body_escape.
Qed.

(** A text that follows a value inside an object: a comma or the
    closing brace. *)
Definition closes_value (s : string) : Prop :=
  exists c r, s = String c r /\ (c = "," \/ c = "}")%char.

Lemma read_uint_string_of_uint d rest :
  closes_value rest ->
  read_uint (NilEmpty.string_of_uint d ++ rest) = (d, rest).
Proof.
  intros (c & r & -> & Hc).
  induction d; simpl; try (rewrite IHd; reflexivity).
  destruct Hc as [-> | ->]; reflexivity.
Qed.

Lemma unorm_head d d' : unorm d = D0 d' -> d' = Nil.
Proof.
  induction d; simpl; intros H; try discriminate; auto.
  injection H as <-. reflexivity.
Qed.

Lemma to_uint_normal p : unorm (Pos.to_uint p) = Pos.to_uint p.
Proof.
  rewrite <- (DecimalPos.Unsigned.to_of (Pos.to_uint p)).
  rewrite DecimalPos.Unsigned.of_to. reflexivity.
Qed.

Lemma parse_digits_to_uint p rest :
  closes_value rest ->
  parse_digits (NilEmpty.string_of_uint (Pos.to_uint p) ++ rest)
  = Some (Pos.to_uint p, rest).
Proof.
  intros Hrest. unfold parse_digits.
  rewrite (read_uint_string_of_uint _ _ Hrest).
  destruct Hrest as (c & r & -> & Hc).
  assert (Hcont : continues_number (String c r) = false)
    by (destruct Hc as [-> | ->]; reflexivity).
  rewrite Hcont.
  pose proof (DecimalPos.Unsigned.to_uint_nonnil p) as Hnil.
  pose proof (to_uint_normal p) as Hnorm.
  destruct (Pos.to_uint p) as [|d| | | | | | | | |] eqn:E;
    try reflexivity; [congruence|].
  apply unorm_head in Hnorm. subst d. reflexivity.
Qed.

Lemma string_of_uint_to_uint p :
  NilZero.string_of_uint (Pos.to_uint p)
  = NilEmpty.string_of_uint (Pos.to_uint p).
Proof.
  pose proof (DecimalPos.Unsigned.to_uint_nonnil p) as Hnil.
  destruct (Pos.to_uint p); [congruence|reflexivity..].
Qed.

Lemma parse_number_unsigned s d r :
  parse_digits s = Some (d, r) ->
  parse_number s = Some (Z.of_int (Pos d), r).
Proof.
  intros H. destruct s as [|c s']; [discriminate H|].
  unfold parse_number.
  destruct (Ascii.eqb c "-") eqn:E.
  - apply Ascii.eqb_eq in E. subst c. exfalso.
    unfold parse_digits in H. simpl in H.
    destruct (continues_number (String "-" s')); discriminate H.
  - rewrite H. reflexivity.
Qed.

Lemma parse_number_string_of_Z z rest :
  closes_value rest ->
  parse_number (string_of_Z z ++ rest) = Some (z, rest).
Proof.
  intros Hrest. unfold string_of_Z.
  rewrite <- (DecimalZ.of_to z) at 2.
  destruct z as [|p|p]; simpl Z.to_int.
  - destruct Hrest as (c & r & -> & [-> | ->]); reflexivity.
  - unfold NilZero.string_of_int. rewrite string_of_uint_to_uint.
    apply parse_number_unsigned. apply parse_digits_to_uint. exact Hrest.
  - unfold NilZero.string_of_int. rewrite string_of_uint_to_uint.
    unfold parse_number. simpl append. simpl Ascii.eqb. cbv iota.
    rewrite (parse_digits_to_uint p rest Hrest). reflexivity.
Qed.

Lemma parse_number_prim s z r :
  parse_number s = Some (z, r) ->
  parse_prim s = Some (JNum (Int z), r) /\ skip_ws s = s.
Proof.
  intros H. destruct s as [|c s']; [discriminate H|].
  assert (Hc : Ascii.eqb c dquote = false /\ Ascii.eqb c "t" = false
               /\ Ascii.eqb c "f" = false /\ Ascii.eqb c "n" = false
               /\ is_ws c = false).
  { destruct c as [[] [] [] [] [] [] [] []];
      first [ repeat split; reflexivity
            | exfalso; cbv in H; discriminate H ]. }
  destruct Hc as (H1 & H2 & H3 & H4 & H5).
  split.
  - unfold parse_prim. rewrite H1, H2, H3, H4, H. reflexivity.
  - simpl. rewrite H5. reflexivity.
Qed.

Lemma parse_prim_quoted s rest :
  parse_prim (quote s ++ rest) =
  match parse_string (quote s ++ rest) with
  | Some (v, r) => Some (JStr v, r)
  | None => None
  end.
Proof. reflexivity. Qed.

Lemma parse_prim_text v rest :
  simple v = true ->
  closes_value rest ->
  parse_prim (text_of v ++ rest) = Some (v, rest)
  /\ skip_ws (text_of v ++ rest) = text_of v ++ rest.
Proof.
  intros Hv Hrest.
  destruct v as [| |[]|[z|]| |s|]; try discriminate Hv;
    unfold text_of; simpl stringify_val; cbv iota.
  - split; reflexivity.
  - split; reflexivity.
  - split; reflexivity.
  - apply parse_number_prim. apply parse_number_string_of_Z. exact Hrest.
  - split; [|reflexivity].
    rewrite parse_prim_quoted, parse_string_quote. reflexivity.
Qed.

Lemma stringify_object o :
  stringify_val (JObject o) =
  match stringify_members o with
  | None => Unserializable
  | Some ts => Text ("{" ++ String.concat "," ts ++ "}")
  end.
Proof.
  simpl.
  match goal with
  | |- match ?f o with _ => _ end = _ =>
      assert (H : forall ps, f ps = stringify_members ps)
  end.
  { induction ps as [|[k v] ps IH]; simpl; [reflexivity|].
    rewrite IH. reflexivity. }
  rewrite H. reflexivity.
Qed.

Lemma stringify_members_simple o :
  simple_obj o = true -> stringify_members o = Some (member_texts o).
Proof.
  induction o as [|[k v] o IH]; simpl; intros H; [reflexivity|].
  apply andb_true_iff in H. destruct H as [Hv Ho].
  rewrite (IH Ho). unfold text_of.
  destruct v as [| |[]|[z|]| |s|]; try discriminate Hv; reflexivity.
Qed.

Lemma obj_set_fresh k v (acc : obj) :
  ~ In k (map fst acc) -> obj_set k v acc = (acc ++ [(k, v)])%list.
Proof.
  induction acc as [|[k0 v0] acc IH]; simpl; intros Hn; [reflexivity|].
  destruct (String.eqb k k0) eqn:E.
  - apply String.eqb_eq in E. subst. tauto.
  - rewrite IH by tauto. reflexivity.
Qed.

Lemma skip_ws_quote k tail : skip_ws (quote k ++ tail) = quote k ++ tail.
Proof. reflexivity. Qed.

(** The parser reads back the members [stringify_val] wrote. *)
Lemma parse_members_texts o :
  forall fuel acc rest,
    o <> [] ->
    simple_obj o = true ->
    NoDup (map fst acc ++ map fst o)%list ->
    (List.length o <= fuel)%nat ->
    parse_members fuel acc
      (String.concat "," (member_texts o) ++ String "}" rest)
    = Some ((acc ++ o)%list, rest).
Proof.
  induction o as [|[k v] o IH]; intros fuel acc rest Hne Hs Hnd Hfuel;
    [congruence|].
  destruct fuel as [|fuel]; [simpl in Hfuel; lia|].
  simpl in Hs. apply andb_true_iff in Hs. destruct Hs as [Hv Ho].
  assert (Hfresh : ~ In k (map fst acc)).
  { simpl in Hnd. apply NoDup_remove_2 in Hnd. intros Hin. apply Hnd.
    apply in_or_app. left. exact Hin. }
  assert (Hstep : forall tail,
            closes_value tail ->
            parse_members (S fuel) acc
              ((quote k ++ ":" ++ text_of v) ++ tail)
            = match tail with
              | String c' r4 =>
                  if Ascii.eqb c' ","
                  then parse_members fuel (acc ++ [(k, v)])%list r4
                  else if Ascii.eqb c' "}"
                       then Some ((acc ++ [(k, v)])%list, r4)
                       else None
              | EmptyString => None
              end).
  { intros tail Htail. cbn [parse_members].
    rewrite !append_assoc. rewrite skip_ws_quote, parse_string_quote.
    cbn [append skip_ws].
    change (is_ws ":") with false. cbv iota.
    change (Ascii.eqb ":" ":") with true. cbv iota.
    destruct (parse_prim_text v tail Hv Htail) as [Hp Hw].
    rewrite Hw, Hp. rewrite (obj_set_fresh k v acc Hfresh).
    destruct Htail as (c & r & -> & [-> | ->]); reflexivity. }
  destruct o as [|kv o'].
  - simpl member_texts. simpl String.concat.
    rewrite Hstep by (eexists; eexists; split; [reflexivity|right;
                                                  reflexivity]).
    simpl. reflexivity.
  - change (String.concat "," (member_texts ((k, v) :: kv :: o')))
      with ((quote k ++ ":" ++ text_of v)
              ++ "," ++ String.concat "," (member_texts (kv :: o'))).
    rewrite append_assoc.
    change (("," ++ String.concat "," (member_texts (kv :: o')))
              ++ String "}" rest)
      with (String ","
              (String.concat "," (member_texts (kv :: o'))
                 ++ String "}" rest)).
    rewrite Hstep by (eexists; eexists; split; [reflexivity|left;
                                                  reflexivity]).
    simpl Ascii.eqb. cbv iota.
    rewrite IH.
    + rewrite <- app_assoc. reflexivity.
    + discriminate.
    + exact Ho.
    + rewrite map_app. simpl. rewrite <- app_assoc. simpl. exact Hnd.
    + simpl in Hfuel |- *. lia.
Qed.

Lemma length_append (a b : string) :
  String.length (a ++ b) = (String.length a + String.length b)%nat.
Proof.
  induction a as [|c a IH]; simpl; [reflexivity|]. rewrite IH. reflexivity.
Qed.

Lemma members_length o tail :
  (List.length o
   <= String.length (String.concat "," (member_texts o) ++ tail))%nat.
Proof.
  induction o as [|[k v] o IH]; [simpl; lia|].
  destruct o as [|kv o'].
  - simpl. lia.
  - change (String.concat "," (member_texts ((k, v) :: kv :: o')))
      with ((quote k ++ ":" ++ text_of v)
              ++ "," ++ String.concat "," (member_texts (kv :: o'))).
    rewrite append_assoc, length_append.
    change (String.length
              (("," ++ String.concat "," (member_texts (kv :: o')))
                 ++ tail))
      with (S (String.length
                 (String.concat "," (member_texts (kv :: o')) ++ tail))).
    simpl List.length in *. lia.
Qed.

(** A flat object of simple values with distinct keys is read back
    from its JSON text. *)
Lemma JSON_roundtrip (o : obj) :
  NoDup (map fst o) ->
  simple_obj o = true ->
  exists text,
    JSON_stringify o = Ok text /\ JSON_parse text = Some (JObject o).
Proof.
  intros Hnd Hs.
  exists ("{" ++ String.concat "," (member_texts o) ++ "}"). split.
  - unfold JSON_stringify.
    rewrite stringify_object, (stringify_members_simple o Hs). reflexivity.
  - unfold JSON_parse.
    change (skip_ws ("{" ++ String.concat "," (member_texts o) ++ "}"))
      with ("{" ++ String.concat "," (member_texts o) ++ "}").
    destruct o as [|[k v] o'].
    + reflexivity.
    + assert (Hhead : exists x,
                String.concat "," (member_texts ((k, v) :: o')) ++ "}"
                = String dquote x).
      { destruct o'; eexists; reflexivity. }
      destruct Hhead as [x Hx].
      change (parse_value
                ("{" ++ String.concat "," (member_texts ((k, v) :: o'))
                     ++ "}"))
        with (match skip_ws (String.concat ","
                               (member_texts ((k, v) :: o')) ++ "}") with
              | String c' rest' =>
                  if Ascii.eqb c' "}" then Some (JObject [], rest')
                  else
                    match parse_members
                            (String.length
                               (String.concat ","
                                  (member_texts ((k, v) :: o')) ++ "}"))
                            []
                            (String.concat ","
                               (member_texts ((k, v) :: o')) ++ "}") with
                    | Some (o, r) => Some (JObject o, r)
                    | None => None
                    end
              | EmptyString => None
              end).
      rewrite Hx at 1. change (skip_ws (String dquote x))
        with (String dquote x).
      cbv iota. change (Ascii.eqb dquote "}") with false. cbv iota.
      rewrite (parse_members_texts ((k, v) :: o')
                 _ [] "" ltac:(discriminate) Hs Hnd
                 (members_length _ _)).
      reflexivity.
Qed.

End Json.

(* ================================================================= *)
(** ** useMediaReleaseViewer: release table, scanner, reveal decoding *)

Module Viewer.

(* ----------------------------------------------------------------- *)
(** *** The release table *)

(** The three views of a release the hook builds.  Each object literal
    lists all eight properties, [revealed] and [currentBlock] possibly
    with the value [undefined]. *)

Definition revealed_value (revealedData : option string) : jsval :=
  match revealedData with
  | Some s => if String.eqb s "" then JUndefined else JStr s
  | None => JUndefined
  end.

(** The item [fetchReleases] builds from a [Created] log. *)
Definition fetched_item (requestId : Z) (address fileCidHash : string)
    (unlockAtBlock : Z) (isRevealed : bool) (revealedData : option string)
    (currentBlock : Z) : obj :=
  [ ("requestId"%string, JBig requestId);
    ("creator"%string, JStr address);
    ("fileCidHash"%string, JStr fileCidHash);
    ("unlockAtBlock"%string, JBig unlockAtBlock);
    ("isRevealed"%string, JBool isRevealed);
    ("revealed"%string,
       if isRevealed then revealed_value revealedData else JUndefined);
    ("currentBlock"%string, JNum (Int currentBlock));
    ("isUnlocked"%string, JBool (unlockAtBlock <=? currentBlock)) ].

(** The record [getReleaseById] returns from [metaOf]. *)
Definition release_by_id (requestId : Z) (creator fileCidHash : string)
    (unlockAtBlock : Z) (isRevealed : bool) (revealedData : option string)
    (currentBlock : Z) : obj :=
  [ ("requestId"%string, JBig requestId);
    ("creator"%string, JStr creator);
    ("fileCidHash"%string, JStr fileCidHash);
    ("unlockAtBlock"%string, JBig unlockAtBlock);
    ("isRevealed"%string, JBool isRevealed);
    ("revealed"%string,
       if isRevealed then revealed_value revealedData else JUndefined);
    ("currentBlock"%string, JNum (Int currentBlock));
    ("isUnlocked"%string, JBool (unlockAtBlock <=? currentBlock)) ].

(** The local-only record [loadFromLocalStorage] builds. *)
Definition local_release (requestId : Z) (address : string)
    (unlockAtBlock : Z) : obj :=
  [ ("requestId"%string, JBig requestId);
    ("creator"%string, JStr address);
    ("fileCidHash"%string, JStr "0x");
    ("unlockAtBlock"%string, JBig unlockAtBlock);
    ("isRevealed"%string, JBool false);
    ("revealed"%string, JUndefined);
    ("currentBlock"%string, JUndefined);
    ("isUnlocked"%string, JBool false) ].

(** [r.requestId.toString()], the key of the table. *)
Definition key_of (r : obj) : string := js_string (obj_get "requestId" r).

(** The bigint a record is ordered by. *)
Definition requestId_of (r : obj) : Z :=
  match obj_get "requestId" r with
  | JBig z => z
  | JNum (Int z) => z
  | _ => 0
  end.

(** A JavaScript [Map] with string keys: entries in insertion order, a
    key written again keeps its place. *)
Definition JsMap : Type := list (string * obj).

Fixpoint map_get (k : string) (m : JsMap) : option obj :=
  match m with
  | [] => None
  | (k', v) :: m' => if String.eqb k k' then Some v else map_get k m'
  end.

Fixpoint map_set (k : string) (v : obj) (m : JsMap) : JsMap :=
  match m with
  | [] => [(k, v)]
  | (k', v') :: m' =>
      if String.eqb k k' then (k', v) :: m' else (k', v') :: map_set k v m'
  end.

Definition map_of_entries (es : list (string * obj)) : JsMap :=
  fold_left (fun m kv => map_set (fst kv) (snd kv) m) es [].

Definition map_values (m : JsMap) : list obj := map snd m.

(** [arr.sort((a, b) => Number(b.requestId - a.requestId))]: a stable
    sort, larger request ids first. *)
Fixpoint insert_desc (x : obj) (l : list obj) : list obj :=
  match l with
  | [] => [x]
  | y :: l' =>
      if requestId_of y - requestId_of x <=? 0 then x :: y :: l'
      else y :: insert_desc x l'
  end.

Definition sort_desc (l : list obj) : list obj :=
  fold_right insert_desc [] l.

(** The updater [fetchReleases] passes to [setReleases]. *)
Definition merge_step (byId : JsMap) (item : obj) : JsMap :=
  map_set (key_of item)
          (spread (spread [] (match map_get (key_of item) byId with
                              | Some r => r
                              | None => []
                              end))
                  item)
          byId.

Definition merge_fetched (prev newItems : list obj) : list obj :=
  let byId := map_of_entries (map (fun r => (key_of r, r)) prev) in
  sort_desc (map_values (fold_left merge_step newItems byId)).

(** The updater [checkReleaseStatus] passes to [setReleases]. *)
Definition check_update (requestId : Z) (release : obj) (prev : list obj)
  : list obj :=
  map (fun r => if strict_eq (obj_get "requestId" r) (JBig requestId)
                then spread (spread [] r) release
                else r)
      prev.

(** The updater of [loadFromLocalStorage]. *)
Definition add_local (localReleases prev : list obj) : list obj :=
  let existingIds := map key_of prev in
  let newReleases :=
    filter (fun r => negb (existsb (String.eqb (key_of r)) existingIds))
           localReleases in
  sort_desc (newReleases ++ prev).

(** The updater of [updateCurrentBlock]. *)
Definition set_current_block (currentBlock : Z) (prev : list obj)
  : list obj :=
  map (fun r => obj_set "currentBlock" (JNum (Int currentBlock))
                        (spread [] r))
      prev.

(** [get(requestId)]: the record listed under a key. *)
Definition find_release (key : string) (store : list obj) : option obj :=
  find (fun r => String.eqb (key_of r) key) store.

(** The record the [Map] built from the table holds under a key. *)
Definition stored (key : string) (prev : list obj) : option obj :=
  map_get key (map_of_entries (map (fun r => (key_of r, r)) prev)).

(** A well-formed object has no key twice. *)
Fixpoint distinct (l : list string) : bool :=
  match l with
  | [] => true
  | k :: l' => negb (existsb (String.eqb k) l') && distinct l'
  end.

Definition wf_obj (o : obj) : Prop := distinct (map fst o) = true.

(** Field by field, the outcome of writing the view [item] over the
    record [old]. *)
Definition overwritten (old : option obj) (item : obj) (k : string)
  : option jsval :=
  match obj_lookup k item with
  | Some v => Some v
  | None => match old with
            | Some r => obj_lookup k r
            | None => None
            end
  end.

(** Example views of request 7: the local record of its creation, the
    record read from the contract after the reveal, and the item a later
    refresh builds from the [Created] log, then more than ten blocks old
    so that its reveal status is not asked for. *)
Definition local_7 : obj := local_release 7 "0xcreator" 150.
Definition revealed_7 : obj :=
  release_by_id 7 "0xcreator" "0xhash" 150 true (Some "0x7b7d"%string) 160.
Definition stale_7 : obj :=
  fetched_item 7 "0xcreator" "0xhash" 150 false None 175.

(** *** Objects *)

Lemma obj_lookup_set k k' v o :
  obj_lookup k (obj_set k' v o) =
  if String.eqb k k' then Some v else obj_lookup k o.
Proof.
  induction o as [|[k0 v0] o IH]; simpl.
  - reflexivity.
  - destruct (String.eqb k' k0) eqn:E; simpl.
    + apply String.eqb_eq in E. subst k0.
      destruct (String.eqb k k'); reflexivity.
    + rewrite IH. destruct (String.eqb k k0) eqn:E0; [|reflexivity].
      apply String.eqb_eq in E0. subst k0.
      destruct (String.eqb k k') eqn:E1; [|reflexivity].
      apply String.eqb_eq in E1. subst k'.
      rewrite String.eqb_refl in E. discriminate.
Qed.

Lemma obj_lookup_not_in k o :
  ~ In k (map fst o) -> obj_lookup k o = None.
Proof.
  induction o as [|[k0 v0] o IH]; simpl; intros Hn; [reflexivity|].
  destruct (String.eqb k k0) eqn:E.
  - apply String.eqb_eq in E. subst. tauto.
  - apply IH. tauto.
Qed.

Lemma distinct_NoDup l : distinct l = true -> NoDup l.
Proof.
  induction l as [|k l IH]; simpl; intros H; [constructor|].
  apply andb_true_iff in H. destruct H as [Hk Hl].
  constructor; [|apply IH; exact Hl].
  intros Hin. apply negb_true_iff in Hk.
  assert (existsb (String.eqb k) l = true) as Hex.
  { apply existsb_exists. exists k. split; [exact Hin|].
    apply String.eqb_refl. }
  congruence.
Qed.

(** Spreading a well-formed object writes each of its properties. *)
Lemma obj_lookup_spread k b :
  wf_obj b ->
  forall a,
    obj_lookup k (spread a b) =
    match obj_lookup k b with
    | Some v => Some v
    | None => obj_lookup k a
    end.
Proof.
  intros Hwf. apply distinct_NoDup in Hwf. revert Hwf. unfold spread.
  induction b as [|[k0 v0] b IH]; intros Hwf a; simpl; [reflexivity|].
  inversion Hwf as [|? ? Hnotin Hwf']; subst.
  rewrite (IH Hwf'). rewrite obj_lookup_set.
  destruct (String.eqb k k0) eqn:E.
  - apply String.eqb_eq in E. subst k0.
    rewrite (obj_lookup_not_in _ _ Hnotin). reflexivity.
  - reflexivity.
Qed.

Lemma obj_lookup_respread k old item :
  wf_obj old -> wf_obj item ->
  obj_lookup k (spread (spread [] old) item) = overwritten (Some old) item k.
Proof.
  intros Hold Hitem. unfold overwritten.
  rewrite (obj_lookup_spread k item Hitem).
  rewrite (obj_lookup_spread k old Hold). simpl.
  destruct (obj_lookup k item); [reflexivity|].
  destruct (obj_lookup k old); reflexivity.
Qed.

Lemma obj_lookup_spread_fresh k item :
  wf_obj item ->
  obj_lookup k (spread (spread [] []) item) = overwritten None item k.
Proof.
  intros Hitem. unfold overwritten.
  rewrite (obj_lookup_spread k item Hitem). simpl.
  destruct (obj_lookup k item); reflexivity.
Qed.

(** *** The Map and the sort *)

Lemma map_get_set k k' v m :
  map_get k (map_set k' v m) =
  if String.eqb k k' then Some v else map_get k m.
Proof.
  induction m as [|[k0 v0] m IH]; simpl.
  - reflexivity.
  - destruct (String.eqb k' k0) eqn:E; simpl.
    + apply String.eqb_eq in E. subst k0.
      destruct (String.eqb k k'); reflexivity.
    + rewrite IH. destruct (String.eqb k k0) eqn:E0; [|reflexivity].
      apply String.eqb_eq in E0. subst k0.
      destruct (String.eqb k k') eqn:E1; [|reflexivity].
      apply String.eqb_eq in E1. subst k'.
      rewrite String.eqb_refl in E. discriminate.
Qed.

(** Each entry of the table's Map is filed under its own key, and no
    key is filed twice. *)
Definition filed (m : JsMap) : Prop :=
  Forall (fun kv => key_of (snd kv) = fst kv) m /\ NoDup (map fst m).

Lemma map_set_keys k v m :
  forall x, In x (map fst (map_set k v m)) -> x = k \/ In x (map fst m).
Proof.
  induction m as [|[k0 v0] m IH]; simpl; intros x Hx.
  - destruct Hx as [<-|[]]. left; reflexivity.
  - destruct (String.eqb k k0) eqn:E; simpl in Hx.
    + right. exact Hx.
    + destruct Hx as [<-|Hx]; [right; left; reflexivity|].
      destruct (IH x Hx); [left|right; right]; assumption.
Qed.

Lemma filed_set k v m :
  key_of v = k -> filed m -> filed (map_set k v m).
Proof.
  intros Hk [Hf Hn]. split.
  - induction m as [|[k0 v0] m IH]; simpl.
    + constructor; [exact Hk|constructor].
    + inversion Hf as [|? ? Hhd Htl]; subst. inversion Hn; subst.
      destruct (String.eqb (key_of v) k0) eqn:E.
      * apply String.eqb_eq in E. constructor; [exact E|exact Htl].
      * constructor; [exact Hhd|]. apply IH; assumption.
  - induction m as [|[k0 v0] m IH]; simpl.
    + constructor; [intros []|constructor].
    + inversion Hf as [|? ? Hhd Htl]; subst.
      inversion Hn as [|? ? Hnotin Hn']; subst.
      destruct (String.eqb (key_of v) k0) eqn:E; simpl.
      * constructor; assumption.
      * constructor; [|apply IH; assumption].
        intros Hin. apply map_set_keys in Hin. destruct Hin as [->|Hin].
        -- rewrite String.eqb_refl in E. discriminate.
        -- exact (Hnotin Hin).
Qed.

Lemma filed_entries prev :
  filed (map_of_entries (map (fun r => (key_of r, r)) prev)).
Proof.
  unfold map_of_entries.
  assert (Hgen : forall m, filed m ->
            filed (fold_left (fun m kv => map_set (fst kv) (snd kv) m)
                             (map (fun r => (key_of r, r)) prev) m)).
  { induction prev as [|r prev IH]; intros m Hm; simpl; [exact Hm|].
    apply IH. apply filed_set; [reflexivity|exact Hm]. }
  apply Hgen. split; constructor.
Qed.

Lemma find_filed key m :
  filed m -> find_release key (map_values m) = map_get key m.
Proof.
  intros [Hf _]. unfold find_release, map_values.
  induction m as [|[k0 v0] m IH]; simpl; [reflexivity|].
  inversion Hf as [|? ? Hhd Htl]; subst. simpl in Hhd. rewrite Hhd.
  rewrite (String.eqb_sym k0 key).
  destruct (String.eqb key k0); [reflexivity|]. apply IH. exact Htl.
Qed.

Lemma insert_desc_perm x l : Permutation (insert_desc x l) (x :: l).
Proof.
  induction l as [|y l IH]; simpl; [apply Permutation_refl|].
  destruct (requestId_of y - requestId_of x <=? 0).
  - apply Permutation_refl.
  - eapply Permutation_trans; [apply perm_skip; exact IH|apply perm_swap].
Qed.

Lemma sort_desc_perm l : Permutation (sort_desc l) l.
Proof.
  induction l as [|x l IH]; simpl; [constructor|].
  eapply Permutation_trans; [apply insert_desc_perm|].
  apply perm_skip. exact IH.
Qed.

(** Among records with distinct keys, the record found under a key
    does not depend on the order of the list. *)
Lemma find_release_perm key l l' :
  Permutation l l' -> NoDup (map key_of l) ->
  find_release key l = find_release key l'.
Proof.
  unfold find_release.
  induction 1 as [|x l l' Hp IH|x y l|l l' l'' Hp1 IH1 Hp2 IH2];
    intros Hnd; simpl.
  - reflexivity.
  - inversion Hnd; subst. rewrite IH by assumption. reflexivity.
  - destruct (String.eqb (key_of y) key) eqn:Ey;
      destruct (String.eqb (key_of x) key) eqn:Ex; try reflexivity.
    apply String.eqb_eq in Ey, Ex. simpl in Hnd.
    inversion Hnd as [|? ? Hnotin _]; subst. exfalso. apply Hnotin.
    left. congruence.
  - rewrite IH1 by assumption. apply IH2.
    eapply Permutation_NoDup; [|exact Hnd].
    apply Permutation_map. exact Hp1.
Qed.

Lemma find_sorted_filed key m :
  filed m -> find_release key (sort_desc (map_values m)) = map_get key m.
Proof.
  intros Hm. rewrite <- (find_filed key m Hm).
  symmetry. apply find_release_perm.
  - apply Permutation_sym. apply sort_desc_perm.
  - destruct Hm as [Hf Hn]. unfold map_values.
    replace (map key_of (map snd m)) with (map fst m); [exact Hn|].
    clear Hn. induction m as [|[k0 v0] m IH]; simpl; [reflexivity|].
    inversion Hf as [|? ? Hhd Htl]; subst. simpl in Hhd.
    rewrite Hhd, <- IH by assumption. reflexivity.
Qed.

(** The merged record is filed under the key of the incoming view. *)
Lemma key_of_merged old item :
  wf_obj item ->
  match old with
  | Some r => wf_obj r /\ key_of r = key_of item
  | None => True
  end ->
  key_of (spread (spread [] (match old with Some r => r | None => [] end))
                 item) = key_of item.
Proof.
  intros Hitem Hold. unfold key_of, obj_get.
  destruct old as [r|].
  - destruct Hold as [Hr Hkey].
    rewrite (obj_lookup_respread "requestId" r item Hr Hitem).
    unfold overwritten. unfold key_of, obj_get in Hkey.
    destruct (obj_lookup "requestId" item); [reflexivity|exact Hkey].
  - rewrite (obj_lookup_spread_fresh "requestId" item Hitem).
    unfold overwritten. destruct (obj_lookup "requestId" item); reflexivity.
Qed.

Lemma map_set_values k v m :
  forall x, In x (map_values (map_set k v m)) ->
            x = v \/ In x (map_values m).
Proof.
  unfold map_values.
  induction m as [|[k0 v0] m IH]; simpl; intros x Hx.
  - destruct Hx as [<-|[]]. left; reflexivity.
  - destruct (String.eqb k k0); simpl in Hx.
    + destruct Hx as [<-|Hx]; [left; reflexivity|right; right; exact Hx].
    + destruct Hx as [<-|Hx]; [right; left; reflexivity|].
      destruct (IH x Hx); [left|right; right]; assumption.
Qed.

Lemma map_get_value k m r :
  map_get k m = Some r -> In (k, r) m.
Proof.
  induction m as [|[k0 v0] m IH]; simpl; [discriminate|].
  destruct (String.eqb k k0) eqn:E.
  - apply String.eqb_eq in E. intros [= ->]. left. congruence.
  - intros H. right. apply IH. exact H.
Qed.

Lemma entries_values prev :
  forall x,
    In x (map_values (map_of_entries (map (fun r => (key_of r, r)) prev))) ->
    In x prev.
Proof.
  unfold map_of_entries.
  assert (Hgen : forall m x,
            In x (map_values
                    (fold_left (fun m kv => map_set (fst kv) (snd kv) m)
                               (map (fun r => (key_of r, r)) prev) m)) ->
            In x (map_values m) \/ In x prev).
  { induction prev as [|r prev IH]; intros m x Hx; simpl in *.
    - left. exact Hx.
    - destruct (IH _ _ Hx) as [Hm|Hp]; [|right; right; exact Hp].
      apply map_set_values in Hm. destruct Hm as [->|Hm];
        [right; left; reflexivity|left; exact Hm]. }
  intros x Hx. destruct (Hgen [] x Hx) as [[]|Hp]. exact Hp.
Qed.

(** What the table's Map holds under a key is a record of the table
    with that key. *)
Lemma stored_in key prev r :
  stored key prev = Some r -> In r prev /\ key_of r = key.
Proof.
  unfold stored. intros Hget.
  pose proof (filed_entries prev) as [Hf _].
  apply map_get_value in Hget. split.
  - apply entries_values. unfold map_values.
    apply (in_map snd) in Hget. exact Hget.
  - rewrite Forall_forall in Hf. exact (Hf _ Hget).
Qed.

(** The merge of one fetched item, seen from any key. *)
Lemma merge_fetched_one prev item key :
  Forall wf_obj prev -> wf_obj item ->
  find_release key (merge_fetched prev [item]) =
  if String.eqb key (key_of item)
  then Some (spread (spread [] (match stored (key_of item) prev with
                                | Some r => r
                                | None => []
                                end)) item)
  else stored key prev.
Proof.
  intros Hprev Hitem. unfold merge_fetched. simpl.
  set (byId := map_of_entries (map (fun r => (key_of r, r)) prev)).
  assert (Hfiled : filed (merge_step byId item)).
  { unfold merge_step. apply filed_set; [|apply filed_entries].
    apply key_of_merged; [exact Hitem|].
    destruct (map_get (key_of item) byId) as [r|] eqn:Hget; [|exact I].
    apply stored_in in Hget. destruct Hget as [Hin Hkey].
    rewrite Forall_forall in Hprev. split; [apply Hprev; exact Hin|].
    exact Hkey. }
  rewrite (find_sorted_filed key _ Hfiled).
  unfold merge_step. rewrite map_get_set. reflexivity.
Qed.

(** *** The claim on the release table *)

(** C1, amended.  An upsert writes the incoming view over the stored
    record of its request field by field: in the merge of
    [fetchReleases] and in the update of [checkReleaseStatus] alike,
    every field the view carries replaces the stored one (also
    [isRevealed = false] or [revealed = undefined]), a field it does
    not carry is kept, and records under other keys are left as they
    are. *)
Theorem C1_upsert_overwrites_fieldwise prev view rid :
  Forall wf_obj prev ->
  wf_obj view ->
  (exists merged,
      find_release (key_of view) (merge_fetched prev [view]) = Some merged
      /\ forall k, obj_lookup k merged
                   = overwritten (stored (key_of view) prev) view k)
  /\ (forall key, key <> key_of view ->
        find_release key (merge_fetched prev [view]) = stored key prev)
  /\ (forall i r,
        nth_error prev i = Some r ->
        strict_eq (obj_get "requestId" r) (JBig rid) = true ->
        exists merged,
          nth_error (check_update rid view prev) i = Some merged
          /\ forall k, obj_lookup k merged = overwritten (Some r) view k)
  /\ (forall i r,
        nth_error prev i = Some r ->
        strict_eq (obj_get "requestId" r) (JBig rid) = false ->
        nth_error (check_update rid view prev) i = Some r).
Proof.
  intros Hprev Hview. repeat split.
  - eexists. split.
    + rewrite (merge_fetched_one prev view _ Hprev Hview).
      rewrite String.eqb_refl. reflexivity.
    + intros k.
      destruct (stored (key_of view) prev) as [r|] eqn:Hst.
      * apply obj_lookup_respread; [|exact Hview].
        apply stored_in in Hst. rewrite Forall_forall in Hprev.
        apply Hprev. apply Hst.
      * apply obj_lookup_spread_fresh. exact Hview.
  - intros key Hkey.
    rewrite (merge_fetched_one prev view _ Hprev Hview).
    destruct (String.eqb key (key_of view)) eqn:E; [|reflexivity].
    apply String.eqb_eq in E. contradiction.
  - intros i r Hnth Heq. eexists. split.
    + unfold check_update. rewrite nth_error_map, Hnth. simpl.
      rewrite Heq. reflexivity.
    + intros k. apply obj_lookup_respread; [|exact Hview].
      rewrite Forall_forall in Hprev. apply Hprev.
      eapply nth_error_In. exact Hnth.
  - intros i r Hnth Heq.
    unfold check_update. rewrite nth_error_map, Hnth. simpl.
    rewrite Heq. reflexivity.
Qed.

Lemma C1_witness :
  (exists merged,
      find_release (key_of stale_7) (merge_fetched [revealed_7] [stale_7])
        = Some merged
      /\ forall k, obj_lookup k merged
                   = overwritten (stored (key_of stale_7) [revealed_7])
                                 stale_7 k)
  /\ (forall key, key <> key_of stale_7 ->
        find_release key (merge_fetched [revealed_7] [stale_7])
          = stored key [revealed_7])
  /\ (forall i r,
        nth_error [revealed_7] i = Some r ->
        strict_eq (obj_get "requestId" r) (JBig 7) = true ->
        exists merged,
          nth_error (check_update 7 stale_7 [revealed_7]) i = Some merged
          /\ forall k, obj_lookup k merged = overwritten (Some r) stale_7 k)
  /\ (forall i r,
        nth_error [revealed_7] i = Some r ->
        strict_eq (obj_get "requestId" r) (JBig 7) = false ->
        nth_error (check_update 7 stale_7 [revealed_7]) i = Some r).
Proof.
  apply (C1_upsert_overwrites_fieldwise [revealed_7] stale_7 7).
  - repeat constructor.
  - reflexivity.
Defined.

(** C1, as stated, fails.  Request 7 is created locally, found revealed
    by [checkReleaseStatus], and then refreshed by [fetchReleases] from
    its old [Created] log: the refresh sets [isRevealed] back to
    [false] and clears [revealed]; with the last two steps swapped the
    table ends with the revealed record. *)
Lemma C1_counterexample :
  let s0 := add_local [local_7] [] in
  let s1 := check_update 7 revealed_7 s0 in
  let s2 := merge_fetched s1 [stale_7] in
  let s1' := merge_fetched s0 [stale_7] in
  let s2' := check_update 7 revealed_7 s1' in
  option_map (obj_get "isRevealed") (find_release "7" s1)
    = Some (JBool true)
  /\ option_map (obj_get "revealed") (find_release "7" s1)
     = Some (JStr "0x7b7d")
  /\ option_map (obj_get "isRevealed") (find_release "7" s2)
     = Some (JBool false)
  /\ option_map (obj_get "revealed") (find_release "7" s2)
     = Some JUndefined
  /\ nullish (JStr "0x7b7d") = false
  /\ nullish JUndefined = true
  /\ option_map (obj_get "isRevealed") (find_release "7" s2')
     = Some (JBool true)
  /\ find_release "7" s2 <> find_release "7" s2'.
Proof.
  repeat split; try (vm_compute; reflexivity).
  vm_compute. discriminate.
Qed.

(** [updateCurrentBlock] touches no other field. *)
Lemma set_current_block_keeps_fields currentBlock r k :
  wf_obj r ->
  k <> "currentBlock"%string ->
  obj_lookup k (obj_set "currentBlock" (JNum (Int currentBlock))
                        (spread [] r))
  = obj_lookup k r.
Proof.
  intros Hwf Hk. rewrite obj_lookup_set.
  apply String.eqb_neq in Hk. rewrite Hk.
  rewrite (obj_lookup_spread k r Hwf). simpl.
  destruct (obj_lookup k r); reflexivity.
Qed.

(* ----------------------------------------------------------------- *)
(** *** The scanner *)

(** The state of the hook: [releases], [isLoading], [error]. *)
Record HookState : Type := mkHook {
  releases : list obj;
  isLoading : bool;
  error : option string
}.

Section Scanner.

(** Raw log entries and their decoding belong to the provider library. *)
Variable Log : Type.
Variable log_blockNumber : Log -> option Z.

Inductive ParseResult : Type :=
| ParseThrows (e : exn)
| ParseNull
| Parsed (name : string) (payload : jsval).

Variable parseLog : Log -> ParseResult.
Variable hexlify : jsval -> Res string.
Variable ethers_id : string -> string.
Variable topic_of_uint : Z -> string.

(** The provider as an oracle over the history of calls. *)
Variable have_provider : bool.
Variable rpc_getBlockNumber : list Event -> Res Z.
Variable rpc_getLogs : list Event -> Filter -> Z -> Z -> Res (list Log).

(** [contract.metaOf(requestId)]: creator, fileCidHash, unlockAtBlock,
    isRevealed. *)
Variable signer_connected : bool.
Variable rpc_metaOf : list Event -> Z -> Res (string * string * Z * bool).

(** Configuration constants read from the environment. *)
Variable DEFAULT_GETLOGS_CHUNK : Z.
Variable PREFETCH_BLOCKS_BEFORE : Z.
Variable REVEAL_SEARCH_FORWARD : Z.
Variable CONTRACT_ADDRESS : string.
Variable has_window : bool.

Definition getBlockNumber : M Z :=
  call EvGetBlockNumber rpc_getBlockNumber.

Definition getLogs (f : Filter) (fromBlock toBlock : Z) : M (list Log) :=
  call (EvGetLogs f fromBlock toBlock)
       (fun h => rpc_getLogs h f fromBlock toBlock).

Definition chunk_warning (start end_ : Z) : string :=
  ("Failed to get logs for blocks " ++ string_of_Z start ++ "-"
     ++ string_of_Z end_ ++ ":")%string.

(** The [for (start = fromBlock; start <= toBlock; start += chunkSize)]
    loop of [getLogsChunked]. *)
Fixpoint getLogsChunked_loop (fuel : nat) (filter : Filter)
    (start toBlock chunkSize : Z) (logs : list Log) : M (list Log) :=
  if start <=? toBlock then
    match fuel with
    | O => diverge
    | S fuel' =>
        let end_ := Z.min (start + chunkSize - 1) toBlock in
        logs' <- try_catch
                   (chunkLogs <- getLogs filter start end_ ;;
                    ret (logs ++ chunkLogs)%list)
                   (fun err => console "warn" (chunk_warning start end_) ;;
                               ret logs) ;;
        getLogsChunked_loop fuel' filter (start + chunkSize) toBlock
                            chunkSize logs'
    end
  else ret logs.

Definition getLogsChunked (fuel : nat) (filter : Filter)
    (fromBlock toBlock chunkSize : Z) : M (list Log) :=
  if negb have_provider then throw (Error "No provider available")
  else getLogsChunked_loop fuel filter fromBlock toBlock chunkSize [].

(** [withRetry(fn, attempts = 2, delayMs = 500)]; [remaining] is
    [attempts - i], and [last] starts as [undefined]. *)
Fixpoint withRetry_loop {A} (fn : M A) (remaining : nat) (delayMs : Z)
    (last : exn) : M A :=
  match remaining with
  | O => throw last
  | S remaining' =>
      try_catch fn
        (fun e =>
           (match remaining' with
            | O => ret tt
            | S _ => emit (EvSleep delayMs)
            end) ;;
           withRetry_loop fn remaining' delayMs e)
  end.

Definition withRetry {A} (fn : M A) (attempts : nat) (delayMs : Z) : M A :=
  withRetry_loop fn attempts delayMs (Rejected "undefined").

Definition withRetry_default {A} (fn : M A) : M A := withRetry fn 2 500.

(** The scan over the fetched logs in [fetchRevealedPayload]. *)
Fixpoint scan_logs (logs : list Log) (toBlock : Z) : M (option string) :=
  match logs with
  | [] => ret None
  | l :: rest =>
      match parseLog l with
      | Parsed name payload =>
          if String.eqb name "Revealed" && truthy payload then
            (if has_window then
               emit (EvSetItem
                       ("media_release_last_block_" ++ CONTRACT_ADDRESS)
                       (string_of_Z (match log_blockNumber l with
                                     | Some b => b
                                     | None => toBlock
                                     end)))
             else ret tt) ;;
            match payload with
            | JStr s => ret (Some s)
            | _ =>
                match hexlify payload with
                | Ok s => ret (Some s)
                | Throw _ => scan_logs rest toBlock
                end
            end
          else scan_logs rest toBlock
      | ParseNull => scan_logs rest toBlock
      | ParseThrows _ => scan_logs rest toBlock
      end
  end.

Definition fetchRevealedPayload (fuel : nat) (requestId : Z)
    (targetBlock : option Z) : M (option string) :=
  if negb have_provider
  then throw (Error "No provider available to fetch reveal payload")
  else
    try_catch
      (console "log" "requestID from fetch revealed payload=" ;;
       let topic0 := ethers_id "Revealed(uint256,bytes)" in
       let topic1 := topic_of_uint requestId in
       let filter := mkFilter CONTRACT_ADDRESS [topic0; topic1] in
       currentBlock <- getBlockNumber ;;
       if match targetBlock with
          | Some tb => currentBlock <? tb - PREFETCH_BLOCKS_BEFORE
          | None => false
          end
       then ret None
       else
         let fromBlock :=
           match targetBlock with
           | Some tb => Z.max 0 (tb - PREFETCH_BLOCKS_BEFORE)
           | None => Z.max 0 (currentBlock - 500)
           end in
         let toBlock :=
           match targetBlock with
           | Some tb => Z.min currentBlock (tb + REVEAL_SEARCH_FORWARD)
           | None => currentBlock
           end in
         console "log" "fromBlock=" ;;
         console "log" "toBlock=" ;;
         if toBlock <? fromBlock then ret None
         else
           logs <- getLogsChunked fuel filter fromBlock toBlock
                                  DEFAULT_GETLOGS_CHUNK ;;
           scan_logs logs toBlock)
      (fun err => console "error" "fetchRevealedPayload failed:" ;;
                  throw err).

Definition getReleaseById (fuel : nat) (requestId : Z) : M (option obj) :=
  if negb signer_connected then ret None
  else
    try_catch
      (releaseInfo <- call (EvMetaOf requestId)
                           (fun h => rpc_metaOf h requestId) ;;
       let '(creator, fileCidHash, unlockAtBlock, isRevealed) :=
         releaseInfo in
       currentBlock <- getBlockNumber ;;
       revealed <-
         (if isRevealed then
            try_catch (fetchRevealedPayload fuel requestId None)
                      (fun err =>
                         console "warn"
                                 "Failed to fetch revealed payload for" ;;
                         ret None)
          else ret None) ;;
       ret (Some (release_by_id requestId creator fileCidHash unlockAtBlock
                                isRevealed revealed currentBlock)))
      (fun err => console "error" "Failed to get release:" ;; ret None).

(** [checkReleaseStatus], with the table it leaves. *)
Definition checkReleaseStatus (fuel : nat) (requestId : Z)
    (prev : list obj) : M (bool * list obj) :=
  try_catch
    (console "log" "requestID from release status=" ;;
     release <- getReleaseById fuel requestId ;;
     match release with
     | None => ret (false, prev)
     | Some r =>
         ret (truthy (obj_get "isRevealed" r), check_update requestId r prev)
     end)
    (fun err => console "error" "Failed to check release status:" ;;
                ret (false, prev)).

(** [updateCurrentBlock] of the hook's effect, with the table it
    leaves; [cancelled] is the flag the effect's cleanup sets. *)
Definition updateCurrentBlock (cancelled : bool) (prev : list obj)
  : M (list obj) :=
  if cancelled || negb have_provider then ret prev
  else
    try_catch
      (currentBlock <- getBlockNumber ;;
       ret (set_current_block currentBlock prev))
      (fun err => console "warn" "Block update failed:" ;; ret prev).

(** *** Listing the created releases *)

(** [iface.parseLog] on a log of the [Created] filter: it throws, gives
    [null], or gives the decoded arguments. *)
Inductive CreatedResult : Type :=
| CreatedThrows (e : exn)
| CreatedNull
| CreatedArgs (requestId : Z) (fileCidHash : string) (unlockAtBlock : Z).

Variable parseCreated : Log -> CreatedResult.
Variable zeroPadValue : string -> string.

(** The connected account, [localStorage.getItem], [Number] on strings,
    and [Promise.all] over the callbacks of [logs.map]: the order in
    which the pending callbacks advance belongs to the host.  Outside a
    browser there is no [localStorage], and naming it throws. *)
Variable account : option string.
Variable getItem : string -> option string.
Variable StringToNumber : string -> number.
Variable Promise_all : list (M (option obj)) -> M (list (option obj)).

Definition reveal_warning (requestId : Z) : string :=
  ("Failed to check reveal status for " ++ string_of_Z requestId ++ ":")%string.

(** The callback [fetchReleases] maps over the logs.  The variables
    [isRevealed] and [revealed] are assigned inside one [try]; a failure
    of the payload fetch leaves [isRevealed] as [metaOf] gave it.  For
    a log without [blockNumber] the difference of the heights is [NaN],
    and the comparison with 10 fails. *)
Definition release_of_log (fuel : nat) (currentBlock : Z) (address : string)
    (log : Log) : M (option obj) :=
  match parseCreated log with
  | CreatedThrows e => throw e
  | CreatedNull => ret None
  | CreatedArgs requestId fileCidHash unlockAtBlock =>
      checked <-
        (if match log_blockNumber log with
            | Some b => currentBlock - b <=? 10
            | None => false
            end
         then
           isRevealed <-
             try_catch
               (meta <- withRetry_default
                          (call (EvMetaOf requestId)
                                (fun h => rpc_metaOf h requestId)) ;;
                let '(_, _, _, isRevealed) := meta in
                ret (Some isRevealed))
               (fun err => console "warn" (reveal_warning requestId) ;;
                           ret None) ;;
           match isRevealed with
           | Some true =>
               try_catch
                 (revealedData <- fetchRevealedPayload fuel requestId None ;;
                  ret (true, revealedData))
                 (fun err => console "warn" (reveal_warning requestId) ;;
                             ret (true, None))
           | Some false => ret (false, None)
           | None => ret (false, None)
           end
         else ret (false, None)) ;;
      let '(isRevealed, revealedData) := checked in
      ret (Some (fetched_item requestId address fileCidHash unlockAtBlock
                              isRevealed revealedData currentBlock))
  end.

(** [raw.filter(Boolean)] *)
Definition filter_Boolean (raw : list (option obj)) : list obj :=
  flat_map (fun r => match r with Some item => [item] | None => [] end) raw.

(** [Number(localStorage.getItem("tblock"))]: a missing item is [null],
    which converts to 0. *)
Definition stored_target : number :=
  match getItem "tblock" with
  | Some s => StringToNumber s
  | None => Int 0
  end.

(** [fetchReleases], with the hook state it leaves.  Naming
    [localStorage] where there is none throws a [ReferenceError], which
    is an [Error] for the [instanceof] test of the handler. *)
Definition fetchReleases (fuel : nat) (st : HookState) : M HookState :=
  if negb signer_connected || negb have_provider then ret st
  else
    let st := mkHook (releases st) true None in
    st' <-
      try_catch
        (currentBlock <- withRetry_default getBlockNumber ;;
         match account with
         | None => ret st
         | Some address =>
             if String.eqb address "" then ret st
             else if negb has_window
             then throw (Error "localStorage is not defined")
             else
               let createdTopic :=
                 ethers_id "Created(uint256,address,bytes32,uint40)" in
               let targetBlock := stored_target in
               let baseFilter :=
                 mkFilter CONTRACT_ADDRESS
                          [createdTopic; zeroPadValue address] in
               try_catch
                 (logs <-
                    match targetBlock with
                    | Int tb =>
                        getLogsChunked fuel baseFilter (Z.max 0 (tb - 10))
                                       tb 10
                    | NaN => ret []
                    end ;;
                  releasesDataRaw <-
                    Promise_all
                      (map (release_of_log fuel currentBlock address)
                           logs) ;;
                  let newItems := filter_Boolean releasesDataRaw in
                  ret (mkHook (merge_fetched (releases st) newItems)
                              (isLoading st) (error st)))
                 (fun err =>
                    console "warn" "Failed to fetch recent releases:" ;;
                    ret st)
         end)
        (fun err =>
           console "error" "Failed to fetch releases:" ;;
           ret (mkHook (releases st) (isLoading st)
                       (Some (message_of err)))) ;;
    ret (mkHook (releases st') false (error st')).

(** The block ranges of the log fetches in a trace, in order. *)
Fixpoint fetch_ranges (h : list Event) : list (Z * Z) :=
  match h with
  | [] => []
  | EvGetLogs _ a b :: h' => (a, b) :: fetch_ranges h'
  | _ :: h' => fetch_ranges h'
  end.

Fixpoint sleeps (h : list Event) : list Z :=
  match h with
  | [] => []
  | EvSleep ms :: h' => ms :: sleeps h'
  | _ :: h' => sleeps h'
  end.

(** [tiles from to c l]: the ranges [l] are consecutive, each holds
    between one and [c] blocks, and together they are exactly
    [from .. to]. *)
Fixpoint tiles (from to c : Z) (l : list (Z * Z)) : Prop :=
  match l with
  | [] => from = to + 1
  | (s, e) :: l' =>
      s = from /\ s <= e /\ e <= to /\ e - s + 1 <= c /\ tiles (e + 1) to c l'
  end.

(** [replay_skipping h h' logs] walks a trace [h'] that starts after the
    history [h] and checks it against the provider: the trace holds
    fetches only, each answered fetch adds its logs, each failed fetch
    adds nothing and is followed by its warning.  It yields the logs
    collected that way. *)
Fixpoint replay_skipping (h h' : list Event) (logs : list Log)
  : option (list Log) :=
  match h' with
  | [] => Some logs
  | EvGetLogs f a b :: rest =>
      match rpc_getLogs h f a b with
      | Ok l =>
          replay_skipping (h ++ [EvGetLogs f a b]) rest (logs ++ l)%list
      | Throw _ =>
          match rest with
          | EvConsole level m :: rest' =>
              if String.eqb level "warn" && String.eqb m (chunk_warning a b)
              then replay_skipping
                     (h ++ [EvGetLogs f a b; EvConsole level m]) rest' logs
              else None
          | _ => None
          end
      end
  | _ => None
  end.

(** Every block of the window lies in exactly one of the ranges. *)
Definition covered_once (from to : Z) (l : list (Z * Z)) : Prop :=
  forall b, from <= b <= to ->
    exists r, In r l /\ fst r <= b <= snd r
              /\ forall r', In r' l -> fst r' <= b <= snd r' -> r' = r.

(** One iteration of the loop body: exactly one fetch of the chunk,
    whatever the provider answers. *)
Definition chunk_step (filter : Filter) (start end_ : Z) (logs : list Log)
    (h : list Event) : list Log * list Event :=
  match rpc_getLogs h filter start end_ with
  | Ok chunkLogs => ((logs ++ chunkLogs)%list, [EvGetLogs filter start end_])
  | Throw _ => (logs, [EvGetLogs filter start end_;
                       EvConsole "warn" (chunk_warning start end_)])
  end.

(** *** Facts about traces *)

Lemma fetch_ranges_app (h1 h2 : list Event) :
  fetch_ranges (h1 ++ h2) = (fetch_ranges h1 ++ fetch_ranges h2)%list.
Proof.
  induction h1 as [|e h1 IH]; simpl; [reflexivity|].
  destruct e; simpl; rewrite ?IH; reflexivity.
Qed.

Lemma sleeps_app (h1 h2 : list Event) :
  sleeps (h1 ++ h2) = (sleeps h1 ++ sleeps h2)%list.
Proof.
  induction h1 as [|e h1 IH]; simpl; [reflexivity|].
  destruct e; simpl; rewrite ?IH; reflexivity.
Qed.

Lemma getLogsChunked_loop_unfold fuel filter start toBlock c logs h :
  start <= toBlock ->
  getLogsChunked_loop (S fuel) filter start toBlock c logs h =
  let end_ := Z.min (start + c - 1) toBlock in
  let '(logs', evs) := chunk_step filter start end_ logs h in
  getLogsChunked_loop fuel filter (start + c) toBlock c logs' (h ++ evs).
Proof.
  intros Hle. simpl.
  apply Z.leb_le in Hle. rewrite Hle.
  unfold chunk_step, bind, try_catch, getLogs, call, console, emit, ret.
  destruct (rpc_getLogs h filter start (Z.min (start + c - 1) toBlock)).
  - reflexivity.
  - rewrite <- app_assoc. reflexivity.
Qed.

Lemma getLogsChunked_loop_done fuel filter start toBlock c logs h :
  toBlock < start ->
  getLogsChunked_loop fuel filter start toBlock c logs h = Some (Ok logs, h).
Proof.
  intros Hlt. apply Z.leb_gt in Hlt.
  destruct fuel; simpl; rewrite Hlt; reflexivity.
Qed.

(** The loop returns, never throws and never sleeps; its fetches tile
    the window. *)
Lemma getLogsChunked_loop_spec filter toBlock c :
  0 < c ->
  forall fuel start logs h,
    (Z.to_nat (toBlock - start + 1) <= fuel)%nat ->
    exists logs' h',
      getLogsChunked_loop fuel filter start toBlock c logs h
        = Some (Ok logs', h ++ h')%list
      /\ sleeps h' = []
      /\ replay_skipping h h' logs = Some logs'
      /\ Forall (fun r => snd r = Z.min (fst r + c - 1) toBlock)
                (fetch_ranges h')
      /\ (start <= toBlock -> tiles start toBlock c (fetch_ranges h'))
      /\ (toBlock < start -> h' = []).
Proof.
  intros Hc fuel.
  induction fuel as [|fuel IH]; intros start logs h Hfuel.
  - assert (Hdone : toBlock < start) by lia.
    exists logs, []. rewrite app_nil_r.
    split; [apply getLogsChunked_loop_done; assumption|].
    repeat split; solve [reflexivity | constructor | lia].
  - destruct (Z_lt_le_dec toBlock start) as [Hdone|Hle].
    + exists logs, []. rewrite app_nil_r.
      split; [apply getLogsChunked_loop_done; assumption|].
      repeat split; solve [reflexivity | constructor | lia].
    + rewrite getLogsChunked_loop_unfold by assumption. cbv zeta.
      set (end_ := Z.min (start + c - 1) toBlock).
      assert (Hstep : exists logs1 h1,
                 chunk_step filter start end_ logs h = (logs1, h1)
                 /\ sleeps h1 = []
                 /\ fetch_ranges h1 = [(start, end_)]
                 /\ forall rest out,
                      replay_skipping (h ++ h1) rest logs1 = out ->
                      replay_skipping h (h1 ++ rest) logs = out).
      { unfold chunk_step.
        destruct (rpc_getLogs h filter start end_) as [l|e] eqn:Hans.
        - exists (logs ++ l)%list, [EvGetLogs filter start end_].
          repeat split. intros rest out Hout. simpl. rewrite Hans.
          exact Hout.
        - exists logs, [EvGetLogs filter start end_;
                        EvConsole "warn" (chunk_warning start end_)].
          repeat split. intros rest out Hout. simpl. rewrite Hans.
          rewrite String.eqb_refl. simpl. exact Hout. }
      destruct Hstep as (logs1 & h1 & Hstep & Hs1 & Hr1 & Hreplay).
      rewrite Hstep.
      destruct (IH (start + c) logs1 (h ++ h1)%list) as
          (logs' & h' & Hrun & Hs & Hrep & Hgreedy & Htile & Hnil); [lia|].
      exists logs', (h1 ++ h')%list.
      rewrite app_assoc. split; [exact Hrun|].
      split; [rewrite sleeps_app, Hs1, Hs; reflexivity|].
      split; [apply Hreplay; exact Hrep|].
      rewrite fetch_ranges_app, Hr1. simpl.
      split; [constructor; [reflexivity|exact Hgreedy]|].
      split; [|lia].
      intros _.
      repeat split; try (unfold end_; lia).
      destruct (Z_lt_le_dec toBlock (start + c)) as [Hlast|Hmore].
      * rewrite (Hnil Hlast). simpl. unfold end_. lia.
      * replace (end_ + 1) with (start + c) by (unfold end_; lia).
        apply Htile. lia.
Qed.

Lemma tiles_bounds c to l :
  forall from, tiles from to c l ->
    Forall (fun r => from <= fst r /\ snd r <= to) l.
Proof.
  induction l as [|[s e] l IH]; intros from Ht; [constructor|].
  simpl in Ht. destruct Ht as (-> & Hse & Het & _ & Ht).
  constructor; [simpl; lia|].
  eapply Forall_impl; [|apply (IH _ Ht)].
  intros r [H1 H2]. lia.
Qed.

Lemma tiles_covered_once c to l :
  forall from, tiles from to c l -> covered_once from to l.
Proof.
  induction l as [|[s e] l IH]; intros from Ht b Hb; simpl in Ht.
  - lia.
  - destruct Ht as (-> & Hse & Het & _ & Ht).
    pose proof (tiles_bounds _ _ _ _ Ht) as Hbound.
    rewrite Forall_forall in Hbound.
    destruct (Z_le_gt_dec b e) as [Hin|Hout].
    + exists (from, e). split; [left; reflexivity|]. split; [simpl; lia|].
      intros r' [<-|Hr'] Hb'; [reflexivity|].
      specialize (Hbound _ Hr'). lia.
    + destruct (IH _ Ht b) as (r & Hr & Hbr & Huniq); [lia|].
      exists r. split; [right; exact Hr|]. split; [exact Hbr|].
      intros r' [<-|Hr'] Hb'; [simpl in Hb'; lia|].
      apply Huniq; assumption.
Qed.

Lemma getLogsChunked_spec fuel filter fromBlock toBlock c h :
  have_provider = true ->
  0 < c ->
  (Z.to_nat (toBlock - fromBlock + 1) <= fuel)%nat ->
  exists logs h',
    getLogsChunked fuel filter fromBlock toBlock c h
      = Some (Ok logs, h ++ h')%list
    /\ sleeps h' = []
    /\ replay_skipping h h' [] = Some logs
    /\ Forall (fun r => snd r = Z.min (fst r + c - 1) toBlock)
              (fetch_ranges h')
    /\ (fromBlock <= toBlock ->
        tiles fromBlock toBlock c (fetch_ranges h')).
Proof.
  intros Hprov Hc Hfuel. unfold getLogsChunked. rewrite Hprov. simpl.
  destruct (getLogsChunked_loop_spec filter toBlock c Hc fuel fromBlock [] h
              Hfuel) as (logs & h' & Hrun & Hs & Hrep & Hg & Ht & _).
  exists logs, h'. auto.
Qed.

(** Full chunks of ten over a window of 37 blocks. *)
Lemma tiles_37_by_10 from l :
  tiles from (from + 36) 10 l ->
  Forall (fun r => snd r = Z.min (fst r + 10 - 1) (from + 36)) l ->
  l = [(from, from + 9); (from + 10, from + 19);
       (from + 20, from + 29); (from + 30, from + 36)].
Proof.
  intros Ht Hg.
  destruct l as [|[s1 e1] l]; simpl in Ht; [lia|].
  destruct Ht as (-> & _ & _ & _ & Ht).
  inversion Hg as [|? ? G1 Hg1]; subst; simpl in G1.
  replace e1 with (from + 9) in * by lia. clear G1.
  destruct l as [|[s2 e2] l]; simpl in Ht; [lia|].
  destruct Ht as (-> & _ & _ & _ & Ht).
  inversion Hg1 as [|? ? G2 Hg2]; subst; simpl in G2.
  replace e2 with (from + 19) in * by lia. clear G2.
  destruct l as [|[s3 e3] l]; simpl in Ht; [lia|].
  destruct Ht as (-> & _ & _ & _ & Ht).
  inversion Hg2 as [|? ? G3 Hg3]; subst; simpl in G3.
  replace e3 with (from + 29) in * by lia. clear G3.
  destruct l as [|[s4 e4] l]; simpl in Ht; [lia|].
  destruct Ht as (-> & _ & _ & _ & Ht).
  inversion Hg3 as [|? ? G4 Hg4]; subst; simpl in G4.
  replace e4 with (from + 36) in * by lia. clear G4.
  destruct l as [|[s5 e5] l]; simpl in Ht; [|lia].
  repeat (f_equal; try lia).
Qed.

(** [withRetry] with its defaults: a first success is returned at
    once; after a first failure it waits 500 ms once, and the second
    attempt decides, its error rethrown. *)
Lemma withRetry_default_two_attempts {A} (fn : M A) h :
  withRetry_default fn h =
  match fn h with
  | Some (Ok a, h1) => Some (Ok a, h1)
  | Some (Throw _, h1) => fn (h1 ++ [EvSleep 500])%list
  | None => None
  end.
Proof.
  unfold withRetry_default, withRetry. simpl.
  unfold try_catch at 1.
  destruct (fn h) as [[[a|e] h1]|]; try reflexivity.
  unfold bind, emit, try_catch, ret, throw.
  destruct (fn (h1 ++ [EvSleep 500])%list) as [[[a|e2] h2]|]; reflexivity.
Qed.

(** *** The claims on the scanner *)

(** C4, amended.  A chunk fetch is made exactly once: the trace of
    [getLogsChunked] holds no delay, its fetches are the consecutive
    chunks of the window (none repeated), a chunk whose fetch fails
    contributes no logs and is followed by its warning, and the call
    returns the logs of the chunks that answered. *)
Theorem C4_chunk_fetched_once_failure_skipped
    fuel filter fromBlock toBlock c h :
  have_provider = true ->
  0 < c ->
  (Z.to_nat (toBlock - fromBlock + 1) <= fuel)%nat ->
  exists logs h',
    getLogsChunked fuel filter fromBlock toBlock c h
      = Some (Ok logs, h ++ h')%list
    /\ sleeps h' = []
    /\ replay_skipping h h' [] = Some logs
    /\ (fromBlock <= toBlock ->
        tiles fromBlock toBlock c (fetch_ranges h')).
Proof.
  intros Hprov Hc Hfuel.
  destruct (getLogsChunked_spec fuel filter fromBlock toBlock c h
              Hprov Hc Hfuel) as (logs & h' & Hrun & Hs & Hrep & _ & Ht).
  exists logs, h'. auto.
Qed.

(** C5.  When the chain height is below [target - PREFETCH], the scan
    returns [null] ("not yet") after reading the block number, and its
    trace holds no log fetch. *)
Theorem C5_scan_window_guard fuel requestId tb cb h :
  have_provider = true ->
  rpc_getBlockNumber
    (h ++ [EvConsole "log" "requestID from fetch revealed payload="])
    = Ok cb ->
  cb < tb - PREFETCH_BLOCKS_BEFORE ->
  exists h',
    fetchRevealedPayload fuel requestId (Some tb) h
      = Some (Ok None, h ++ h')%list
    /\ fetch_ranges h' = []
    /\ h' = [EvConsole "log" "requestID from fetch revealed payload=";
             EvGetBlockNumber].
Proof.
  intros Hprov Hcb Hlt.
  eexists. split; [|split; [|reflexivity]]; [|reflexivity].
  unfold fetchRevealedPayload. rewrite Hprov. simpl.
  unfold try_catch, bind, console, emit, getBlockNumber, call.
  rewrite Hcb.
  apply Z.ltb_lt in Hlt. rewrite Hlt.
  unfold ret. rewrite <- app_assoc. reflexivity.
Qed.

(** C6.  For a window [fromBlock .. toBlock] and a chunk size [c > 0],
    the log fetches are consecutive ranges of one to [c] blocks that
    cover each block of the window exactly once; 37 blocks by chunks of
    10 are fetched as [0,9], [10,19], [20,29], [30,36] from the window
    start. *)
Theorem C6_chunks_cover_window fuel filter fromBlock toBlock c h :
  have_provider = true ->
  fromBlock <= toBlock ->
  0 < c ->
  (Z.to_nat (toBlock - fromBlock + 1) <= fuel)%nat ->
  exists logs h',
    getLogsChunked fuel filter fromBlock toBlock c h
      = Some (Ok logs, h ++ h')%list
    /\ tiles fromBlock toBlock c (fetch_ranges h')
    /\ covered_once fromBlock toBlock (fetch_ranges h')
    /\ (c = 10 -> toBlock = fromBlock + 36 ->
        fetch_ranges h' =
          [(fromBlock, fromBlock + 9); (fromBlock + 10, fromBlock + 19);
           (fromBlock + 20, fromBlock + 29);
           (fromBlock + 30, fromBlock + 36)]).
Proof.
  intros Hprov Hle Hc Hfuel.
  destruct (getLogsChunked_spec fuel filter fromBlock toBlock c h
              Hprov Hc Hfuel) as (logs & h' & Hrun & _ & _ & Hg & Ht).
  specialize (Ht Hle).
  exists logs, h'. split; [exact Hrun|]. split; [exact Ht|].
  split; [eapply tiles_covered_once; exact Ht|].
  intros -> ->. apply tiles_37_by_10; assumption.
Qed.

(* ----------------------------------------------------------------- *)
(** *** Further properties of the scanner *)

Lemma network_calls_app (h1 h2 : list Event) :
  network_calls (h1 ++ h2) = (network_calls h1 ++ network_calls h2)%list.
Proof. unfold network_calls. apply filter_app. Qed.

(** A trace that replays against the provider holds no request but
    its log fetches. *)
Lemma replay_skipping_requests n :
  forall h h' logs logs',
    (List.length h' <= n)%nat ->
    replay_skipping h h' logs = Some logs' ->
    List.length (network_calls h') = List.length (fetch_ranges h').
Proof.
  induction n as [|n IH]; intros h h' logs logs' Hn Hrep.
  - destruct h'; [reflexivity | simpl in Hn; lia].
  - destruct h' as [|e rest]; [reflexivity|].
    destruct e; simpl in Hrep; try discriminate.
    simpl in Hn.
    destruct (rpc_getLogs h f fromBlock toBlock).
    + simpl. f_equal. eapply IH; [|exact Hrep]. lia.
    + destruct rest as [|e' rest']; [discriminate|].
      destruct e'; try discriminate.
      destruct (String.eqb level "warn"
                && String.eqb message (chunk_warning fromBlock toBlock));
        [|discriminate].
      simpl. f_equal. eapply IH; [|exact Hrep]. simpl in Hn. lia.
Qed.

(** Greedy chunks: their number is the window's length divided by the
    chunk size, rounded up. *)
Lemma tiles_greedy_count c to :
  0 < c ->
  forall l from,
    tiles from to c l ->
    Forall (fun r => snd r = Z.min (fst r + c - 1) to) l ->
    Z.of_nat (List.length l) = (to - from + c) / c.
Proof.
  intros Hc. induction l as [|[s e] l IH]; intros from Ht Hg.
  - simpl in Ht. subst from.
    replace (to - (to + 1) + c) with (c - 1) by lia.
    rewrite Z.div_small by lia. reflexivity.
  - simpl in Ht. destruct Ht as (-> & Hse & Het & Hlen & Ht).
    inversion Hg as [|? ? Hge Hg']; subst. simpl in Hge.
    specialize (IH _ Ht Hg').
    change (List.length ((from, e) :: l)) with (S (List.length l)).
    rewrite Nat2Z.inj_succ, IH.
    replace (to - from + c) with ((to - from) + 1 * c) by lia.
    rewrite Z.div_add by lia.
    destruct (Z_le_gt_dec (from + c - 1) to) as [Hfull|Hlast].
    + replace e with (from + c - 1) by lia.
      replace (to - (from + c - 1 + 1) + c) with (to - from) by lia.
      lia.
    + replace e with to by lia.
      replace (to - (to + 1) + c) with (c - 1) by lia.
      rewrite (Z.div_small (c - 1)) by lia.
      rewrite (Z.div_small (to - from)) by lia. lia.
Qed.

(** The cost of a chunked fetch: one [getLogs] request per chunk, the
    window's length divided by the chunk size and rounded up, none for
    an empty window, and no other request. *)
Theorem getLogsChunked_request_count fuel filter fromBlock toBlock c h :
  have_provider = true ->
  0 < c ->
  (Z.to_nat (toBlock - fromBlock + 1) <= fuel)%nat ->
  exists logs h',
    getLogsChunked fuel filter fromBlock toBlock c h
      = Some (Ok logs, h ++ h')%list
    /\ Z.of_nat (List.length (fetch_ranges h'))
       = (if toBlock <? fromBlock then 0
          else (toBlock - fromBlock + c) / c)
    /\ List.length (network_calls h') = List.length (fetch_ranges h').
Proof.
  intros Hprov Hc Hfuel. unfold getLogsChunked. rewrite Hprov. simpl.
  destruct (getLogsChunked_loop_spec filter toBlock c Hc fuel fromBlock [] h
              Hfuel) as (logs & h' & Hrun & _ & Hrep & Hg & Ht & Hnil).
  exists logs, h'. split; [exact Hrun|]. split.
  - destruct (Z.ltb_spec toBlock fromBlock) as [Hempty|Hle].
    + rewrite (Hnil Hempty). reflexivity.
    + apply tiles_greedy_count; [exact Hc|apply Ht; exact Hle|exact Hg].
  - eapply replay_skipping_requests; [apply Nat.le_refl|exact Hrep].
Qed.

(** The trace of [k + 1] attempts at one call, a wait before each
    attempt but the first. *)
Fixpoint retry_trace (e : Event) (delayMs : Z) (k : nat) : list Event :=
  match k with
  | O => [e]
  | S k' => e :: EvSleep delayMs :: retry_trace e delayMs k'
  end.

Lemma removelast_retry_trace e delayMs k :
  removelast (retry_trace e delayMs (S k))
  = e :: EvSleep delayMs :: removelast (retry_trace e delayMs k).
Proof. destruct k; reflexivity. Qed.

Lemma withRetry_loop_attempts {A} (e : Event)
    (answer : list Event -> Res A) delayMs n :
  forall last h,
  exists k r,
    (k <= n)%nat
    /\ withRetry_loop (call e answer) (S n) delayMs last h
       = Some (r, h ++ retry_trace e delayMs k)%list
    /\ r = answer (h ++ removelast (retry_trace e delayMs k))%list
    /\ (forall j, (j < k)%nat ->
          exists err,
            answer (h ++ removelast (retry_trace e delayMs j))%list
            = Throw err)
    /\ ((exists a, r = Ok a) \/ k = n).
Proof.
  induction n as [|n IH]; intros last h.
  - exists O, (answer h). split; [lia|].
    split.
    { simpl. unfold try_catch, call, bind, ret, throw.
      destruct (answer h); reflexivity. }
    split; [simpl; rewrite app_nil_r; reflexivity|].
    split; [intros j Hj; lia|].
    right. reflexivity.
  - destruct (answer h) as [a|err] eqn:Hans.
    + exists O, (Ok a). split; [lia|].
      split.
      { change (withRetry_loop (call e answer) (S (S n)) delayMs last h)
          with (try_catch (call e answer)
                  (fun e0 => emit (EvSleep delayMs) ;;
                             withRetry_loop (call e answer) (S n) delayMs e0)
                  h).
        unfold try_catch, call. rewrite Hans. reflexivity. }
      split; [simpl; rewrite app_nil_r; symmetry; exact Hans|].
      split; [intros j Hj; lia|].
      left. exists a. reflexivity.
    + destruct (IH err (h ++ [e; EvSleep delayMs])%list)
        as (k & r & Hk & Hrun & Hr & Hfail & Hlast).
      exists (S k), r. split; [lia|].
      split.
      { change (withRetry_loop (call e answer) (S (S n)) delayMs last h)
          with (try_catch (call e answer)
                  (fun e0 => emit (EvSleep delayMs) ;;
                             withRetry_loop (call e answer) (S n) delayMs e0)
                  h).
        unfold try_catch at 1. unfold call at 1. rewrite Hans.
        unfold bind, emit.
        replace ((h ++ [e]) ++ [EvSleep delayMs])%list
          with (h ++ [e; EvSleep delayMs])%list
          by (rewrite <- app_assoc; reflexivity).
        rewrite Hrun. rewrite <- app_assoc. reflexivity. }
      split.
      { rewrite removelast_retry_trace. rewrite Hr.
        rewrite <- app_assoc. reflexivity. }
      split.
      { intros [|j] Hj.
        - exists err. simpl. rewrite app_nil_r. exact Hans.
        - destruct (Hfail j ltac:(lia)) as [err' Herr'].
          exists err'. rewrite removelast_retry_trace.
          rewrite <- app_assoc in Herr'. exact Herr'. }
      destruct Hlast as [Hok | Hlast];
        [left; exact Hok | right; rewrite Hlast; reflexivity].
Qed.

(** [withRetry] around one call, for any number of attempts: the call
    is made at most [attempts] times, with one wait of [delayMs]
    between two attempts and none after the last; every attempt before
    the last one made failed, and the outcome is that of the last one
    made, a success or, after [attempts] failures, the last error.
    With no attempt allowed it throws [undefined] at once. *)
Theorem withRetry_attempts {A} (e : Event) (answer : list Event -> Res A)
    n delayMs h :
  withRetry (call e answer) 0 delayMs h
    = Some (Throw (Rejected "undefined"), h)
  /\ exists k r,
      (k <= n)%nat
      /\ withRetry (call e answer) (S n) delayMs h
         = Some (r, h ++ retry_trace e delayMs k)%list
      /\ r = answer (h ++ removelast (retry_trace e delayMs k))%list
      /\ (forall j, (j < k)%nat ->
            exists err,
              answer (h ++ removelast (retry_trace e delayMs j))%list
              = Throw err)
      /\ ((exists a, r = Ok a) \/ k = n).
Proof.
  split; [reflexivity|].
  unfold withRetry. apply withRetry_loop_attempts.
Qed.

(** A log the scan passes over: it does not decode, or decodes to
    another event, or carries no payload. *)
Definition passed_over (l : Log) : bool :=
  match parseLog l with
  | Parsed name payload =>
      negb (String.eqb name "Revealed" && truthy payload)
  | _ => true
  end.

(** The search window of [fetchRevealedPayload] at a chain height. *)
Definition reveal_window (targetBlock : option Z) (currentBlock : Z)
  : Z * Z :=
  match targetBlock with
  | Some tb => (Z.max 0 (tb - PREFETCH_BLOCKS_BEFORE),
                Z.min currentBlock (tb + REVEAL_SEARCH_FORWARD))
  | None => (Z.max 0 (currentBlock - 500), currentBlock)
  end.

(** What [fetchRevealedPayload] does before its first log fetch. *)
Definition scan_preamble : list Event :=
  [EvConsole "log" "requestID from fetch revealed payload=";
   EvGetBlockNumber;
   EvConsole "log" "fromBlock=";
   EvConsole "log" "toBlock="].


(** The scan over the logs returns, and makes no request. *)
Lemma scan_logs_quiet logs toBlock :
  forall h, exists r h',
    scan_logs logs toBlock h = Some (Ok r, h ++ h')%list
    /\ fetch_ranges h' = [] /\ network_calls h' = [].
Proof.
  induction logs as [|l logs IH]; intros h.
  - exists None, []. rewrite app_nil_r. repeat split; reflexivity.
  - cbn [scan_logs].
    destruct (parseLog l) as [e| |name payload]; try apply IH.
    destruct (String.eqb name "Revealed" && truthy payload); [|apply IH].
    unfold bind.
    match goal with
    | |- context [(if has_window then emit ?it else ret tt) h] =>
        set (item := it)
    end.
    assert (Hstore : exists hw,
               (if has_window then emit item else ret tt) h
               = Some (Ok tt, h ++ hw)%list
               /\ fetch_ranges hw = [] /\ network_calls hw = []).
    { destruct has_window.
      - exists [item]. repeat split; reflexivity.
      - exists []. unfold ret. rewrite app_nil_r.
        repeat split; reflexivity. }
    destruct Hstore as (hw & Hrun & Hf & Hn). rewrite Hrun.
    assert (Hdone : forall s,
               exists (r : option string) h',
                 ret (Some s) (h ++ hw)%list = Some (Ok r, h ++ h')%list
                 /\ fetch_ranges h' = [] /\ network_calls h' = []).
    { intros s. exists (Some s), hw. repeat split; assumption. }
    assert (Hnext : exists r h',
               scan_logs logs toBlock (h ++ hw)%list
               = Some (Ok r, h ++ h')%list
               /\ fetch_ranges h' = [] /\ network_calls h' = []).
    { destruct (IH (h ++ hw)%list) as (r & h' & Hscan & Hf' & Hn').
      exists r, (hw ++ h')%list. rewrite app_assoc.
      split; [exact Hscan|].
      rewrite fetch_ranges_app, network_calls_app, Hf, Hn, Hf', Hn'.
      split; reflexivity. }
    destruct payload; try (destruct (hexlify _); [apply Hdone|apply Hnext]).
    apply Hdone.
Qed.

(** The scan over the fetched logs returns the payload of the first log
    that decodes as [Revealed] with a non-empty payload, whatever
    follows it, and records that log's block number; the logs before
    it, which do not decode or carry another event, are passed over. *)
Theorem scan_logs_first_reveal pre l post s toBlock h :
  forallb passed_over pre = true ->
  parseLog l = Parsed "Revealed" (JStr s) ->
  s <> ""%string ->
  scan_logs (pre ++ l :: post) toBlock h
  = Some (Ok (Some s),
          h ++ (if has_window
                then [EvSetItem
                        ("media_release_last_block_" ++ CONTRACT_ADDRESS)
                        (string_of_Z match log_blockNumber l with
                                     | Some b => b
                                     | None => toBlock
                                     end)]
                else []))%list.
Proof.
  intros Hpre Hl Hs.
  induction pre as [|p pre IH].
  - simpl. rewrite Hl.
    assert (Ts : truthy (JStr s) = true).
    { simpl. apply negb_true_iff. apply String.eqb_neq. exact Hs. }
    rewrite Ts. cbn [String.eqb Ascii.eqb Bool.eqb andb].
    unfold bind, emit, ret. destruct has_window.
    + reflexivity.
    + rewrite app_nil_r. reflexivity.
  - simpl in Hpre. apply andb_true_iff in Hpre. destruct Hpre as [Hp Hpre].
    specialize (IH Hpre). simpl. unfold passed_over in Hp.
    destruct (parseLog p) as [e| |name payload]; try exact IH.
    apply negb_true_iff in Hp. rewrite Hp. exact IH.
Qed.

(** What holds of every log the provider answers with holds of the
    logs a replayed trace collects. *)
Lemma replay_skipping_Forall (P : Log -> Prop) n :
  (forall h f a b logs, rpc_getLogs h f a b = Ok logs -> Forall P logs) ->
  forall h h' logs logs',
    (List.length h' <= n)%nat ->
    Forall P logs ->
    replay_skipping h h' logs = Some logs' ->
    Forall P logs'.
Proof.
  intros Hall.
  induction n as [|n IH]; intros h h' logs logs' Hn Hlogs Hrep.
  - destruct h'; [|simpl in Hn; lia]. simpl in Hrep. congruence.
  - destruct h' as [|e rest]; [simpl in Hrep; congruence|].
    destruct e; simpl in Hrep; try discriminate.
    simpl in Hn.
    destruct (rpc_getLogs h f fromBlock toBlock) as [l|err] eqn:Hans.
    + eapply IH; [| |exact Hrep]; [lia|].
      apply Forall_app. split; [exact Hlogs|]. eapply Hall. exact Hans.
    + destruct rest as [|e' rest']; [discriminate|].
      destruct e'; try discriminate.
      destruct (String.eqb level "warn"
                && String.eqb message (chunk_warning fromBlock toBlock));
        [|discriminate].
      eapply IH; [| |exact Hrep]; [simpl in Hn; lia|exact Hlogs].
Qed.

Lemma fetchRevealedPayload_scan fuel requestId targetBlock cb h :
  have_provider = true ->
  0 < DEFAULT_GETLOGS_CHUNK ->
  rpc_getBlockNumber
    (h ++ [EvConsole "log" "requestID from fetch revealed payload="])
    = Ok cb ->
  match targetBlock with
  | Some tb => cb <? tb - PREFETCH_BLOCKS_BEFORE
  | None => false
  end = false ->
  (Z.to_nat (snd (reveal_window targetBlock cb)
             - fst (reveal_window targetBlock cb) + 1) <= fuel)%nat ->
  exists logs hl r hs,
    fetchRevealedPayload fuel requestId targetBlock h
      = Some (Ok r, h ++ scan_preamble ++ hl ++ hs)%list
    /\ replay_skipping (h ++ scan_preamble) hl [] = Some logs
    /\ scan_logs logs (snd (reveal_window targetBlock cb))
                 (h ++ scan_preamble ++ hl)%list
       = Some (Ok r, h ++ scan_preamble ++ hl ++ hs)%list
    /\ (fst (reveal_window targetBlock cb)
          <= snd (reveal_window targetBlock cb) ->
        tiles (fst (reveal_window targetBlock cb))
              (snd (reveal_window targetBlock cb))
              DEFAULT_GETLOGS_CHUNK (fetch_ranges hl))
    /\ (snd (reveal_window targetBlock cb)
          < fst (reveal_window targetBlock cb) ->
        hl = [] /\ logs = [])
    /\ fetch_ranges hs = [] /\ network_calls hs = [].
Proof.
  intros Hprov Hc Hcb Hguard Hfuel.
  set (w := reveal_window targetBlock cb) in *.
  assert (Hpre :
             fetchRevealedPayload fuel requestId targetBlock h
             = try_catch
                 (if snd w <? fst w then ret None
                  else
                    logs <- getLogsChunked fuel
                              (mkFilter CONTRACT_ADDRESS
                                 [ethers_id "Revealed(uint256,bytes)";
                                  topic_of_uint requestId])
                              (fst w) (snd w) DEFAULT_GETLOGS_CHUNK ;;
                    scan_logs logs (snd w))
                 (fun err => console "error" "fetchRevealedPayload failed:" ;;
                             throw err)
                 (h ++ scan_preamble)%list).
  { unfold fetchRevealedPayload. rewrite Hprov.
    change (negb true) with false. cbv iota.
    unfold try_catch at 1 2. unfold bind at 1. unfold console at 1.
    unfold emit at 1. unfold bind at 1. unfold getBlockNumber, call.
    rewrite Hcb. rewrite Hguard.
    unfold bind at 1. unfold console at 1. unfold emit at 1.
    unfold bind at 1. unfold console at 1. unfold emit at 1.
    replace (h ++ scan_preamble)%list
      with ((((h ++ [EvConsole "log"
                       "requestID from fetch revealed payload="])
                ++ [EvGetBlockNumber])
               ++ [EvConsole "log" "fromBlock="])
              ++ [EvConsole "log" "toBlock="])%list
      by (rewrite <- !app_assoc; reflexivity).
    subst w. destruct targetBlock; reflexivity. }
  rewrite Hpre. clear Hpre.
  unfold try_catch.
  destruct (Z.ltb_spec (snd w) (fst w)) as [Hempty|Hle].
  - exists [], [], None, []. unfold ret.
    rewrite !app_nil_r.
    repeat split; try reflexivity; lia.
  - unfold bind.
    destruct (getLogsChunked_spec fuel
                (mkFilter CONTRACT_ADDRESS
                   [ethers_id "Revealed(uint256,bytes)";
                    topic_of_uint requestId])
                (fst w) (snd w) DEFAULT_GETLOGS_CHUNK
                (h ++ scan_preamble)%list Hprov Hc Hfuel)
      as (logs & hl & Hrun & _ & Hrep & _ & Ht).
    rewrite Hrun.
    destruct (scan_logs_quiet logs (snd w)
                ((h ++ scan_preamble) ++ hl)%list)
      as (r & hs & Hscan & Hf & Hn).
    rewrite Hscan.
    exists logs, hl, r, hs.
    rewrite <- !app_assoc in Hscan. rewrite <- !app_assoc.
    repeat split; try assumption. lia. lia.
Qed.

(** Where a scan for a reveal reads.  Past its guard, the scan reads
    the height once and then fetches logs only inside its window:
    from [target - PREFETCH] to [target + FORWARD] when a target block
    is given, the last 500 blocks otherwise; never below block 0 and
    never above the current height.  Its fetches are consecutive
    chunks that tile that window, and an empty window gives [null]
    without a fetch. *)
Theorem fetchRevealedPayload_reads_its_window
    fuel requestId targetBlock cb h :
  have_provider = true ->
  0 < DEFAULT_GETLOGS_CHUNK ->
  rpc_getBlockNumber
    (h ++ [EvConsole "log" "requestID from fetch revealed payload="])
    = Ok cb ->
  match targetBlock with
  | Some tb => cb <? tb - PREFETCH_BLOCKS_BEFORE
  | None => false
  end = false ->
  (Z.to_nat (snd (reveal_window targetBlock cb)
             - fst (reveal_window targetBlock cb) + 1) <= fuel)%nat ->
  exists r h',
    fetchRevealedPayload fuel requestId targetBlock h
      = Some (Ok r, h ++ h')%list
    /\ (fst (reveal_window targetBlock cb)
          <= snd (reveal_window targetBlock cb) ->
        tiles (fst (reveal_window targetBlock cb))
              (snd (reveal_window targetBlock cb))
              DEFAULT_GETLOGS_CHUNK (fetch_ranges h'))
    /\ (snd (reveal_window targetBlock cb)
          < fst (reveal_window targetBlock cb) ->
        r = None /\ fetch_ranges h' = [])
    /\ Forall (fun range =>
                 0 <= fst range /\ snd range <= cb
                 /\ match targetBlock with
                    | Some tb =>
                        tb - PREFETCH_BLOCKS_BEFORE <= fst range
                        /\ snd range <= tb + REVEAL_SEARCH_FORWARD
                    | None => cb - 500 <= fst range
                    end)
              (fetch_ranges h')
    /\ List.length (network_calls h') = S (List.length (fetch_ranges h')).
Proof.
  intros Hprov Hc Hcb Hguard Hfuel.
  destruct (fetchRevealedPayload_scan fuel requestId targetBlock cb h
              Hprov Hc Hcb Hguard Hfuel)
    as (logs & hl & r & hs & Hrun & Hrep & Hscan & Ht & Hempty & Hf & Hn).
  exists r, (scan_preamble ++ hl ++ hs)%list.
  assert (Hranges : fetch_ranges (scan_preamble ++ hl ++ hs)
                    = fetch_ranges hl).
  { rewrite !fetch_ranges_app, Hf, app_nil_r. reflexivity. }
  rewrite Hranges.
  split; [exact Hrun|]. split; [exact Ht|]. split; [|split].
  - intros Hlt. destruct (Hempty Hlt) as [-> ->]. split; [|reflexivity].
    simpl in Hscan. unfold ret in Hscan. congruence.
  - destruct (Z_lt_le_dec (snd (reveal_window targetBlock cb))
                          (fst (reveal_window targetBlock cb)))
      as [Hlt|Hle].
    + destruct (Hempty Hlt) as [-> _]. constructor.
    + pose proof (tiles_bounds _ _ _ _ (Ht Hle)) as Hb.
      eapply Forall_impl; [|exact Hb].
      intros [a b] [Ha Hb']. simpl in *.
      unfold reveal_window in Ha, Hb'.
      destruct targetBlock as [tb|]; simpl in Ha, Hb'; lia.
  - rewrite !network_calls_app, Hn, app_nil_r.
    rewrite length_app.
    rewrite (replay_skipping_requests _ _ _ _ _ (Nat.le_refl _) Hrep).
    reflexivity.
Qed.

(** Without a target block the window holds at most 501 blocks: the
    scan comes to an end, with a result or an error. *)
Lemma fetchRevealedPayload_returns fuel requestId h :
  0 < DEFAULT_GETLOGS_CHUNK ->
  (501 <= fuel)%nat ->
  exists r h',
    fetchRevealedPayload fuel requestId None h = Some (r, h ++ h')%list.
Proof.
  intros Hc Hfuel.
  destruct have_provider eqn:Hprov.
  - destruct (rpc_getBlockNumber
                (h ++ [EvConsole "log"
                         "requestID from fetch revealed payload="]))
      as [cb|e] eqn:Hcb.
    + destruct (fetchRevealedPayload_scan fuel requestId None cb h
                  Hprov Hc Hcb eq_refl)
        as (logs & hl & r & hs & Hrun & _).
      { simpl. lia. }
      eauto.
    + unfold fetchRevealedPayload. rewrite Hprov.
      change (negb true) with false. cbv iota.
      unfold try_catch, bind, console, emit, getBlockNumber, call, throw.
      rewrite Hcb. rewrite <- !app_assoc. eauto.
  - unfold fetchRevealedPayload. rewrite Hprov. simpl.
    exists (Throw (Error "No provider available to fetch reveal payload")),
           [].
    rewrite app_nil_r. reflexivity.
Qed.

(** [getReleaseById] catches every failure: it returns a record or
    [null]. *)
Lemma getReleaseById_returns fuel requestId h :
  0 < DEFAULT_GETLOGS_CHUNK ->
  (501 <= fuel)%nat ->
  exists r h', getReleaseById fuel requestId h = Some (Ok r, h ++ h')%list.
Proof.
  intros Hc Hfuel. unfold getReleaseById.
  destruct signer_connected; simpl.
  2:{ exists None, []. unfold ret. rewrite app_nil_r. reflexivity. }
  unfold try_catch at 1. unfold bind at 1. unfold call at 1.
  destruct (rpc_metaOf h requestId)
    as [[[[creator fileCidHash] unlockAtBlock] isRevealed]|e].
  2:{ unfold bind, console, emit, ret. rewrite <- app_assoc. eauto. }
  unfold bind at 1. unfold getBlockNumber, call.
  destruct (rpc_getBlockNumber (h ++ [EvMetaOf requestId])) as [cb|e].
  2:{ unfold bind, console, emit, ret. rewrite <- !app_assoc. eauto. }
  unfold bind at 1.
  destruct isRevealed.
  - unfold try_catch.
    destruct (fetchRevealedPayload_returns fuel requestId
                ((h ++ [EvMetaOf requestId]) ++ [EvGetBlockNumber])%list
                Hc Hfuel) as (r & h' & Hrun).
    rewrite Hrun. destruct r as [revealed|e].
    + unfold ret. rewrite <- !app_assoc. eauto.
    + unfold bind, console, emit, ret. rewrite <- !app_assoc. eauto.
  - unfold ret. rewrite <- !app_assoc. eauto.
Qed.

Lemma check_update_length requestId release prev :
  List.length (check_update requestId release prev) = List.length prev.
Proof. unfold check_update. apply length_map. Qed.

Lemma check_update_other requestId release prev i r :
  nth_error prev i = Some r ->
  strict_eq (obj_get "requestId" r) (JBig requestId) = false ->
  nth_error (check_update requestId release prev) i = Some r.
Proof.
  intros Hnth Hneq. unfold check_update.
  rewrite nth_error_map, Hnth. simpl. rewrite Hneq. reflexivity.
Qed.

Lemma check_update_absent requestId release prev :
  Forall (fun r => strict_eq (obj_get "requestId" r) (JBig requestId)
                   = false) prev ->
  check_update requestId release prev = prev.
Proof.
  unfold check_update.
  induction 1 as [|r prev Hr _ IH]; simpl; [reflexivity|].
  rewrite Hr, IH. reflexivity.
Qed.

(** A status check never rejects and keeps the shape of the table:
    whatever the contract and the provider answer, it resolves to a
    boolean; the table keeps its length and order; every record of
    another request is left as it is; and a request that is not listed
    is not added. *)
Theorem checkReleaseStatus_keeps_table_shape fuel requestId prev h :
  0 < DEFAULT_GETLOGS_CHUNK ->
  (501 <= fuel)%nat ->
  exists revealed table h',
    checkReleaseStatus fuel requestId prev h
      = Some (Ok (revealed, table), h ++ h')%list
    /\ List.length table = List.length prev
    /\ (forall i r,
          nth_error prev i = Some r ->
          strict_eq (obj_get "requestId" r) (JBig requestId) = false ->
          nth_error table i = Some r)
    /\ (Forall (fun r => strict_eq (obj_get "requestId" r) (JBig requestId)
                         = false) prev ->
        table = prev).
Proof.
  intros Hc Hfuel. unfold checkReleaseStatus.
  unfold try_catch, bind at 1. unfold console at 1. unfold emit at 1.
  unfold bind at 1.
  destruct (getReleaseById_returns fuel requestId
              (h ++ [EvConsole "log" "requestID from release status="])%list
              Hc Hfuel) as (r & h' & Hrun).
  rewrite Hrun. rewrite <- app_assoc.
  destruct r as [release|]; unfold ret.
  - eexists _, _, _. split; [reflexivity|].
    split; [apply check_update_length|].
    split; [intros i r; apply check_update_other|].
    apply check_update_absent.
  - eexists _, _, _. split; [reflexivity|].
    split; [reflexivity|]. split; [intros i r Hnth _; exact Hnth|].
    reflexivity.
Qed.


(** The block-height update writes [currentBlock] and nothing else: it
    never rejects, the table keeps its length and order, every other
    field of every record is left as it is, and a failed read of the
    height leaves the table untouched. *)
Theorem updateCurrentBlock_sets_height_only cancelled prev h :
  Forall wf_obj prev ->
  exists table h',
    updateCurrentBlock cancelled prev h = Some (Ok table, h ++ h')%list
    /\ List.length table = List.length prev
    /\ (forall i r r' k,
          nth_error prev i = Some r ->
          nth_error table i = Some r' ->
          k <> "currentBlock"%string ->
          obj_lookup k r' = obj_lookup k r)
    /\ (forall cb,
          cancelled = false -> have_provider = true ->
          rpc_getBlockNumber h = Ok cb ->
          Forall (fun r' => obj_get "currentBlock" r' = JNum (Int cb))
                 table)
    /\ ((cancelled = true \/ have_provider = false
         \/ exists e, rpc_getBlockNumber h = Throw e) ->
        table = prev).
Proof.
  intros Hwf. unfold updateCurrentBlock.
  destruct (cancelled || negb have_provider) eqn:Hskip.
  - exists prev, []. unfold ret. rewrite app_nil_r.
    split; [reflexivity|]. split; [reflexivity|].
    split; [intros i r r' k H1 H2 _; congruence|].
    split; [|reflexivity].
    intros cb -> ->. discriminate.
  - apply orb_false_iff in Hskip. destruct Hskip as [Hcan Hprov].
    apply negb_false_iff in Hprov.
    unfold try_catch, bind, getBlockNumber, call.
    destruct (rpc_getBlockNumber h) as [cb|e] eqn:Hcb.
    + exists (set_current_block cb prev), [EvGetBlockNumber].
      unfold ret. split; [reflexivity|].
      split; [unfold set_current_block; apply length_map|].
      split; [|split].
      * intros i r r' k Hr Hr' Hk. unfold set_current_block in Hr'.
        rewrite nth_error_map, Hr in Hr'. simpl in Hr'.
        injection Hr' as <-.
        apply set_current_block_keeps_fields; [|exact Hk].
        rewrite Forall_forall in Hwf. apply Hwf.
        eapply nth_error_In. exact Hr.
      * intros cb' _ _ [= <-]. unfold set_current_block.
        apply Forall_forall. intros r' Hin.
        apply in_map_iff in Hin. destruct Hin as (r & <- & _).
        unfold obj_get. rewrite obj_lookup_set. reflexivity.
      * intros [Hx|[Hx|[e Hx]]]; congruence.
    + exists prev, [EvGetBlockNumber; EvConsole "warn" "Block update failed:"].
      unfold console, emit, ret. rewrite <- app_assoc.
      split; [reflexivity|]. split; [reflexivity|].
      split; [intros i r r' k H1 H2 _; congruence|].
      split; [|reflexivity].
      intros cb' _ _ Habs. discriminate.
Qed.

(** The first attempt of [withRetry] succeeding, and both failing. *)
Lemma withRetry_default_first {A} (fn : M A) h a h1 :
  fn h = Some (Ok a, h1) -> withRetry_default fn h = Some (Ok a, h1).
Proof.
  intros Hfn. unfold withRetry_default, withRetry. simpl.
  unfold try_catch at 1. rewrite Hfn. reflexivity.
Qed.



(** The window of a refresh: the eleven blocks that end at the stored
    target. *)
Lemma tiles_created_window tb l :
  tiles (Z.max 0 (tb - 10)) tb 10 l ->
  Forall (fun r => snd r = Z.min (fst r + 10 - 1) tb) l ->
  0 <= tb ->
  l = if tb <? 10 then [(0, tb)] else [(tb - 10, tb - 1); (tb, tb)].
Proof.
  intros Ht Hg Htb.
  destruct l as [|[s1 e1] l]; simpl in Ht; [lia|].
  destruct Ht as (Hs1 & _ & _ & _ & Ht).
  inversion Hg as [|? ? G1 Hg1]; subst; simpl in G1.
  destruct (Z.ltb_spec tb 10) as [Hsmall|Hbig].
  - replace e1 with tb in * by lia.
    destruct l as [|[s2 e2] l]; simpl in Ht; [|lia].
    repeat (f_equal; try lia).
  - replace e1 with (tb - 1) in * by lia.
    destruct l as [|[s2 e2] l]; simpl in Ht; [lia|].
    destruct Ht as (-> & _ & _ & _ & Ht).
    inversion Hg1 as [|? ? G2 Hg2]; subst; simpl in G2.
    replace e2 with tb in * by lia.
    destruct l as [|[s3 e3] l]; simpl in Ht; [|lia].
    repeat (f_equal; try lia).
Qed.

(** Where a refresh looks for created releases.  With an account
    connected and the height read, [fetchReleases] fetches [Created]
    logs of the blocks [tblock - 10 .. tblock] only, [tblock] being
    the target stored by the last creation in this browser (0 when
    none is stored): one request for a target below 10, two requests
    otherwise.  When these answer with no log, the table is re-sorted
    and nothing is added, [error] is [null] and [isLoading] is
    [false]. *)
Theorem fetchReleases_scans_stored_target fuel st address cb tb h :
  signer_connected = true ->
  have_provider = true ->
  has_window = true ->
  account = Some address ->
  address <> ""%string ->
  rpc_getBlockNumber h = Ok cb ->
  stored_target = Int tb ->
  0 <= tb ->
  (11 <= fuel)%nat ->
  (forall h' f a b logs, rpc_getLogs h' f a b = Ok logs -> logs = []) ->
  (forall h', Promise_all [] h' = Some (Ok [], h')) ->
  exists hl,
    fetchReleases fuel st h
    = Some (Ok (mkHook (merge_fetched (releases st) []) false None),
            h ++ EvGetBlockNumber :: hl)%list
    /\ fetch_ranges hl
       = (if tb <? 10 then [(0, tb)] else [(tb - 10, tb - 1); (tb, tb)])
    /\ List.length (network_calls hl) = List.length (fetch_ranges hl).
Proof.
  intros Hconn Hprov Hwin Hacc Haddr Hcb Htarget Htb Hfuel Hquiet Hall.
  destruct (getLogsChunked_spec fuel
              (mkFilter CONTRACT_ADDRESS
                 [ethers_id "Created(uint256,address,bytes32,uint40)";
                  zeroPadValue address])
              (Z.max 0 (tb - 10)) tb 10 (h ++ [EvGetBlockNumber])%list
              Hprov ltac:(lia) ltac:(lia))
    as (logs & hl & Hrun & _ & Hrep & Hg & Ht).
  assert (Hlogs : logs = []).
  { assert (Hnone : Forall (fun _ : Log => False) logs).
    { eapply (replay_skipping_Forall (fun _ => False));
        [|apply Nat.le_refl|constructor|exact Hrep].
      intros h' f a b l Hl. rewrite (Hquiet _ _ _ _ _ Hl). constructor. }
    destruct logs as [|l logs]; [reflexivity|].
    inversion Hnone as [|? ? Hl _]. destruct Hl. }
  subst logs.
  exists hl. split; [|split].
  - unfold fetchReleases. rewrite Hconn, Hprov.
    change (negb true || negb true) with false.
    cbv iota. unfold bind at 1. unfold try_catch at 1. unfold bind at 1.
    rewrite (withRetry_default_first getBlockNumber h cb
               (h ++ [EvGetBlockNumber])%list)
      by (unfold getBlockNumber, call; rewrite Hcb; reflexivity).
    rewrite Hacc. apply String.eqb_neq in Haddr. rewrite Haddr.
    rewrite Hwin. change (negb true) with false. cbv iota.
    rewrite Htarget. unfold try_catch at 1. unfold bind at 1.
    rewrite Hrun. unfold bind at 1. simpl map. rewrite Hall.
    unfold ret. cbn [releases isLoading error filter_Boolean flat_map].
    rewrite <- app_assoc. reflexivity.
  - apply tiles_created_window; [apply Ht; lia|exact Hg|exact Htb].
  - eapply replay_skipping_requests; [apply Nat.le_refl|exact Hrep].
Qed.


End Scanner.

(** *** Concrete providers *)

Definition demo_filter : Filter := mkFilter "0xcontract" ["0xtopic"%string].

(** A provider that answers every fetch with no logs. *)
Definition quiet_getLogs (h : list Event) (f : Filter) (a b : Z)
  : Res (list Z) := Ok [].

(** A provider whose first answer for a range is a failure and whose
    later answers for it carry one log. *)
Fixpoint asked_before (h : list Event) (a b : Z) : bool :=
  match h with
  | [] => false
  | EvGetLogs _ a' b' :: h' =>
      ((a' =? a) && (b' =? b)) || asked_before h' a b
  | _ :: h' => asked_before h' a b
  end.

Definition flaky_getLogs (h : list Event) (f : Filter) (a b : Z)
  : Res (list Z) :=
  if asked_before h a b then Ok [a] else Throw (Rejected "rate limited").

Lemma C4_witness :
  exists logs h',
    getLogsChunked Z true flaky_getLogs 40 demo_filter 100 136 10 []
      = Some (Ok logs, [] ++ h')%list
    /\ sleeps h' = []
    /\ replay_skipping Z flaky_getLogs [] h' [] = Some logs
    /\ (100 <= 136 -> tiles 100 136 10 (fetch_ranges h')).
Proof.
  apply (C4_chunk_fetched_once_failure_skipped Z true flaky_getLogs
           40 demo_filter 100 136 10 []);
    [reflexivity | lia | vm_compute; lia].
Defined.

(** C4, as stated, fails: the first fetch of chunk [0,9] is rejected, a
    second attempt would have been answered, and the scan neither
    waits nor asks again; the chunk's log is lost. *)
Lemma C4_counterexample :
  getLogsChunked Z true flaky_getLogs 10 demo_filter 0 9 10 []
    = Some (Ok [],
            [EvGetLogs demo_filter 0 9;
             EvConsole "warn" "Failed to get logs for blocks 0-9:"])
  /\ flaky_getLogs [EvGetLogs demo_filter 0 9] demo_filter 0 9 = Ok [0].
Proof.
  split; vm_compute; reflexivity.
Qed.

Lemma C5_witness :
  exists h',
    fetchRevealedPayload Z (fun _ => None) (fun _ => ParseNull)
      (fun _ => Throw (Error "hexlify")) (fun s => s) string_of_Z
      true (fun _ => Ok 100) quiet_getLogs 10 12 200 "0xcontract" true
      1000 7 (Some 150) []
      = Some (Ok None, [] ++ h')%list
    /\ fetch_ranges h' = []
    /\ h' = [EvConsole "log" "requestID from fetch revealed payload=";
             EvGetBlockNumber].
Proof.
  apply (C5_scan_window_guard Z (fun _ => None) (fun _ => ParseNull)
           (fun _ => Throw (Error "hexlify")) (fun s => s) string_of_Z
           true (fun _ => Ok 100) quiet_getLogs 10 12 200 "0xcontract" true
           1000 7 150 100 []);
    [reflexivity | reflexivity | lia].
Defined.

Lemma C6_witness :
  exists logs h',
    getLogsChunked Z true quiet_getLogs 37 demo_filter 1000 1036 10 []
      = Some (Ok logs, h')
    /\ fetch_ranges h' =
         [(1000, 1009); (1010, 1019); (1020, 1029); (1030, 1036)].
Proof.
  destruct (C6_chunks_cover_window Z true quiet_getLogs
              37 demo_filter 1000 1036 10 [] eq_refl
              ltac:(lia) ltac:(lia) ltac:(vm_compute; lia))
    as (logs & h' & Hrun & _ & _ & Hexample).
  exists logs, h'. split; [exact Hrun|].
  apply Hexample; reflexivity.
Defined.

Lemma getLogsChunked_request_count_witness :
  exists logs h',
    getLogsChunked Z true flaky_getLogs 40 demo_filter 100 136 10 []
      = Some (Ok logs, [] ++ h')%list
    /\ Z.of_nat (List.length (fetch_ranges h'))
       = (if 136 <? 100 then 0 else (136 - 100 + 10) / 10)
    /\ List.length (network_calls h') = List.length (fetch_ranges h').
Proof.
  apply (getLogsChunked_request_count Z true flaky_getLogs
           40 demo_filter 100 136 10 []);
    [reflexivity | lia | vm_compute; lia].
Defined.

(** A chain for the examples.  A log is the number of its block; the
    logs of block 0 do not decode, every other log decodes as the
    reveal of the payload [0x7b7d]. *)
Definition demo_parseLog (l : Z) : ParseResult :=
  if l =? 0 then ParseNull else Parsed "Revealed" (JStr "0x7b7d").

Definition demo_parseCreated (l : Z) : CreatedResult :=
  CreatedArgs 7 "0xhash" 150.

(** A provider that answers a fetch with one log when block 151 lies
    in its range. *)
Definition reveal_at_151 (h : list Event) (f : Filter) (a b : Z)
  : Res (list Z) :=
  if (a <=? 151) && (151 <=? b) then Ok [151] else Ok [].

Definition demo_scan (getLogs : list Event -> Filter -> Z -> Z -> Res (list Z))
    (height : Z) (targetBlock : option Z) : M (option string) :=
  fetchRevealedPayload Z Some demo_parseLog (fun _ => Throw (Error "hexlify"))
    (fun s => s) string_of_Z true (fun _ => Ok height) getLogs
    10 12 200 "0xcontract" true 1000 7 targetBlock.

Definition demo_check (revealed : bool)
    (getLogs : list Event -> Filter -> Z -> Z -> Res (list Z))
    (height : Z) (prev : list obj) : M (bool * list obj) :=
  checkReleaseStatus Z Some demo_parseLog (fun _ => Throw (Error "hexlify"))
    (fun s => s) string_of_Z true (fun _ => Ok height) getLogs true
    (fun _ _ => Ok ("0xcreator"%string, "0xhash"%string, 150, revealed))
    10 12 200 "0xcontract" true 1000 7 prev.

(** One way the host may run the callbacks: each to its end before the
    next one starts. *)
Fixpoint in_turn {A} (tasks : list (M A)) : M (list A) :=
  match tasks with
  | [] => ret []
  | task :: rest => a <- task ;; others <- in_turn rest ;; ret (a :: others)
  end.

Definition demo_refresh
    (getBlockNumber : list Event -> Res Z)
    (storage : string -> option string) (st : HookState) : M HookState :=
  fetchReleases Z Some demo_parseLog (fun _ => Throw (Error "hexlify"))
    (fun s => s) string_of_Z true getBlockNumber quiet_getLogs true
    (fun _ _ => Ok ("0xcreator"%string, "0xhash"%string, 150, false))
    10 12 200 "0xcontract" true demo_parseCreated (fun s => s)
    (Some "0xcreator"%string) storage
    (fun s => match NilZero.int_of_string s with
              | Some d => Int (Z.of_int d)
              | None => NaN
              end)
    in_turn 20 st.

Lemma scan_logs_first_reveal_witness :
  scan_logs Z Some demo_parseLog (fun _ => Throw (Error "hexlify"))
            "0xcontract" true ([0; 0] ++ 151 :: [152]) 160 []
  = Some (Ok (Some "0x7b7d"%string),
          [] ++ (if true
                 then [EvSetItem
                         ("media_release_last_block_" ++ "0xcontract")
                         (string_of_Z match Some 151 with
                                      | Some b => b
                                      | None => 160
                                      end)]
                 else []))%list.
Proof.
  apply (scan_logs_first_reveal Z Some demo_parseLog
           (fun _ => Throw (Error "hexlify")) "0xcontract" true
           [0; 0] 151 [152] "0x7b7d" 160 []);
    [reflexivity | reflexivity | discriminate].
Defined.

Lemma fetchRevealedPayload_window_witness :
  exists r h',
    demo_scan reveal_at_151 160 (Some 150) [] = Some (Ok r, [] ++ h')%list
    /\ tiles 138 160 10 (fetch_ranges h')
    /\ List.length (network_calls h') = S (List.length (fetch_ranges h')).
Proof.
  destruct (fetchRevealedPayload_reads_its_window Z Some demo_parseLog
              (fun _ => Throw (Error "hexlify")) (fun s => s) string_of_Z
              true (fun _ => Ok 160) reveal_at_151 10 12 200 "0xcontract"
              true 1000 7 (Some 150) 160 []
              eq_refl ltac:(lia) eq_refl eq_refl ltac:(vm_compute; lia))
    as (r & h' & Hrun & Ht & _ & _ & Hn).
  exists r, h'. split; [exact Hrun|]. split; [|exact Hn].
  apply Ht. vm_compute. discriminate.
Defined.

Lemma checkReleaseStatus_table_shape_witness :
  exists revealed table h',
    demo_check true reveal_at_151 160 [local_7] []
      = Some (Ok (revealed, table), [] ++ h')%list
    /\ List.length table = List.length [local_7].
Proof.
  destruct (checkReleaseStatus_keeps_table_shape Z Some demo_parseLog
              (fun _ => Throw (Error "hexlify")) (fun s => s) string_of_Z
              true (fun _ => Ok 160) reveal_at_151 true
              (fun _ _ => Ok ("0xcreator"%string, "0xhash"%string, 150, true))
              10 12 200 "0xcontract" true 1000 7 [local_7] []
              ltac:(lia) ltac:(lia))
    as (revealed & table & h' & Hrun & Hlen & _).
  exists revealed, table, h'. split; [exact Hrun|exact Hlen].
Defined.


Lemma updateCurrentBlock_witness :
  exists table h',
    updateCurrentBlock true (fun _ => Ok 160) false [revealed_7; local_7] []
      = Some (Ok table, [] ++ h')%list
    /\ List.length table = List.length [revealed_7; local_7]
    /\ Forall (fun r' => obj_get "currentBlock" r' = JNum (Int 160)) table.
Proof.
  destruct (updateCurrentBlock_sets_height_only true (fun _ => Ok 160)
              false [revealed_7; local_7] [])
    as (table & h' & Hrun & Hlen & _ & Hheight & _).
  - repeat constructor.
  - exists table, h'. split; [exact Hrun|]. split; [exact Hlen|].
    apply (Hheight 160); reflexivity.
Defined.


(** With no target stored in this browser, a refresh reads the logs of
    block 0. *)
Lemma fetchReleases_stored_target_witness :
  exists hl,
    demo_refresh (fun _ => Ok 160) (fun _ => None)
                 (mkHook [local_7] false None) []
    = Some (Ok (mkHook (merge_fetched [local_7] []) false None),
            [] ++ EvGetBlockNumber :: hl)%list
    /\ fetch_ranges hl = [(0, 0)].
Proof.
  destruct (fetchReleases_scans_stored_target Z Some demo_parseLog
              (fun _ => Throw (Error "hexlify")) (fun s => s) string_of_Z
              true (fun _ => Ok 160) quiet_getLogs true
              (fun _ _ => Ok ("0xcreator"%string, "0xhash"%string, 150,
                              false))
              10 12 200 "0xcontract" true demo_parseCreated (fun s => s)
              (Some "0xcreator"%string) (fun _ => None)
              (fun s => match NilZero.int_of_string s with
                        | Some d => Int (Z.of_int d)
                        | None => NaN
                        end)
              in_turn 20 (mkHook [local_7] false None) "0xcreator" 160 0 []
              eq_refl eq_refl eq_refl eq_refl ltac:(discriminate) eq_refl
              eq_refl ltac:(lia) ltac:(lia))
    as (hl & Hrun & Hranges & _).
  - intros h' f a b logs [= <-]. reflexivity.
  - intros h'. reflexivity.
  - exists hl. split; [exact Hrun|exact Hranges].
Defined.


(* ----------------------------------------------------------------- *)
(** *** Decoding a revealed payload *)

Record MediaMetadata : Type := mkMetadata {
  filename : jsval;
  size : jsval;
  type_ : jsval;
  fileCid : jsval;
  decryptionKey : jsval;
  timestamp : string
}.

Section Reveal.

(** Library functions: bytes (as a hex string) to text, the JSON
    parser ([None] is a [SyntaxError]), the keccak hash of the UTF-8
    bytes of a string as a hex string, lower-casing, the clock. *)
Variable toUtf8String : string -> Res string.
Variable JSON_parse : string -> option jsval.
Variable keccak256_utf8 : string -> string.
Variable toLowerCase : string -> string.
Variable now_iso : string.

(** [ethers.keccak256(ethers.toUtf8Bytes(c))]: only a string has UTF-8
    bytes. *)
Definition locator_hash (c : jsval) : M string :=
  match c with
  | JStr s => ret (keccak256_utf8 s)
  | _ => throw (TypeError "invalid string value")
  end.

(** [v.toLowerCase()] *)
Definition lower (v : jsval) : M string :=
  match v with
  | JStr s => ret (toLowerCase s)
  | _ => throw (TypeError "toLowerCase is not a function")
  end.

Definition decryptMetadata (revealedData : string) (release : option obj)
  : M (option MediaMetadata) :=
  try_catch
    (json <- lift (toUtf8String revealedData) ;;
     let payload := match JSON_parse json with
                    | Some v => v
                    | None => JNull
                    end in
     if truthy payload && truthy (get_prop "k" payload)
        && truthy (get_prop "c" payload)
     then
       (if match release with
           | Some r => truthy (obj_get "fileCidHash" r)
           | None => false
           end
        then
          hash <- locator_hash (get_prop "c" payload) ;;
          stored_hash <- lower (match release with
                                | Some r => obj_get "fileCidHash" r
                                | None => JUndefined
                                end) ;;
          if negb (String.eqb (toLowerCase hash) stored_hash)
          then throw (Error "Encrypted CID hash mismatch")
          else ret tt
        else ret tt) ;;
       ret (Some (mkMetadata
                    (js_or (get_prop "n" payload) (JStr "encrypted-file"))
                    (js_or (get_prop "s" payload) (JNum (Int 0)))
                    (js_or (get_prop "t" payload)
                           (JStr "application/octet-stream"))
                    (get_prop "c" payload)
                    (get_prop "k" payload)
                    now_iso))
     else
       ret (Some (mkMetadata (JStr "encrypted-file") (JNum (Int 0))
                             (JStr "application/octet-stream")
                             (JStr "") (JStr json) now_iso)))
    (fun err => console "error" "Failed to parse revealed payload:" ;;
                ret None).

(** *** The claim on the hash check *)

(** C2, amended.  When [decryptMetadata] is given a release with a
    non-empty [fileCidHash] and a payload that parses as JSON with a
    non-empty key [k] and a non-empty locator string [c] whose hash
    differs (hex case aside) from that [fileCidHash], it returns
    [null]: no metadata.  All it does besides is log the error; it
    makes no request and has no access to the release table. *)
Theorem C2_hash_mismatch_rejected revealedData json payload c release fh h :
  toUtf8String revealedData = Ok json ->
  JSON_parse json = Some payload ->
  truthy (get_prop "k" payload) = true ->
  get_prop "c" payload = JStr c ->
  c <> ""%string ->
  obj_get "fileCidHash" release = JStr fh ->
  fh <> ""%string ->
  toLowerCase (keccak256_utf8 c) <> toLowerCase fh ->
  decryptMetadata revealedData (Some release) h
  = Some (Ok None,
          h ++ [EvConsole "error" "Failed to parse revealed payload:"]).
Proof.
  intros Hutf Hparse Hk Hc Hcne Hfh Hfhne Hdiff.
  assert (Hpayload : truthy payload = true).
  { destruct payload; try discriminate Hk; reflexivity. }
  unfold decryptMetadata, try_catch, bind, lift.
  rewrite Hutf, Hparse, Hpayload, Hk, Hc, Hfh.
  assert (Tc : truthy (JStr c) = true).
  { simpl. apply negb_true_iff. apply String.eqb_neq. exact Hcne. }
  assert (Tf : truthy (JStr fh) = true).
  { simpl. apply negb_true_iff. apply String.eqb_neq. exact Hfhne. }
  rewrite Tc, Tf. cbn [andb locator_hash lower ret].
  apply String.eqb_neq in Hdiff. rewrite Hdiff.
  reflexivity.
Qed.

(** *** Further properties of the decoding *)

(** The metadata of the fallback: the whole text as key, no locator. *)
Definition key_only_metadata (json : string) : MediaMetadata :=
  mkMetadata (JStr "encrypted-file") (JNum (Int 0))
             (JStr "application/octet-stream") (JStr "") (JStr json)
             now_iso.

(** [decryptMetadata] never rejects and makes no request: it returns
    metadata and leaves no trace, or logs one error and returns
    [null]. *)
Theorem decryptMetadata_never_rejects revealedData release h :
  exists r h',
    decryptMetadata revealedData release h = Some (Ok r, h ++ h')%list
    /\ network_calls h' = []
    /\ (r = None <->
        h' = [EvConsole "error" "Failed to parse revealed payload:"])
    /\ (r <> None -> h' = []).
Proof.
  assert (Hnull : exists (r : option MediaMetadata) h',
             Some (@Ok (option MediaMetadata) None,
                   h ++ [EvConsole "error"
                           "Failed to parse revealed payload:"])%list
             = Some (Ok r, h ++ h')%list
             /\ network_calls h' = []
             /\ (r = None <->
                 h' = [EvConsole "error"
                         "Failed to parse revealed payload:"])
             /\ (r <> None -> h' = [])).
  { exists None, [EvConsole "error" "Failed to parse revealed payload:"].
    repeat split; congruence. }
  assert (Hsome : forall md, exists (r : option MediaMetadata) h',
             Some (Ok (Some md), h) = Some (Ok r, h ++ h')%list
             /\ network_calls h' = []
             /\ (r = None <->
                 h' = [EvConsole "error"
                         "Failed to parse revealed payload:"])
             /\ (r <> None -> h' = [])).
  { intros md. exists (Some md), []. rewrite app_nil_r.
    repeat split; congruence. }
  unfold decryptMetadata, try_catch, bind, lift, console, emit, ret, throw.
  destruct (toUtf8String revealedData) as [json|e]; [|exact Hnull].
  destruct (truthy match JSON_parse json with
                   | Some v => v
                   | None => JNull
                   end
            && truthy (get_prop "k" match JSON_parse json with
                                    | Some v => v
                                    | None => JNull
                                    end)
            && truthy (get_prop "c" match JSON_parse json with
                                    | Some v => v
                                    | None => JNull
                                    end)); [|apply Hsome].
  destruct (match release with
            | Some r => truthy (obj_get "fileCidHash" r)
            | None => false
            end); [|apply Hsome].
  unfold locator_hash, lower, ret, throw.
  destruct (get_prop "c" match JSON_parse json with
                         | Some v => v
                         | None => JNull
                         end); try exact Hnull.
  destruct (match release with
            | Some r => obj_get "fileCidHash" r
            | None => JUndefined
            end); try exact Hnull.
  destruct (negb (String.eqb (toLowerCase (keccak256_utf8 s))
                             (toLowerCase s0)));
    [exact Hnull|apply Hsome].
Qed.

Lemma decryptMetadata_fallback revealedData json release h :
  toUtf8String revealedData = Ok json ->
  truthy match JSON_parse json with
         | Some v => v
         | None => JNull
         end
  && truthy (get_prop "k" match JSON_parse json with
                          | Some v => v
                          | None => JNull
                          end)
  && truthy (get_prop "c" match JSON_parse json with
                          | Some v => v
                          | None => JNull
                          end) = false ->
  decryptMetadata revealedData release h
  = Some (Ok (Some (key_only_metadata json)), h).
Proof.
  intros Hutf Hshape. unfold decryptMetadata, try_catch, bind, lift.
  rewrite Hutf, Hshape. reflexivity.
Qed.

(** The fallback is not checked.  Revealed bytes whose text is not
    JSON, or is JSON without a non-empty [k] and [c], are accepted as
    a bare key: the whole text becomes the decryption key, the locator
    is empty, and the release that is passed, with whatever
    [fileCidHash], plays no part. *)
Theorem decryptMetadata_fallback_is_unchecked revealedData json release h :
  toUtf8String revealedData = Ok json ->
  truthy match JSON_parse json with
         | Some v => v
         | None => JNull
         end
  && truthy (get_prop "k" match JSON_parse json with
                          | Some v => v
                          | None => JNull
                          end)
  && truthy (get_prop "c" match JSON_parse json with
                          | Some v => v
                          | None => JNull
                          end) = false ->
  decryptMetadata revealedData release h
  = Some (Ok (Some (key_only_metadata json)), h)
  /\ decryptMetadata revealedData release h
     = decryptMetadata revealedData None h.
Proof.
  intros Hutf Hshape.
  rewrite !(decryptMetadata_fallback revealedData json _ h Hutf Hshape).
  split; reflexivity.
Qed.

End Reveal.

(** A stand-in hash for examples, and ASCII lower-casing. *)
Definition demo_keccak (s : string) : string := ("0xhash-of-" ++ s)%string.

Definition lower_ascii (c : ascii) : ascii :=
  let n := nat_of_ascii c in
  if Nat.leb 65 n && Nat.leb n 90 then ascii_of_nat (n + 32) else c.

Fixpoint lower_string (s : string) : string :=
  match s with
  | EmptyString => EmptyString
  | String c s' => String (lower_ascii c) (lower_string s')
  end.

Definition text_of_obj (o : obj) : string :=
  match Json.JSON_stringify o with
  | Ok s => s
  | Throw _ => ""
  end.

(** A payload with locator [bafy-forged], with and without a key, and
    a release whose hash commits to another locator. *)
Definition forged_payload : string :=
  text_of_obj [("k"%string, JStr "00ff"); ("c"%string, JStr "bafy-forged")].
Definition keyless_payload : string :=
  text_of_obj [("c"%string, JStr "bafy-forged")].
Definition committed_7 : obj :=
  release_by_id 7 "0xcreator" (demo_keccak "bafy-real") 150 true
                (Some forged_payload) 160.

Definition demo_decrypt (revealedData : string) (release : option obj)
  : M (option MediaMetadata) :=
  decryptMetadata (fun s => Ok s) Json.JSON_parse demo_keccak lower_string
                  "2025-01-01T00:00:00.000Z" revealedData release.

Lemma C2_witness :
  demo_decrypt forged_payload (Some committed_7) []
  = Some (Ok None,
          [] ++ [EvConsole "error" "Failed to parse revealed payload:"]).
Proof.
  unfold demo_decrypt.
  apply (C2_hash_mismatch_rejected (fun s => Ok s) Json.JSON_parse
           demo_keccak lower_string "2025-01-01T00:00:00.000Z"
           forged_payload forged_payload
           (JObject [("k"%string, JStr "00ff");
                     ("c"%string, JStr "bafy-forged")])
           "bafy-forged" committed_7 (demo_keccak "bafy-real") []);
    solve [reflexivity | discriminate].
Defined.

Lemma decryptMetadata_fallback_witness :
  demo_decrypt keyless_payload (Some committed_7) []
  = Some (Ok (Some (key_only_metadata "2025-01-01T00:00:00.000Z"
                                      keyless_payload)), [])
  /\ demo_decrypt keyless_payload (Some committed_7) []
     = demo_decrypt keyless_payload None [].
Proof.
  unfold demo_decrypt.
  apply (decryptMetadata_fallback_is_unchecked (fun s => Ok s)
           Json.JSON_parse demo_keccak lower_string
           "2025-01-01T00:00:00.000Z" keyless_payload keyless_payload
           (Some committed_7) []);
    [reflexivity | vm_compute; reflexivity].
Defined.

(* ----------------------------------------------------------------- *)
(** *** Decoding a ciphertext frame *)

Section Media.

(** The gateway, the Web Crypto key import and AES-GCM decryption
    (one oracle from key text, nonce and body to the plaintext), and
    the browser's blob URLs. *)
Variable http_fetch : list Event -> string -> Res (bool * string * list byte).
Variable aes_gcm_decrypt : jsval -> list byte -> list byte -> Res (list byte).
Variable createObjectURL : list Event -> list byte -> string -> string.

Definition CiphertextMalformed : exn := Error "Ciphertext too short".
Definition UnsupportedVersion : exn := Error "Unsupported ciphertext version".

(** [ciphertext.slice(start, end)] and [ciphertext.slice(start)] *)
Definition slice (start end_ : nat) (bytes : list byte) : list byte :=
  firstn (end_ - start) (skipn start bytes).
Definition slice_from (start : nat) (bytes : list byte) : list byte :=
  skipn start bytes.

(** The frame check and decryption, layout [0x01][12-byte IV][cipher];
    the hook has these lines once in [createMediaPreviewUrl] and once
    in [downloadDecryptedFile]. *)
Definition decode_frame (ciphertext : list byte) (decryptionKey : jsval)
  : Res (list byte) :=
  if (List.length ciphertext <? 1 + 12 + 16)%nat
  then Throw CiphertextMalformed
  else
    match ciphertext with
    | version :: _ =>
        if negb (Byte.eqb version x01) then Throw UnsupportedVersion
        else
          let iv := slice 1 13 ciphertext in
          let ct := slice_from 13 ciphertext in
          aes_gcm_decrypt decryptionKey iv ct
    | [] => Throw UnsupportedVersion
    end.

Definition gateway_url (fileCid : jsval) : string :=
  ("https://gateway.lighthouse.storage/ipfs/" ++ js_string fileCid)%string.

(** The fetch of the ciphertext, common to both functions. *)
Definition fetch_ciphertext (metadata : MediaMetadata) : M (list byte) :=
  if negb (truthy (fileCid metadata))
  then throw (Error "Missing encrypted CID")
  else
    response <- call (EvFetch (gateway_url (fileCid metadata)))
                     (fun h => http_fetch h
                                 (gateway_url (fileCid metadata))) ;;
    let '(ok, statusText, body) := response in
    if negb ok
    then throw (Error ("Failed to fetch file: " ++ statusText)%string)
    else ret body.

Definition blob_type (metadata : MediaMetadata) : string :=
  js_string (js_or (type_ metadata) (JStr "application/octet-stream")).

Definition new_object_url (bytes : list byte) (mime : string) : M string :=
  fun h => Some (Ok (createObjectURL h bytes mime),
                 h ++ [EvCreateObjectURL mime]).

Definition createMediaPreviewUrl (metadata : MediaMetadata)
  : M (option string) :=
  try_catch
    (ciphertext <- fetch_ciphertext metadata ;;
     plaintextBuf <- lift (decode_frame ciphertext
                                        (decryptionKey metadata)) ;;
     url <- new_object_url plaintextBuf (blob_type metadata) ;;
     ret (Some url))
    (fun err => console "error" "Failed to create media preview URL:" ;;
                ret None).

Definition downloadDecryptedFile (metadata : MediaMetadata) : M unit :=
  try_catch
    (ciphertext <- fetch_ciphertext metadata ;;
     plaintextBuf <- lift (decode_frame ciphertext
                                        (decryptionKey metadata)) ;;
     url <- new_object_url plaintextBuf (blob_type metadata) ;;
     emit (EvDownload url (js_string (js_or (filename metadata)
                                            (JStr "file")))) ;;
     emit (EvRevokeObjectURL url))
    (fun err => console "error" "Failed to download/decrypt file:" ;;
                throw err).

(** [createMediaPreviewUrl] catches every failure: it always returns. *)
Lemma createMediaPreviewUrl_returns metadata h :
  exists url h', createMediaPreviewUrl metadata h = Some (Ok url, h').
Proof.
  unfold createMediaPreviewUrl, fetch_ciphertext.
  unfold try_catch, bind, call, lift, console, emit, throw, ret,
    new_object_url.
  destruct (negb (truthy (fileCid metadata))); [eauto|].
  destruct (http_fetch h (gateway_url (fileCid metadata)))
    as [[[ok statusText] body]|e]; [|eauto].
  destruct (negb ok); [eauto|].
  destruct (decode_frame body (decryptionKey metadata)); eauto.
Qed.

(** *** The claim on frames *)

(** C8.  A frame shorter than 1 + 12 + 16 bytes fails to decode with
    the error "Ciphertext too short"; a frame of at least that length
    whose first byte is not 1 fails with "Unsupported ciphertext
    version".  [downloadDecryptedFile] throws that very error after
    logging it, [createMediaPreviewUrl] logs it and returns [null]. *)
Theorem C8_malformed_frames_rejected frame metadata h :
  truthy (fileCid metadata) = true ->
  (exists statusText,
      http_fetch h (gateway_url (fileCid metadata))
        = Ok (true, statusText, frame)) ->
  ((List.length frame < 1 + 12 + 16)%nat ->
     decode_frame frame (decryptionKey metadata) = Throw CiphertextMalformed
     /\ downloadDecryptedFile metadata h
        = Some (Throw CiphertextMalformed,
                h ++ [EvFetch (gateway_url (fileCid metadata));
                      EvConsole "error" "Failed to download/decrypt file:"])
     /\ createMediaPreviewUrl metadata h
        = Some (Ok None,
                h ++ [EvFetch (gateway_url (fileCid metadata));
                      EvConsole "error"
                                "Failed to create media preview URL:"]))
  /\ ((1 + 12 + 16 <= List.length frame)%nat ->
      hd x00 frame <> x01 ->
      decode_frame frame (decryptionKey metadata) = Throw UnsupportedVersion
      /\ downloadDecryptedFile metadata h
         = Some (Throw UnsupportedVersion,
                 h ++ [EvFetch (gateway_url (fileCid metadata));
                       EvConsole "error" "Failed to download/decrypt file:"])
      /\ createMediaPreviewUrl metadata h
         = Some (Ok None,
                 h ++ [EvFetch (gateway_url (fileCid metadata));
                       EvConsole "error"
                                 "Failed to create media preview URL:"])).
Proof.
  intros Hcid [statusText Hfetch].
  assert (Hrun : forall e,
             decode_frame frame (decryptionKey metadata) = Throw e ->
             downloadDecryptedFile metadata h
             = Some (Throw e,
                     h ++ [EvFetch (gateway_url (fileCid metadata));
                           EvConsole "error"
                                     "Failed to download/decrypt file:"])
             /\ createMediaPreviewUrl metadata h
                = Some (Ok None,
                        h ++ [EvFetch (gateway_url (fileCid metadata));
                              EvConsole "error"
                                "Failed to create media preview URL:"])).
  { intros e He.
    unfold downloadDecryptedFile, createMediaPreviewUrl, fetch_ciphertext.
    rewrite Hcid. change (negb true) with false. cbv iota.
    unfold try_catch, bind, call, lift, console, emit, throw, ret.
    rewrite Hfetch. change (negb true) with false. cbv iota beta.
    rewrite He. rewrite <- !app_assoc. split; reflexivity. }
  split.
  - intros Hshort.
    assert (He : decode_frame frame (decryptionKey metadata)
                 = Throw CiphertextMalformed).
    { unfold decode_frame. apply Nat.ltb_lt in Hshort. rewrite Hshort.
      reflexivity. }
    split; [exact He|]. apply Hrun. exact He.
  - intros Hlong Hversion.
    assert (He : decode_frame frame (decryptionKey metadata)
                 = Throw UnsupportedVersion).
    { unfold decode_frame.
      destruct (Nat.ltb_spec (List.length frame) (1 + 12 + 16));
        [lia|].
      destruct frame as [|version rest]; [reflexivity|].
      simpl in Hversion.
      destruct (Byte.eqb version x01) eqn:E; [|reflexivity].
      apply Byte.byte_dec_bl in E. contradiction. }
    split; [exact He|]. apply Hrun. exact He.
Qed.

(** *** Further properties of the media functions *)

(** Without a locator nothing is fetched: the preview is [null] and the
    download rejects with "Missing encrypted CID". *)
Lemma media_needs_locator metadata h :
  truthy (fileCid metadata) = false ->
  createMediaPreviewUrl metadata h
  = Some (Ok None,
          h ++ [EvConsole "error" "Failed to create media preview URL:"])
  /\ downloadDecryptedFile metadata h
     = Some (Throw (Error "Missing encrypted CID"),
             h ++ [EvConsole "error" "Failed to download/decrypt file:"]).
Proof.
  intros Hcid.
  unfold createMediaPreviewUrl, downloadDecryptedFile, fetch_ciphertext.
  rewrite Hcid. split; reflexivity.
Qed.

(** What the gateway's answer leads to.  A response that is not [ok]
    stops both functions with "Failed to fetch file: <statusText>"
    before anything is decoded.  A frame that decodes gives the
    preview one object URL, which it returns and leaves alive; the
    download makes one object URL, hands it to the browser under
    [metadata.filename] (or [file]) and revokes it. *)
Theorem media_gateway_outcomes metadata h :
  truthy (fileCid metadata) = true ->
  (forall statusText body,
      http_fetch h (gateway_url (fileCid metadata))
        = Ok (false, statusText, body) ->
      createMediaPreviewUrl metadata h
      = Some (Ok None,
              h ++ [EvFetch (gateway_url (fileCid metadata));
                    EvConsole "error" "Failed to create media preview URL:"])
      /\ downloadDecryptedFile metadata h
         = Some (Throw (Error ("Failed to fetch file: " ++ statusText)),
                 h ++ [EvFetch (gateway_url (fileCid metadata));
                       EvConsole "error"
                                 "Failed to download/decrypt file:"]))
  /\ (forall statusText frame plaintext,
        http_fetch h (gateway_url (fileCid metadata))
          = Ok (true, statusText, frame) ->
        decode_frame frame (decryptionKey metadata) = Ok plaintext ->
        let url := createObjectURL
                     (h ++ [EvFetch (gateway_url (fileCid metadata))])
                     plaintext (blob_type metadata) in
        createMediaPreviewUrl metadata h
        = Some (Ok (Some url),
                h ++ [EvFetch (gateway_url (fileCid metadata));
                      EvCreateObjectURL (blob_type metadata)])
        /\ downloadDecryptedFile metadata h
           = Some (Ok tt,
                   h ++ [EvFetch (gateway_url (fileCid metadata));
                         EvCreateObjectURL (blob_type metadata);
                         EvDownload url
                           (js_string (js_or (filename metadata)
                                             (JStr "file")));
                         EvRevokeObjectURL url])).
Proof.
  intros Hcid. split.
  - intros statusText body Hfetch.
    unfold createMediaPreviewUrl, downloadDecryptedFile, fetch_ciphertext.
    rewrite Hcid. change (negb true) with false. cbv iota.
    unfold try_catch, bind, call, lift, console, emit, throw, ret.
    rewrite Hfetch. change (negb false) with true. cbv iota beta.
    rewrite <- !app_assoc. split; reflexivity.
  - intros statusText frame plaintext Hfetch Hdecode url.
    unfold createMediaPreviewUrl, downloadDecryptedFile, fetch_ciphertext.
    rewrite Hcid. change (negb true) with false. cbv iota.
    unfold try_catch, bind, call, lift, console, emit, throw, ret,
      new_object_url.
    rewrite Hfetch. change (negb true) with false. cbv iota beta.
    rewrite Hdecode. cbv iota beta.
    rewrite <- !app_assoc. split; reflexivity.
Qed.

End Media.

(** Two frames for the examples: three bytes, and 29 bytes that start
    with version 2. *)
Definition short_frame : list byte := [x01; x02; x03].
Definition wrong_version_frame : list byte := x02 :: repeat x00 28.
Definition demo_metadata : MediaMetadata :=
  mkMetadata (JStr "a.png") (JNum (Int 2048)) (JStr "image/png")
             (JStr "bafy-cid") (JStr "00ff") "2025-01-01T00:00:00.000Z".

Lemma C8_witness :
  decode_frame (fun _ _ _ => Ok []) short_frame (JStr "00ff")
    = Throw CiphertextMalformed
  /\ decode_frame (fun _ _ _ => Ok []) wrong_version_frame (JStr "00ff")
     = Throw UnsupportedVersion.
Proof.
  split.
  - destruct (C8_malformed_frames_rejected
                (fun _ _ => Ok (true, "OK"%string, short_frame))
                (fun _ _ _ => Ok []) (fun _ _ _ => "blob:1"%string)
                short_frame demo_metadata [] eq_refl
                (ex_intro _ "OK"%string eq_refl)) as [Hshort _].
    apply Hshort. vm_compute. lia.
  - destruct (C8_malformed_frames_rejected
                (fun _ _ => Ok (true, "OK"%string, wrong_version_frame))
                (fun _ _ _ => Ok []) (fun _ _ _ => "blob:1"%string)
                wrong_version_frame demo_metadata [] eq_refl
                (ex_intro _ "OK"%string eq_refl)) as [_ Hlong].
    apply Hlong; [vm_compute; lia | discriminate].
Defined.

Lemma media_gateway_witness :
  createMediaPreviewUrl
    (fun _ _ => Ok (false, "Not Found"%string, []))
    (fun _ _ _ => Ok []) (fun _ _ _ => "blob:1"%string) demo_metadata []
  = Some (Ok None,
          [] ++ [EvFetch (gateway_url (fileCid demo_metadata));
                 EvConsole "error" "Failed to create media preview URL:"])
  /\ downloadDecryptedFile
       (fun _ _ => Ok (false, "Not Found"%string, []))
       (fun _ _ _ => Ok []) (fun _ _ _ => "blob:1"%string) demo_metadata []
     = Some (Throw (Error ("Failed to fetch file: " ++ "Not Found")),
             [] ++ [EvFetch (gateway_url (fileCid demo_metadata));
                    EvConsole "error" "Failed to download/decrypt file:"]).
Proof.
  destruct (media_gateway_outcomes
              (fun _ _ => Ok (false, "Not Found"%string, []))
              (fun _ _ _ => Ok []) (fun _ _ _ => "blob:1"%string)
              demo_metadata [] eq_refl) as [Hfail _].
  apply (Hfail "Not Found"%string []). reflexivity.
Defined.

(* ----------------------------------------------------------------- *)
(** *** Releases remembered by the browser *)

Section Local.

(** The JSON parser, [BigInt] on strings ([None] is a [SyntaxError]),
    the browser, the connected account. *)
Variable JSON_parse : string -> option jsval.
Variable StringToBigInt : string -> option Z.
Variable has_window : bool.
Variable address : string.

(** [BigInt(v)] *)
Definition BigInt_of (v : jsval) : Res Z :=
  match v with
  | JUndefined => Throw (TypeError "Cannot convert undefined to a BigInt")
  | JNull => Throw (TypeError "Cannot convert null to a BigInt")
  | JBool b => Ok (if b then 1 else 0)
  | JNum (Int z) => Ok z
  | JNum NaN =>
      Throw (RangeError "The number NaN cannot be converted to a BigInt")
  | JBig z => Ok z
  | JStr s =>
      match StringToBigInt s with
      | Some z => Ok z
      | None => Throw (SyntaxError "Cannot convert to a BigInt")
      end
  | JObject _ =>
      match StringToBigInt "[object Object]" with
      | Some z => Ok z
      | None => Throw (SyntaxError "Cannot convert to a BigInt")
      end
  end.

(** The body of the inner [try] of [loadFromLocalStorage] for one item:
    the record it pushes, or nothing when a step throws. *)
Definition local_entry (raw : string) : option obj :=
  match JSON_parse raw with
  | None => None
  | Some JNull => None
  | Some parsed =>
      match BigInt_of (get_prop "requestId" parsed) with
      | Throw _ => None
      | Ok rid =>
          match BigInt_of (get_prop "targetBlock" parsed) with
          | Throw _ => None
          | Ok unlockAtBlock => Some (local_release rid address unlockAtBlock)
          end
      end
  end.

(** The loop over [localStorage], its items in the order of
    [localStorage.key(i)]. *)
Definition local_releases (storage : list (string * string)) : list obj :=
  flat_map
    (fun item =>
       let '(key, raw) := item in
       if String.eqb key "" || negb (String.prefix "release_" key) then []
       else if String.eqb raw "" then []
       else match local_entry raw with
            | Some info => [info]
            | None => []
            end)
    storage.

(** [loadFromLocalStorage], with the table it leaves. *)
Definition loadFromLocalStorage (storage : list (string * string))
    (prev : list obj) : list obj :=
  if negb has_window then prev
  else
    let localReleases := local_releases storage in
    if (0 <? List.length localReleases)%nat
    then add_local localReleases prev
    else prev.

(** A record that is the only one with its key is the one found. *)
Lemma find_release_only key l r :
  In r l ->
  key_of r = key ->
  (forall r', In r' l -> key_of r' = key -> r' = r) ->
  find_release key l = Some r.
Proof.
  unfold find_release. induction l as [|x l IH]; intros Hin Hkey Honly.
  - destruct Hin.
  - simpl. destruct (String.eqb (key_of x) key) eqn:E.
    + apply String.eqb_eq in E. f_equal. apply Honly; [left; reflexivity|].
      exact E.
    + destruct Hin as [->|Hin].
      * apply String.eqb_neq in E. contradiction.
      * apply IH; [exact Hin|exact Hkey|].
        intros r' Hr'. apply Honly. right. exact Hr'.
Qed.

Lemma add_local_In localReleases prev r :
  In r (add_local localReleases prev) <->
  (In r localReleases
   /\ existsb (String.eqb (key_of r)) (map key_of prev) = false)
  \/ In r prev.
Proof.
  unfold add_local. split.
  - intros Hin.
    apply (Permutation_in _ (sort_desc_perm _)) in Hin.
    apply in_app_or in Hin. destruct Hin as [Hin|Hin]; [left|right; exact Hin].
    apply filter_In in Hin. destruct Hin as [Hin Hnew].
    apply negb_true_iff in Hnew. auto.
  - intros Hin.
    apply (Permutation_in _ (Permutation_sym (sort_desc_perm _))).
    apply in_or_app. destruct Hin as [[Hin Hnew]|Hin]; [left|right; exact Hin].
    apply filter_In. split; [exact Hin|]. rewrite Hnew. reflexivity.
Qed.

(** What the browser remembers never replaces what is listed.  For a
    table with one record per request id, the record found under a
    listed id after [loadFromLocalStorage] is the record that was
    there, whatever [localStorage] holds: items that do not parse,
    or whose ids are no integers, are skipped, and an item whose id is
    listed is dropped. *)
Theorem loadFromLocalStorage_keeps_listed_records storage prev r :
  NoDup (map key_of prev) ->
  In r prev ->
  find_release (key_of r) (loadFromLocalStorage storage prev) = Some r
  /\ find_release (key_of r) prev = Some r.
Proof.
  intros Hnd Hin.
  assert (Honly : forall r', In r' prev -> key_of r' = key_of r -> r' = r).
  { clear storage. induction prev as [|x prev IH]; intros r' Hr' Hkey.
    - destruct Hr'.
    - simpl in Hnd. inversion Hnd as [|? ? Hnotin Hnd']; subst.
      destruct Hin as [->|Hin]; destruct Hr' as [->|Hr'].
      + reflexivity.
      + exfalso. apply Hnotin. rewrite <- Hkey. apply in_map. exact Hr'.
      + exfalso. apply Hnotin. rewrite Hkey. apply in_map. exact Hin.
      + apply IH; assumption. }
  split; [|apply find_release_only; auto].
  unfold loadFromLocalStorage.
  destruct (negb has_window); [apply find_release_only; auto|].
  destruct (0 <? List.length (local_releases storage))%nat;
    [|apply find_release_only; auto].
  apply find_release_only; [|reflexivity|].
  - apply add_local_In. right. exact Hin.
  - intros r' Hr' Hkey. apply add_local_In in Hr'.
    destruct Hr' as [[_ Hnew]|Hr']; [|apply Honly; assumption].
    exfalso.
    assert (Hex : existsb (String.eqb (key_of r')) (map key_of prev) = true).
    { apply existsb_exists. exists (key_of r). split.
      - apply in_map. exact Hin.
      - rewrite Hkey. apply String.eqb_refl. }
    congruence.
Qed.

End Local.

(** [BigInt] on the decimal texts an id is stored as. *)
Definition decimal_bigint (s : string) : option Z :=
  option_map Z.of_int (NilZero.int_of_string s).

(** A browser that remembers request 7, next to an item that is no
    JSON. *)
Definition remembered_7 : string :=
  text_of_obj [("requestId"%string, JStr "7");
               ("targetBlock"%string, JStr "150");
               ("createdAt"%string, JNum (Int 1700000000000));
               ("createdAtBlock"%string, JNum (Int 100));
               ("txHash"%string, JStr "0xabc")].

Definition demo_storage : list (string * string) :=
  [("tblock"%string, "150"%string);
   ("release_7"%string, remembered_7);
   ("release_x"%string, "not json"%string)].

Lemma loadFromLocalStorage_witness :
  find_release (key_of revealed_7)
    (loadFromLocalStorage Json.JSON_parse decimal_bigint true "0xcreator"
                          demo_storage [revealed_7])
  = Some revealed_7
  /\ find_release (key_of revealed_7) [revealed_7] = Some revealed_7.
Proof.
  apply (loadFromLocalStorage_keeps_listed_records Json.JSON_parse
           decimal_bigint true "0xcreator" demo_storage [revealed_7]
           revealed_7).
  - constructor; [simpl; tauto|constructor].
  - left. reflexivity.
Defined.

End Viewer.

(* ================================================================= *)
(** ** useMediaRelease: the creation path *)

Module Creator.

Record MediaReleaseRequest : Type := mkRequest {
  fileCid : string;
  decryptionKey : string;
  blocksAhead : string;
  filename : option string;
  filetype : option string;
  filesize : option number
}.

Record MediaReleaseResult : Type := mkResult {
  requestId : Z;
  targetBlock : Z;
  createdAtBlock : Z;
  txHash : string
}.

Definition MAX_UINT40 : Z := 2 ^ 40 - 1.

(** The reveal payload [{ k, c, n?, t?, s? }]. *)
Definition payloadObj (request : MediaReleaseRequest) : obj :=
  let o := [ ("k"%string, JStr (decryptionKey request));
             ("c"%string, JStr (fileCid request)) ] in
  let o := match filename request with
           | Some f => if truthy (JStr f) then obj_set "n" (JStr f) o else o
           | None => o
           end in
  let o := match filetype request with
           | Some t => if truthy (JStr t) then obj_set "t" (JStr t) o else o
           | None => o
           end in
  match filesize request with
  | Some n => obj_set "s" (JNum n) o
  | None => o
  end.

Definition overflow_message (targetBlock : number) : string :=
  ("Target block " ++ num_string targetBlock
     ++ " exceeds uint40 maximum value " ++ string_of_Z MAX_UINT40)%string.

(** The error the spec calls [TargetBlockOverflow]. *)
Definition TargetBlockOverflow (targetBlock : number) : exn :=
  Error (overflow_message targetBlock).

(** [BigInt(n)] *)
Definition BigInt (n : number) : Res Z :=
  match n with
  | Int z => Ok z
  | NaN => Throw (RangeError "The number NaN cannot be converted to a BigInt")
  end.

(** *** The page's form *)




(** [fileMeta], set by the upload. *)
Record FileMeta : Type := mkFileMeta {
  name : string;
  type_ : string;
  size : number
}.

(** The item [handleCreate] stores under [release_<requestId>]. *)
Definition stored_release (result : MediaReleaseResult) (createdAt : Z)
  : obj :=
  [ ("requestId"%string, JStr (string_of_Z (requestId result)));
    ("targetBlock"%string, JStr (string_of_Z (targetBlock result)));
    ("createdAt"%string, JNum (Int createdAt));
    ("createdAtBlock"%string, JNum (Int (createdAtBlock result)));
    ("txHash"%string, JStr (txHash result)) ].

(** The writes to [localStorage] in a trace. *)
Definition storage_writes (h : list Event) : list (string * string) :=
  flat_map (fun e => match e with
                     | EvSetItem k v => [(k, v)]
                     | _ => []
                     end) h.

(** The last [n] events of a trace. *)
Definition last_events (n : nat) (h : list Event) : list Event :=
  List.rev (firstn n (List.rev h)).

Section Create.

Variable Ciphertext : Type.
Variable Receipt : Type.

(** The wallet, and the library and services the hook calls. *)
Variable connected : bool.
Variable StringToNumber : string -> number.
Variable createFromChainId : Res unit.
Variable encodeCondition : Z -> string.
Variable encodeCiphertextToSolidity : Ciphertext -> string.
Variable keccak256_utf8 : string -> string.
Variable find_created : Receipt -> option Z.
Variable rpc_getBlockNumber : list Event -> Res Z.
Variable blocklock_encrypt : list Event -> string -> Z -> Res Ciphertext.
Variable rpc_getFeeData : list Event -> Res (option Z).
Variable rpc_estimatePrice : list Event -> Z -> Z -> Res Z.
Variable rpc_sendTx :
  list Event -> Z -> Z -> string -> string -> string -> Z -> Res string.
Variable rpc_wait : list Event -> Res (option Receipt).

Definition callbackGasLimit : Z := 700000.
Definition gasBufferPercent : Z := 100.

Definition createMediaRelease (request : MediaReleaseRequest)
  : M MediaReleaseResult :=
  if negb connected then throw (Error "Please connect your wallet")
  else
    emit (EvSetIsProcessing true) ;;
    emit (EvSetStatus "Initializing...") ;;
    try_finally
      (try_catch
         (currentBlock <- call EvGetBlockNumber rpc_getBlockNumber ;;
          let targetBlock :=
            num_add (Int currentBlock)
                    (StringToNumber (blocksAhead request)) in
          if num_gt targetBlock (Int MAX_UINT40)
          then throw (TargetBlockOverflow targetBlock)
          else
            emit (EvSetStatus "Initializing Blocklock...") ;;
            lift createFromChainId ;;
            emit (EvSetStatus "Encrypting reveal payload...") ;;
            target <- lift (BigInt targetBlock) ;;
            let conditionBytes := encodeCondition target in
            payloadJson <- lift (Json.JSON_stringify (payloadObj request)) ;;
            ciphertext <- call (EvEncrypt payloadJson target)
                               (fun h => blocklock_encrypt h payloadJson
                                                           target) ;;
            let decryptionKeyCipher :=
              encodeCiphertextToSolidity ciphertext in
            let encCidHash := keccak256_utf8 (fileCid request) in
            emit (EvSetStatus "Creating media release...") ;;
            feeData <- call EvGetFeeData rpc_getFeeData ;;
            match feeData with
            | None => throw (Error "No fee data found")
            | Some maxFeePerGas =>
                if maxFeePerGas =? 0 then throw (Error "No fee data found")
                else
                  emit (EvSetStatus "Calculating request price...") ;;
                  requestPrice <-
                    call (EvEstimatePrice callbackGasLimit maxFeePerGas)
                         (fun h => rpc_estimatePrice h callbackGasLimit
                                                     maxFeePerGas) ;;
                  let requestCallBackPrice :=
                    requestPrice
                    + Z.quot (requestPrice * gasBufferPercent) 100 in
                  console "log" "Request CallBack price:" ;;
                  txh <-
                    try_catch
                      (call (EvSendTx callbackGasLimit target encCidHash
                                      requestCallBackPrice)
                            (fun h => rpc_sendTx h callbackGasLimit target
                                        encCidHash conditionBytes
                                        decryptionKeyCipher
                                        requestCallBackPrice))
                      (fun error =>
                         console "error" "Contract call failed:" ;;
                         console "error" "Function parameters:" ;;
                         throw error) ;;
                  emit (EvSetStatus
                          "Waiting for transaction confirmation...") ;;
                  receipt <- call EvWaitTx rpc_wait ;;
                  match receipt with
                  | None => throw (Error "Transaction failed to confirm")
                  | Some rc =>
                      match find_created rc with
                      | None =>
                          throw (Error "Could not find Created event in transaction logs")
                      | Some rid =>
                          emit (EvSetStatus
                                  "Media release created successfully!") ;;
                          ret (mkResult rid target currentBlock txh)
                      end
                  end
            end)
         (fun error =>
            console "error" "Media release creation failed:" ;;
            emit (EvSetStatus ("Error: " ++ message_of error)%string) ;;
            throw error))
      (emit (EvSetIsProcessing false)).

(** [Date.now()] *)
Variable now : list Event -> Z.

Definition Date_now : M Z := fun h => Some (Ok (now h), h).

(** [handleCreate] of the page, with the request id it leaves shown.
    The one [try] of the source is written as two: the request id is
    set before the writes to [localStorage]. *)
Definition handleCreate (cid key blocks : string)
    (fileMeta : option FileMeta) (shown : option Z) : M (option Z) :=
  created <-
    try_catch
      (result <- createMediaRelease
                   (mkRequest cid key blocks (option_map name fileMeta)
                              (option_map type_ fileMeta)
                              (option_map size fileMeta)) ;;
       console "log" "result" ;;
       ret (Some result))
      (fun err => console "error" (message_of err) ;; ret None) ;;
  match created with
  | None => ret shown
  | Some result =>
      try_catch
        (emit (EvSetItem "tblock" (string_of_Z (targetBlock result))) ;;
         createdAt <- Date_now ;;
         text <- lift (Json.JSON_stringify
                         (stored_release result createdAt)) ;;
         emit (EvSetItem ("release_" ++ string_of_Z (requestId result))
                         text) ;;
         ret (Some (requestId result)))
        (fun err => console "error" (message_of err) ;;
                    ret (Some (requestId result)))
  end.

(** *** The claim on the creation path *)

(** C3, amended.  When the wallet is connected and the current height
    plus [blocksAhead] exceeds [2^40 - 1], [createMediaRelease] rejects
    with the overflow error; the height has been read from the provider
    by then, and that read is the only network call: nothing is
    encrypted, priced or sent. *)
Theorem C3_overflow_rejected_after_height_read request cb n h :
  connected = true ->
  rpc_getBlockNumber
    (h ++ [EvSetIsProcessing true; EvSetStatus "Initializing..."]) = Ok cb ->
  StringToNumber (blocksAhead request) = Int n ->
  cb + n > MAX_UINT40 ->
  exists h',
    createMediaRelease request h
      = Some (Throw (TargetBlockOverflow (Int (cb + n))), h ++ h')%list
    /\ network_calls h' = [EvGetBlockNumber].
Proof.
  intros Hconn Hcb Hn Hover.
  assert (Hgt : num_gt (Int (cb + n)) (Int MAX_UINT40) = true).
  { simpl. apply Z.ltb_lt. lia. }
  unfold createMediaRelease. rewrite Hconn.
  change (negb true) with false. cbv iota.
  unfold try_finally, try_catch, bind, call, console, emit, throw.
  cbv beta.
  assert (Hh : ((h ++ [EvSetIsProcessing true])
                  ++ [EvSetStatus "Initializing..."])%list
               = (h ++ [EvSetIsProcessing true;
                        EvSetStatus "Initializing..."])%list)
    by (rewrite <- app_assoc; reflexivity).
  rewrite Hh, Hcb. cbv beta iota.
  rewrite Hn. change (num_add (Int cb) (Int n)) with (Int (cb + n)).
  rewrite Hgt.
  eexists. split.
  - rewrite <- !app_assoc. reflexivity.
  - reflexivity.
Qed.

(** *** Further properties of the creation path *)

Lemma stringify_payload request :
  exists text, Json.JSON_stringify (payloadObj request) = Ok text.
Proof.
  destruct request as [cid key ba fn ft fs]. unfold payloadObj.
  cbn [fileCid decryptionKey filename filetype filesize].
  destruct fn as [f|]; [destruct (truthy (JStr f))|];
    (destruct ft as [t|]; [destruct (truthy (JStr t))|]);
    (destruct fs as [[z|]|]);
    eexists; reflexivity.
Qed.

(** Every way [createMediaRelease] can end, once past its wallet
    check. *)
Lemma createMediaRelease_outcome request h :
  connected = true ->
  exists r h',
    createMediaRelease request h = Some (r, h ++ h')%list
    /\ storage_writes h' = []
    /\ last_events 1 h' = [EvSetIsProcessing false]
    /\ (forall e, r = Throw e ->
          last_events 3 h'
          = [EvConsole "error" "Media release creation failed:";
             EvSetStatus ("Error: " ++ message_of e);
             EvSetIsProcessing false])
    /\ (forall result, r = Ok result ->
          last_events 2 h'
          = [EvSetStatus "Media release created successfully!";
             EvSetIsProcessing false]).
Proof.
  intros Hconn. unfold createMediaRelease. rewrite Hconn.
  change (negb true) with false. cbv iota.
  destruct (stringify_payload request) as [text Htext].
  unfold try_finally, try_catch, bind, call, console, emit, throw, lift, ret.
  rewrite Htext.
  repeat
    match goal with
    | |- context [rpc_getBlockNumber ?x] =>
        destruct (rpc_getBlockNumber x) as [?cb|?e]
    | |- context [num_gt ?a ?b] => destruct (num_gt a b)
    | |- context [match createFromChainId with _ => _ end] =>
        destruct createFromChainId as [[]|?e]
    | |- context [BigInt ?x] => destruct (BigInt x) as [?target|?e]
    | |- context [blocklock_encrypt ?x ?y ?z] =>
        destruct (blocklock_encrypt x y z) as [?ct|?e]
    | |- context [rpc_getFeeData ?x] =>
        destruct (rpc_getFeeData x) as [[?fee|]|?e]
    | |- context [?fee =? 0] => destruct (fee =? 0)
    | |- context [rpc_estimatePrice ?x ?y ?z] =>
        destruct (rpc_estimatePrice x y z) as [?price|?e]
    | |- context [rpc_sendTx ?x1 ?x2 ?x3 ?x4 ?x5 ?x6 ?x7] =>
        destruct (rpc_sendTx x1 x2 x3 x4 x5 x6 x7) as [?txh|?e]
    | |- context [rpc_wait ?x] =>
        destruct (rpc_wait x) as [[?rc|]|?e]
    | |- context [find_created ?x] =>
        destruct (find_created x) as [?rid|]
    end.
  all: rewrite <- !app_assoc.
  all: eexists _, _; split; [reflexivity|].
  all: split; [reflexivity|]; split; [reflexivity|].
  all: split; intros ? Heq; inversion Heq; subst; reflexivity.
Qed.



(** A block count that is no number.  [NaN] is not greater than
    [2^40 - 1], so the overflow check lets it pass; the call goes on
    to set up the time lock and is stopped by [BigInt], with a
    [RangeError], before anything is encrypted, priced or sent. *)
Theorem createMediaRelease_rejects_non_numeric request cb h :
  connected = true ->
  rpc_getBlockNumber
    (h ++ [EvSetIsProcessing true; EvSetStatus "Initializing..."]) = Ok cb ->
  StringToNumber (blocksAhead request) = NaN ->
  createFromChainId = Ok tt ->
  exists message h',
    createMediaRelease request h
      = Some (Throw (RangeError message), h ++ h')%list
    /\ network_calls h' = [EvGetBlockNumber]
    /\ In (EvSetStatus "Encrypting reveal payload...") h'
    /\ last_events 1 h' = [EvSetIsProcessing false].
Proof.
  intros Hconn Hcb Hn Hlock.
  unfold createMediaRelease. rewrite Hconn.
  change (negb true) with false. cbv iota.
  unfold try_finally, try_catch, bind, call, console, emit, throw, lift, ret.
  replace ((h ++ [EvSetIsProcessing true])
             ++ [EvSetStatus "Initializing..."])%list
    with (h ++ [EvSetIsProcessing true;
                EvSetStatus "Initializing..."])%list
    by (rewrite <- app_assoc; reflexivity).
  rewrite Hcb, Hn. cbn [num_add num_gt]. rewrite Hlock. cbn [BigInt].
  eexists _, _. rewrite <- !app_assoc.
  split; [reflexivity|]. split; [reflexivity|].
  split; [|reflexivity]. simpl. do 4 right. left. reflexivity.
Qed.

Lemma createMediaRelease_returns request h :
  exists r h',
    createMediaRelease request h = Some (r, h ++ h')%list
    /\ storage_writes h' = [].
Proof.
  destruct connected eqn:Hconn.
  - destruct (createMediaRelease_outcome request h Hconn)
      as (r & h' & Hrun & Hw & _).
    exists r, h'. auto.
  - exists (Throw (Error "Please connect your wallet")), [].
    unfold createMediaRelease. rewrite Hconn, app_nil_r.
    split; reflexivity.
Qed.

Lemma storage_writes_app (h1 h2 : list Event) :
  storage_writes (h1 ++ h2) = (storage_writes h1 ++ storage_writes h2)%list.
Proof. unfold storage_writes. apply flat_map_app. Qed.

Lemma stored_release_round_trip result createdAt :
  exists text,
    Json.JSON_stringify (stored_release result createdAt) = Ok text
    /\ Json.JSON_parse text = Some (JObject (stored_release result createdAt)).
Proof.
  apply Json.JSON_roundtrip.
  - repeat constructor; simpl; intuition discriminate.
  - reflexivity.
Qed.

(** What [handleCreate] leaves in [localStorage].  It never rejects.
    When the creation fails, for whatever reason, nothing is written
    and the request id shown stays as it was.  When it succeeds,
    exactly two items are written: [tblock], the decimal text of the
    target block, and [release_<requestId>], a JSON text that parses
    back to the request id and the target block as decimal strings,
    the time of the clock, the height at creation and the transaction
    hash. *)
Theorem handleCreate_writes_only_on_success
    cid key blocks fileMeta shown h :
  exists shown' h',
    handleCreate cid key blocks fileMeta shown h
      = Some (Ok shown', h ++ h')%list
    /\ (forall e h1,
          createMediaRelease
            (mkRequest cid key blocks (option_map name fileMeta)
                       (option_map type_ fileMeta)
                       (option_map size fileMeta)) h
          = Some (Throw e, h1) ->
          shown' = shown /\ storage_writes h' = [])
    /\ (forall result h1,
          createMediaRelease
            (mkRequest cid key blocks (option_map name fileMeta)
                       (option_map type_ fileMeta)
                       (option_map size fileMeta)) h
          = Some (Ok result, h1) ->
          shown' = Some (requestId result)
          /\ exists text,
              Json.JSON_parse text
              = Some (JObject
                        (stored_release result
                           (now (h1 ++ [EvConsole "log" "result";
                                        EvSetItem "tblock"
                                          (string_of_Z
                                             (targetBlock result))]))))
              /\ storage_writes h'
                 = [("tblock"%string, string_of_Z (targetBlock result));
                    (("release_" ++ string_of_Z (requestId result))%string,
                     text)]).
Proof.
  set (request := mkRequest cid key blocks (option_map name fileMeta)
                            (option_map type_ fileMeta)
                            (option_map size fileMeta)).
  destruct (createMediaRelease_returns request h) as (r & h0 & Hrun & Hw).
  unfold handleCreate. fold request.
  unfold bind at 1. unfold try_catch at 1. unfold bind at 1.
  rewrite Hrun. destruct r as [result|e].
  - unfold bind at 1. unfold console at 1. unfold emit at 1.
    unfold ret at 1.
    unfold try_catch, bind, emit, Date_now, lift.
    set (h2 := (((h ++ h0) ++ [EvConsole "log" "result"])
                  ++ [EvSetItem "tblock"
                        (string_of_Z (targetBlock result))])%list).
    destruct (stored_release_round_trip result (now h2))
      as (text & Hstr & Hparse).
    rewrite Hstr. unfold ret.
    exists (Some (requestId result)).
    exists (h0 ++ [EvConsole "log" "result";
                   EvSetItem "tblock" (string_of_Z (targetBlock result));
                   EvSetItem ("release_" ++ string_of_Z (requestId result))
                             text])%list.
    split; [unfold h2; rewrite <- !app_assoc; reflexivity|].
    split; [intros e h1 [=]|].
    intros result' h1 [= <- <-]. split; [reflexivity|].
    exists text. split.
    + rewrite Hparse. unfold h2. rewrite <- !app_assoc. reflexivity.
    + rewrite storage_writes_app, Hw. reflexivity.
  - unfold bind, console, emit, ret.
    exists shown, (h0 ++ [EvConsole "error" (message_of e)])%list.
    split; [rewrite <- app_assoc; reflexivity|].
    split; [|intros result h1 [=]].
    intros e' h1 _. split; [reflexivity|].
    rewrite storage_writes_app, Hw. reflexivity.
Qed.

End Create.

(** *** A concrete world *)

(** [Number(s)] on the decimal texts a block count is typed as. *)
Definition decimal_number (s : string) : number :=
  match NilZero.int_of_string s with
  | Some d => Int (Z.of_int d)
  | None => NaN
  end.

Definition demo_create (height : Z) (request : MediaReleaseRequest)
  : M MediaReleaseResult :=
  createMediaRelease unit unit true decimal_number (Ok tt)
    (fun _ => "0xcondition"%string) (fun _ => "0xciphertext"%string)
    (fun cid => ("keccak:" ++ cid)%string) (fun _ => Some 7)
    (fun _ => Ok height) (fun _ _ _ => Ok tt) (fun _ => Ok (Some 1))
    (fun _ _ _ => Ok 10) (fun _ _ _ _ _ _ _ => Ok "0xtx"%string)
    (fun _ => Ok (Some tt)) request.

Definition demo_request (blocks : string) : MediaReleaseRequest :=
  mkRequest "bafy-cid" "00ff" blocks (Some "a.png"%string)
            (Some "image/png"%string) (Some (Int 2048)).

(** What [decryptMetadata] is to give back for a request. *)
Definition recovered_metadata (request : MediaReleaseRequest)
    (now_iso : string) : Viewer.MediaMetadata :=
  Viewer.mkMetadata
    (match filename request with
     | Some f => if String.eqb f "" then JStr "encrypted-file" else JStr f
     | None => JStr "encrypted-file"
     end)
    (match filesize request with
     | Some n => JNum n
     | None => JNum (Int 0)
     end)
    (match filetype request with
     | Some t => if String.eqb t "" then JStr "application/octet-stream"
                 else JStr t
     | None => JStr "application/octet-stream"
     end)
    (JStr (fileCid request))
    (JStr (decryptionKey request))
    now_iso.

Lemma C3_witness :
  exists h',
    demo_create 100 (demo_request "1099511627776") []
      = Some (Throw (TargetBlockOverflow (Int (100 + 1099511627776))),
              [] ++ h')%list
    /\ network_calls h' = [EvGetBlockNumber].
Proof.
  unfold demo_create.
  apply C3_overflow_rejected_after_height_read;
    [reflexivity | reflexivity | reflexivity | vm_compute; reflexivity].
Defined.

(** C3, as stated, fails: the request is rejected for overflow, and
    the trace of the rejected call holds a request to the provider,
    the read of the block number the target is computed from. *)
Lemma C3_counterexample :
  demo_create 100 (demo_request "1099511627776") []
    = Some (Throw (Error "Target block 1099511627876 exceeds uint40 maximum value 1099511627775"),
            [EvSetIsProcessing true; EvSetStatus "Initializing...";
             EvGetBlockNumber;
             EvConsole "error" "Media release creation failed:";
             EvSetStatus "Error: Target block 1099511627876 exceeds uint40 maximum value 1099511627775";
             EvSetIsProcessing false])
  /\ network_calls
       [EvSetIsProcessing true; EvSetStatus "Initializing...";
        EvGetBlockNumber;
        EvConsole "error" "Media release creation failed:";
        EvSetStatus "Error: Target block 1099511627876 exceeds uint40 maximum value 1099511627775";
        EvSetIsProcessing false]
     = [EvGetBlockNumber].
Proof.
  split; vm_compute; reflexivity.
Qed.


Lemma createMediaRelease_non_numeric_witness :
  exists message h',
    demo_create 100 (demo_request "soon") []
      = Some (Throw (RangeError message), [] ++ h')%list
    /\ network_calls h' = [EvGetBlockNumber]
    /\ In (EvSetStatus "Encrypting reveal payload...") h'
    /\ last_events 1 h' = [EvSetIsProcessing false].
Proof.
  unfold demo_create.
  apply (createMediaRelease_rejects_non_numeric unit unit true
           decimal_number (Ok tt)
           (fun _ => "0xcondition"%string) (fun _ => "0xciphertext"%string)
           (fun cid => ("keccak:" ++ cid)%string) (fun _ => Some 7)
           (fun _ => Ok 100) (fun _ _ _ => Ok tt) (fun _ => Ok (Some 1))
           (fun _ _ _ => Ok 10) (fun _ _ _ _ _ _ _ => Ok "0xtx"%string)
           (fun _ => Ok (Some tt)) (demo_request "soon") 100 []);
    reflexivity.
Defined.

(** *** The create button *)



(** *** The reveal payload survives serialization *)

Lemma truthy_nonempty s : s <> ""%string -> truthy (JStr s) = true.
Proof.
  intros H. simpl. apply negb_true_iff. apply String.eqb_neq. exact H.
Qed.

Lemma payloadObj_shape request :
  filesize request <> Some NaN ->
  NoDup (map fst (payloadObj request))
  /\ Json.simple_obj (payloadObj request) = true.
Proof.
  destruct request as [cid key ba fn ft fs]. unfold payloadObj. simpl.
  intros Hsize.
  destruct fn as [f|]; [destruct (String.eqb f "")|];
    (destruct ft as [t|]; [destruct (String.eqb t "")|]);
    (destruct fs as [[z|]|]; [| congruence |]); simpl;
    (split; [repeat constructor; simpl; intuition discriminate
            | reflexivity]).
Qed.

(** C7.  The payload built from a key, a locator and the optional
    name, type and size (a count of bytes) is read back from its JSON
    text as the same object; and [decryptMetadata], given the text of a
    payload whose key and locator are not empty, returns these values. *)
Theorem C7_payload_round_trip request :
  filesize request <> Some NaN ->
  exists text,
    Json.JSON_stringify (payloadObj request) = Ok text
    /\ Json.JSON_parse text = Some (JObject (payloadObj request))
    /\ (decryptionKey request <> ""%string ->
        fileCid request <> ""%string ->
        forall toUtf8String keccak toLowerCase now_iso data h,
          toUtf8String data = Ok text ->
          Viewer.decryptMetadata toUtf8String Json.JSON_parse keccak
            toLowerCase now_iso data None h
          = Some (Ok (Some (recovered_metadata request now_iso)), h)).
Proof.
  intros Hsize.
  destruct (payloadObj_shape request Hsize) as [Hnd Hsimple].
  destruct (Json.JSON_roundtrip (payloadObj request) Hnd Hsimple)
    as (text & Hstr & Hparse).
  exists text. split; [exact Hstr|]. split; [exact Hparse|].
  intros Hkey Hcid toUtf8String keccak toLowerCase now_iso data h Hdata.
  unfold Viewer.decryptMetadata, try_catch, bind, lift.
  rewrite Hdata, Hparse.
  destruct request as [cid key ba fn ft fs]. simpl in Hkey, Hcid, Hsize.
  pose proof (truthy_nonempty _ Hkey) as Tk.
  pose proof (truthy_nonempty _ Hcid) as Tc.
  simpl in Tk, Tc.
  unfold recovered_metadata, payloadObj.
  cbn [fileCid decryptionKey filename filetype filesize].
  destruct fn as [f|];
    [simpl (truthy (JStr f)); destruct (String.eqb f "") eqn:Ef|];
    (destruct ft as [t|];
     [simpl (truthy (JStr t)); destruct (String.eqb t "") eqn:Et|]);
    (destruct fs as [[z|]|]; [| congruence |]);
    cbn [negb obj_set String.eqb Ascii.eqb Bool.eqb get_prop obj_get
         obj_lookup truthy andb];
    rewrite ?Tk, ?Tc; cbn [andb]; unfold js_or, ret; cbn [truthy negb];
    rewrite ?Ef, ?Et; cbn [negb];
    try (destruct (z =? 0) eqn:Ez;
         [apply Z.eqb_eq in Ez; subst z|]; cbn [negb]);
    reflexivity.
Qed.

(** A size that is [NaN] is written as [null] and does not come back. *)
Remark nan_size_is_written_as_null :
  option_map (get_prop "s")
    (Json.JSON_parse
       (Viewer.text_of_obj
          (payloadObj (mkRequest "bafy-cid" "00ff" "5" None None
                                 (Some NaN)))))
  = Some JNull.
Proof. vm_compute. reflexivity. Qed.

Lemma C7_witness :
  exists text,
    Json.JSON_stringify (payloadObj (demo_request "5")) = Ok text
    /\ Json.JSON_parse text = Some (JObject (payloadObj (demo_request "5")))
    /\ (decryptionKey (demo_request "5") <> ""%string ->
        fileCid (demo_request "5") <> ""%string ->
        forall toUtf8String keccak toLowerCase now_iso data h,
          toUtf8String data = Ok text ->
          Viewer.decryptMetadata toUtf8String Json.JSON_parse keccak
            toLowerCase now_iso data None h
          = Some (Ok (Some (recovered_metadata (demo_request "5") now_iso)),
                  h)).
Proof.
  apply (C7_payload_round_trip (demo_request "5")). discriminate.
Defined.

End Creator.

(* ================================================================= *)
(** ** The viewer page *)

Module Page.

Import Viewer.

Record PageState : Type := mkPage {
  selectedRelease : option obj;
  decryptedMetadata : option MediaMetadata;
  mediaPreviewUrl : option string;
  isLoadingMedia : bool
}.

(** [isMediaFile(mimeType)]: [startsWith] exists on strings only. *)
Definition isMediaFile (mimeType : jsval) : Res bool :=
  match mimeType with
  | JStr m => Ok (String.prefix "image/" m || String.prefix "video/" m
                  || String.prefix "audio/" m)
  | _ => Throw (TypeError "mimeType.startsWith is not a function")
  end.

(** *** Arithmetic on values *)

Inductive numeric : Type :=
| NumV (n : number)
| BigV (z : Z).

Definition num_sub (a b : number) : number :=
  match a, b with
  | Int x, Int y => Int (x - y)
  | _, _ => NaN
  end.

Definition num_mul (a b : number) : number :=
  match a, b with
  | Int x, Int y => Int (x * y)
  | _, _ => NaN
  end.

(** [a >= b] and [a <= b]; false when one side is [NaN]. *)
Definition num_ge (a b : number) : bool :=
  match a, b with
  | Int x, Int y => y <=? x
  | _, _ => false
  end.

Definition num_le (a b : number) : bool :=
  match a, b with
  | Int x, Int y => x <=? y
  | _, _ => false
  end.

(** [Math.floor(a / d)] for a positive integer [d], and [a % d]. *)
Definition num_floor_div (a : number) (d : Z) : number :=
  match a with
  | Int x => Int (x / d)
  | NaN => NaN
  end.

Definition num_rem (a : number) (d : Z) : number :=
  match a with
  | Int x => Int (Z.rem x d)
  | NaN => NaN
  end.

Definition mix_error : exn :=
  TypeError "Cannot mix BigInt and other types, use explicit conversions".

Section Countdown.

Variable StringToNumber : string -> number.
Variable JSON_parse : string -> option jsval.
Variable getItem : string -> option string.
Variable has_window : bool.
Variable now : Z.

Definition avgBlockSeconds : Z := 2.

(** [ToPrimitive]: a plain object becomes its default string. *)
Definition to_primitive (v : jsval) : jsval :=
  match v with
  | JObject _ => JStr "[object Object]"
  | _ => v
  end.

(** [Number(v)] *)
Definition Number_ (v : jsval) : number :=
  match to_primitive v with
  | JUndefined => NaN
  | JNull => Int 0
  | JBool true => Int 1
  | JBool false => Int 0
  | JNum n => n
  | JBig z => Int z
  | JStr s => StringToNumber s
  | JObject _ => NaN
  end.

(** [ToNumeric]: a bigint stays one, anything else becomes a number. *)
Definition to_numeric (v : jsval) : numeric :=
  match to_primitive v with
  | JBig z => BigV z
  | p => NumV (Number_ p)
  end.

(** [a - b] and [a * b]: both operands bigints, or both numbers. *)
Definition js_sub (a b : jsval) : Res jsval :=
  match to_numeric a, to_numeric b with
  | NumV x, NumV y => Ok (JNum (num_sub x y))
  | BigV x, BigV y => Ok (JBig (x - y))
  | _, _ => Throw mix_error
  end.

Definition js_mul (a b : jsval) : Res jsval :=
  match to_numeric a, to_numeric b with
  | NumV x, NumV y => Ok (JNum (num_mul x y))
  | BigV x, BigV y => Ok (JBig (x * y))
  | _, _ => Throw mix_error
  end.

(** [a + b]: concatenation as soon as one side is a string. *)
Definition js_add (a b : jsval) : Res jsval :=
  match to_primitive a, to_primitive b with
  | JStr s, p => Ok (JStr (s ++ js_string p))
  | p, JStr s => Ok (JStr (js_string p ++ s))
  | pa, pb =>
      match to_numeric pa, to_numeric pb with
      | NumV x, NumV y => Ok (JNum (num_add x y))
      | BigV x, BigV y => Ok (JBig (x + y))
      | _, _ => Throw mix_error
      end
  end.

(** [x >= v] for a number [x]. *)
Definition js_ge_number (x : number) (v : jsval) : bool :=
  match to_numeric v with
  | NumV y => num_ge x y
  | BigV z => num_ge x (Int z)
  end.

(** [Math.floor(v / d)] for a positive integer [d]. *)
Definition js_floor_div (v : jsval) (d : Z) : Res number :=
  match to_numeric v with
  | NumV x => Ok (num_floor_div x d)
  | BigV _ => Throw mix_error
  end.

(** [String(n).padStart(2, "0")] *)
Definition pad (n : number) : string :=
  let s := num_string n in
  match String.length s with
  | O => "00"
  | S O => ("0" ++ s)%string
  | _ => s
  end.

(** The [HH:MM:SS] text both strategies end with. *)
Definition format_seconds (totalSeconds : number) : string :=
  let hours := num_floor_div totalSeconds 3600 in
  let minutes := num_floor_div (num_rem totalSeconds 3600) 60 in
  let seconds := num_rem totalSeconds 60 in
  (pad hours ++ ":" ++ pad minutes ++ ":" ++ pad seconds)%string.

Definition rbind {A B} (r : Res A) (k : A -> Res B) : Res B :=
  match r with
  | Ok a => k a
  | Throw e => Throw e
  end.

(** The block-count strategy, the fallback of [getTimeRemaining]. *)
Definition block_count_strategy (release : obj) : Res string :=
  if negb (truthy (obj_get "currentBlock" release))
     || negb (truthy (obj_get "unlockAtBlock" release))
  then Ok "Unknown"%string
  else
    rbind (js_sub (obj_get "unlockAtBlock" release)
                  (obj_get "currentBlock" release))
      (fun difference =>
         let blocksRemaining := Number_ difference in
         if num_le blocksRemaining (Int 0) then Ok "Unlocked!"%string
         else
           let totalSeconds :=
             num_mul blocksRemaining (Int avgBlockSeconds) in
           Ok (format_seconds totalSeconds)).

Definition getTimeRemaining (release : obj) : Res string :=
  if negb has_window then Ok "Loading..."%string
  else
    let localStorageKey :=
      ("release_" ++ js_string (obj_get "requestId" release))%string in
    let text := match getItem localStorageKey with
                | Some t => if String.eqb t "" then "{}"%string else t
                | None => "{}"%string
                end in
    match JSON_parse text with
    | None => Throw (SyntaxError "Unexpected token in JSON")
    | Some JNull =>
        Throw (TypeError "Cannot read properties of null")
    | Some storedRelease =>
        if truthy (get_prop "createdAt" storedRelease)
           && truthy (get_prop "targetBlock" storedRelease)
        then
          let createdAt := get_prop "createdAt" storedRelease in
          let targetBlock :=
            JNum (Number_ (get_prop "targetBlock" storedRelease)) in
          rbind (js_sub targetBlock
                        (js_or (get_prop "createdAtBlock" storedRelease)
                               (JNum (Int 0))))
            (fun blocksAhead =>
          rbind (js_mul blocksAhead (JNum (Int avgBlockSeconds)))
            (fun seconds =>
          rbind (js_mul seconds (JNum (Int 1000)))
            (fun millis =>
          rbind (js_add createdAt millis)
            (fun estimatedUnlockTime =>
               if js_ge_number (Int now) estimatedUnlockTime
               then Ok "Unlocked!"%string
               else
                 rbind (js_sub estimatedUnlockTime (JNum (Int now)))
                   (fun timeRemainingMs =>
                 rbind (js_floor_div timeRemainingMs 1000)
                   (fun totalSeconds =>
                      Ok (format_seconds totalSeconds)))))))
        else block_count_strategy release
    end.

End Countdown.

Section Select.

Variable toUtf8String : string -> Res string.
Variable JSON_parse : string -> option jsval.
Variable keccak256_utf8 : string -> string.
Variable toLowerCase : string -> string.
Variable now_iso : string.
Variable http_fetch : list Event -> string -> Res (bool * string * list byte).
Variable aes_gcm_decrypt : jsval -> list byte -> list byte -> Res (list byte).
Variable createObjectURL : list Event -> list byte -> string -> string.

(** [decryptMetadata(release.revealed)], as the page calls it: without
    a release.  A value that is no string has no bytes to decode, which
    [decryptMetadata] catches like any other failure. *)
Definition decrypt_revealed (revealed : jsval) : M (option MediaMetadata) :=
  match revealed with
  | JStr revealedData =>
      decryptMetadata toUtf8String JSON_parse keccak256_utf8 toLowerCase
                      now_iso revealedData None
  | _ => console "error" "Failed to parse revealed payload:" ;; ret None
  end.

Definition handleReleaseSelect (release : obj) (st : PageState)
  : M PageState :=
  let st0 := mkPage (Some release) None None (isLoadingMedia st) in
  if truthy (obj_get "isRevealed" release)
     && truthy (obj_get "revealed" release)
  then
    try_catch
      (metadata <- decrypt_revealed (obj_get "revealed" release) ;;
       let st1 := mkPage (Some release) metadata None (isLoadingMedia st) in
       match metadata with
       | None => ret st1
       | Some md =>
           match isMediaFile (type_ md) with
           | Throw e =>
               console "error" "Failed to decrypt metadata:" ;; ret st1
           | Ok false => ret st1
           | Ok true =>
               try_catch
                 (previewUrl <- createMediaPreviewUrl http_fetch
                                  aes_gcm_decrypt createObjectURL md ;;
                  ret (mkPage (Some release) metadata previewUrl false))
                 (fun err =>
                    console "error" "Failed to create media preview:" ;;
                    ret (mkPage (Some release) metadata None false))
           end
       end)
      (fun err => console "error" "Failed to decrypt metadata:" ;; ret st0)
  else ret st0.

End Select.

(** The metadata [decryptMetadata] builds from an accepted payload. *)
Definition accepted_metadata (payload : jsval) (now_iso : string)
  : MediaMetadata :=
  mkMetadata (js_or (get_prop "n" payload) (JStr "encrypted-file"))
             (js_or (get_prop "s" payload) (JNum (Int 0)))
             (js_or (get_prop "t" payload) (JStr "application/octet-stream"))
             (get_prop "c" payload)
             (get_prop "k" payload)
             now_iso.

(** *** A concrete page *)

Definition empty_storage (key : string) : option string := None.

Definition entry_7 : string :=
  text_of_obj [("requestId"%string, JStr "7");
               ("targetBlock"%string, JStr "150");
               ("createdAt"%string, JNum (Int 1700000000000));
               ("createdAtBlock"%string, JNum (Int 100));
               ("txHash"%string, JStr "0xabc")].

Definition storage_7 (key : string) : option string :=
  if String.eqb key "release_7" then Some entry_7 else None.

Definition demo_time (storage : string -> option string) (now : Z)
    (release : obj) : Res string :=
  getTimeRemaining Creator.decimal_number Json.JSON_parse storage true now
                   release.

(** Request 7 as [fetchReleases] lists it at height 100. *)
Definition listed_7 : obj :=
  fetched_item 7 "0xcreator" "0xhash" 150 false None 100.

(** A chain on which request 7 is revealed at block 151 with the
    forged payload, its [fileCidHash] committing to another locator. *)
Definition forged_getLogs (h : list Event) (f : Filter) (a b : Z)
  : Res (list string) :=
  if (a <=? 151) && (151 <=? b) then Ok [forged_payload] else Ok [].

Definition forged_check (prev : list obj) : M (bool * list obj) :=
  checkReleaseStatus string (fun _ => Some 151)
    (fun l => Parsed "Revealed" (JStr l)) (fun _ => Throw (Error "hexlify"))
    (fun s => s) string_of_Z true (fun _ => Ok 160) forged_getLogs true
    (fun _ _ => Ok ("0xcreator"%string, demo_keccak "bafy-real", 150, true))
    10 12 200 "0xcontract" false 200 7 prev.

Definition demo_select (release : obj) : M PageState :=
  handleReleaseSelect (fun s => Ok s) Json.JSON_parse demo_keccak
    lower_string "2025-01-01T00:00:00.000Z"
    (fun _ _ => Ok (true, "OK"%string, []))
    (fun _ _ _ => Throw (Error "decrypt"))
    (fun _ _ _ => "blob:1"%string)
    release (mkPage None None None false).

(** The table and the selected metadata after a status check and a
    click, on the forged chain. *)
Definition forged_table : list obj :=
  match forged_check [local_7] [] with
  | Some (Ok (_, table), _) => table
  | _ => []
  end.

Definition forged_selection : option MediaMetadata :=
  match find_release "7" forged_table with
  | Some r =>
      match demo_select r [] with
      | Some (Ok st, _) => decryptedMetadata st
      | _ => None
      end
  | None => None
  end.

(** *** The claims on the page *)

Lemma decrypt_without_release
    toUtf8String JSON_parse keccak toLowerCase now_iso
    revealedData json payload h :
  toUtf8String revealedData = Ok json ->
  JSON_parse json = Some payload ->
  truthy (get_prop "k" payload) = true ->
  truthy (get_prop "c" payload) = true ->
  decryptMetadata toUtf8String JSON_parse keccak toLowerCase now_iso
                  revealedData None h
  = Some (Ok (Some (accepted_metadata payload now_iso)), h).
Proof.
  intros Hutf Hparse Hk Hc.
  assert (Hpayload : truthy payload = true).
  { destruct payload; try discriminate Hk; reflexivity. }
  unfold decryptMetadata, try_catch, bind, lift.
  rewrite Hutf, Hparse, Hpayload, Hk, Hc. reflexivity.
Qed.

(** C10.  Called without a release, as the page calls it,
    [decryptMetadata] returns the metadata of every payload with
    fields [k] and [c]: the result does not depend on the hash
    function, and a release whose [fileCidHash] is empty changes
    nothing.  [handleReleaseSelect] shows exactly that metadata. *)
Theorem C10_viewer_skips_hash_check
    toUtf8String JSON_parse keccak toLowerCase now_iso
    revealedData json payload h :
  toUtf8String revealedData = Ok json ->
  JSON_parse json = Some payload ->
  truthy (get_prop "k" payload) = true ->
  truthy (get_prop "c" payload) = true ->
  decryptMetadata toUtf8String JSON_parse keccak toLowerCase now_iso
                  revealedData None h
  = Some (Ok (Some (accepted_metadata payload now_iso)), h)
  /\ (forall keccak' toLowerCase',
        decryptMetadata toUtf8String JSON_parse keccak' toLowerCase' now_iso
                        revealedData None h
        = decryptMetadata toUtf8String JSON_parse keccak toLowerCase now_iso
                          revealedData None h)
  /\ (forall release,
        truthy (obj_get "fileCidHash" release) = false ->
        decryptMetadata toUtf8String JSON_parse keccak toLowerCase now_iso
                        revealedData (Some release) h
        = decryptMetadata toUtf8String JSON_parse keccak toLowerCase now_iso
                          revealedData None h)
  /\ (forall http_fetch aes_gcm_decrypt createObjectURL release st,
        truthy (obj_get "isRevealed" release) = true ->
        obj_get "revealed" release = JStr revealedData ->
        revealedData <> ""%string ->
        exists st' h',
          handleReleaseSelect toUtf8String JSON_parse keccak toLowerCase
            now_iso http_fetch aes_gcm_decrypt createObjectURL release st h
          = Some (Ok st', h')
          /\ decryptedMetadata st'
             = Some (accepted_metadata payload now_iso))
  /\ (forall other text,
        toUtf8String other = Ok text ->
        exists metadata,
          decryptMetadata toUtf8String JSON_parse keccak toLowerCase now_iso
                          other None h
          = Some (Ok (Some metadata), h)).
Proof.
  intros Hutf Hparse Hk Hc.
  pose proof (decrypt_without_release toUtf8String JSON_parse keccak
                toLowerCase now_iso revealedData json payload h
                Hutf Hparse Hk Hc) as Hrun.
  split; [exact Hrun|]. split; [|split; [|split]].
  - intros keccak' toLowerCase'. rewrite Hrun.
    apply decrypt_without_release with (json := json); assumption.
  - intros release Hempty. rewrite Hrun.
    assert (Hpayload : truthy payload = true).
    { destruct payload; try discriminate Hk; reflexivity. }
    unfold decryptMetadata, try_catch, bind, lift.
    rewrite Hutf, Hparse, Hpayload, Hk, Hc, Hempty. reflexivity.
  - intros http_fetch aes_gcm_decrypt createObjectURL release st
           Hrev Hdata Hne.
    unfold handleReleaseSelect. rewrite Hrev, Hdata.
    assert (Tr : truthy (JStr revealedData) = true).
    { simpl. apply negb_true_iff. apply String.eqb_neq. exact Hne. }
    rewrite Tr. cbn [andb].
    unfold try_catch at 1. unfold bind at 1. unfold decrypt_revealed.
    rewrite Hrun.
    destruct (isMediaFile (type_ (accepted_metadata payload now_iso)))
      as [[|]|e].
    + unfold try_catch, bind.
      destruct (createMediaPreviewUrl_returns http_fetch aes_gcm_decrypt
                  createObjectURL (accepted_metadata payload now_iso) h)
        as (url & h1 & Hurl).
      rewrite Hurl. unfold ret. eauto.
    + unfold ret. eauto.
    + unfold bind, console, emit, ret. eauto.
  - intros other text Hother.
    unfold decryptMetadata, try_catch, bind, lift. rewrite Hother.
    destruct (truthy match JSON_parse text with
                     | Some v => v
                     | None => JNull
                     end
              && truthy (get_prop "k" match JSON_parse text with
                                      | Some v => v
                                      | None => JNull
                                      end)
              && truthy (get_prop "c" match JSON_parse text with
                                      | Some v => v
                                      | None => JNull
                                      end)); unfold ret; eauto.
Qed.

Lemma C10_witness :
  demo_decrypt forged_payload None []
  = Some (Ok (Some (accepted_metadata
                      (JObject [("k"%string, JStr "00ff");
                                ("c"%string, JStr "bafy-forged")])
                      "2025-01-01T00:00:00.000Z")), []).
Proof.
  unfold demo_decrypt.
  apply (C10_viewer_skips_hash_check (fun s => Ok s) Json.JSON_parse
           demo_keccak lower_string "2025-01-01T00:00:00.000Z"
           forged_payload forged_payload
           (JObject [("k"%string, JStr "00ff");
                     ("c"%string, JStr "bafy-forged")]) []);
    reflexivity.
Defined.

(** C2, as stated, fails.  A payload with a locator but no key, given
    with a release whose hash commits to another locator, is not
    rejected: it comes back as key-only metadata.  And on a chain that
    reveals a payload with the wrong locator, the status check sets
    [isRevealed] in the table and the page shows the payload's
    metadata, the hash never compared. *)
Lemma C2_counterexample :
  demo_decrypt keyless_payload (Some committed_7) []
  = Some (Ok (Some (mkMetadata (JStr "encrypted-file") (JNum (Int 0))
                               (JStr "application/octet-stream") (JStr "")
                               (JStr keyless_payload)
                               "2025-01-01T00:00:00.000Z")), [])
  /\ option_map (obj_get "isRevealed") (find_release "7" forged_table)
     = Some (JBool true)
  /\ option_map (obj_get "fileCidHash") (find_release "7" forged_table)
     = Some (JStr (demo_keccak "bafy-real"))
  /\ option_map fileCid forged_selection = Some (JStr "bafy-forged").
Proof.
  repeat split; vm_compute; reflexivity.
Qed.

Lemma wall_clock_estimate
    StringToNumber JSON_parse getItem now release text sr t0 tb target cab :
  getItem ("release_" ++ js_string (obj_get "requestId" release))%string
    = Some text ->
  text <> ""%string ->
  JSON_parse text = Some (JObject sr) ->
  obj_get "createdAt" sr = JNum (Int t0) ->
  t0 <> 0 ->
  obj_get "targetBlock" sr = JStr tb ->
  tb <> ""%string ->
  StringToNumber tb = Int target ->
  obj_get "createdAtBlock" sr = JNum (Int cab) ->
  getTimeRemaining StringToNumber JSON_parse getItem true now release
  = Ok (if t0 + (target - cab) * avgBlockSeconds * 1000 <=? now
        then "Unlocked!"%string
        else format_seconds
               (Int ((t0 + (target - cab) * avgBlockSeconds * 1000 - now)
                     / 1000))).
Proof.
  intros Hget Hne Hparse Hcreated Ht0 Htarget Htb Hnum Hcab.
  unfold getTimeRemaining. cbn [negb]. rewrite Hget.
  apply String.eqb_neq in Hne. rewrite Hne. rewrite Hparse.
  cbn [get_prop]. rewrite Hcreated, Htarget, Hcab.
  assert (T0 : truthy (JNum (Int t0)) = true).
  { simpl. apply negb_true_iff. apply Z.eqb_neq. exact Ht0. }
  assert (Tb : truthy (JStr tb) = true).
  { simpl. apply negb_true_iff. apply String.eqb_neq. exact Htb. }
  rewrite T0, Tb. cbn [andb].
  assert (Hor : js_or (JNum (Int cab)) (JNum (Int 0)) = JNum (Int cab)).
  { unfold js_or. simpl. destruct (cab =? 0) eqn:E; [|reflexivity].
    apply Z.eqb_eq in E. subst. reflexivity. }
  rewrite Hor.
  unfold Number_ at 1. cbn [to_primitive]. rewrite Hnum.
  cbv beta iota zeta
      delta [js_sub js_mul js_add rbind to_numeric Number_ to_primitive
             js_ge_number js_floor_div num_sub num_mul num_add num_ge
             num_floor_div].
  destruct (t0 + (target - cab) * avgBlockSeconds * 1000 <=? now);
    reflexivity.
Qed.

(** The wall-clock strategy: with the creation time and the target
    block stored, the unlock time is estimated as
    [createdAt + (targetBlock - createdAtBlock) * avgBlockSeconds * 1000]
    and compared with the clock. *)
Lemma wall_clock_strategy
    StringToNumber JSON_parse getItem now release text sr t0 tb target cab :
  getItem ("release_" ++ js_string (obj_get "requestId" release))%string
    = Some text ->
  text <> ""%string ->
  JSON_parse text = Some (JObject sr) ->
  obj_get "createdAt" sr = JNum (Int t0) ->
  t0 <> 0 ->
  obj_get "targetBlock" sr = JStr tb ->
  tb <> ""%string ->
  StringToNumber tb = Int target ->
  obj_get "createdAtBlock" sr = JNum (Int cab) ->
  getTimeRemaining StringToNumber JSON_parse getItem true now release
  = Ok (if t0 + (target - cab) * avgBlockSeconds * 1000 <=? now
        then "Unlocked!"%string
        else format_seconds
               (Int ((t0 + (target - cab) * avgBlockSeconds * 1000 - now)
                     / 1000))).
Proof. apply wall_clock_estimate. Qed.

(** A bare key shows no media.  When the revealed bytes are accepted
    by the fallback, selecting the release shows key-only metadata and
    no preview, without a single request: the type is not a media
    type.  Asked for that metadata, the preview is [null] and the
    download rejects with "Missing encrypted CID", again without a
    request. *)
Theorem key_only_payload_shows_no_media
    toUtf8String JSON_parse keccak toLowerCase now_iso
    http_fetch aes_gcm_decrypt createObjectURL
    release revealedData json st h :
  truthy (obj_get "isRevealed" release) = true ->
  obj_get "revealed" release = JStr revealedData ->
  revealedData <> ""%string ->
  toUtf8String revealedData = Ok json ->
  truthy match JSON_parse json with
         | Some v => v
         | None => JNull
         end
  && truthy (get_prop "k" match JSON_parse json with
                          | Some v => v
                          | None => JNull
                          end)
  && truthy (get_prop "c" match JSON_parse json with
                          | Some v => v
                          | None => JNull
                          end) = false ->
  handleReleaseSelect toUtf8String JSON_parse keccak toLowerCase now_iso
    http_fetch aes_gcm_decrypt createObjectURL release st h
  = Some (Ok (mkPage (Some release)
                     (Some (key_only_metadata now_iso json)) None
                     (isLoadingMedia st)), h)
  /\ createMediaPreviewUrl http_fetch aes_gcm_decrypt createObjectURL
       (key_only_metadata now_iso json) h
     = Some (Ok None,
             h ++ [EvConsole "error" "Failed to create media preview URL:"])
  /\ downloadDecryptedFile http_fetch aes_gcm_decrypt createObjectURL
       (key_only_metadata now_iso json) h
     = Some (Throw (Error "Missing encrypted CID"),
             h ++ [EvConsole "error" "Failed to download/decrypt file:"]).
Proof.
  intros Hrev Hdata Hne Hutf Hshape. split.
  - unfold handleReleaseSelect. rewrite Hrev, Hdata.
    assert (Tr : truthy (JStr revealedData) = true).
    { simpl. apply negb_true_iff. apply String.eqb_neq. exact Hne. }
    rewrite Tr. cbn [andb].
    unfold try_catch at 1. unfold bind at 1. unfold decrypt_revealed.
    rewrite (decryptMetadata_fallback toUtf8String JSON_parse keccak
               toLowerCase now_iso revealedData json None h Hutf Hshape).
    reflexivity.
  - apply media_needs_locator. reflexivity.
Qed.

(** The guard of the block-count strategy. *)
Lemma block_count_unknown release :
  truthy (obj_get "currentBlock" release) = false
  \/ truthy (obj_get "unlockAtBlock" release) = false ->
  block_count_strategy Creator.decimal_number release = Ok "Unknown"%string.
Proof.
  unfold block_count_strategy. intros [H | H]; rewrite H.
  - reflexivity.
  - destruct (truthy (obj_get "currentBlock" release)); reflexivity.
Qed.

(** The block-count strategy on two heights that are both numbers. *)
Lemma block_count_numbers StringToNumber release u cb :
  obj_get "unlockAtBlock" release = JNum (Int u) -> u <> 0 ->
  obj_get "currentBlock" release = JNum (Int cb) -> cb <> 0 ->
  block_count_strategy StringToNumber release
  = Ok (if u - cb <=? 0 then "Unlocked!"%string
        else format_seconds (Int ((u - cb) * avgBlockSeconds))).
Proof.
  intros Hu Hu0 Hcb Hcb0. unfold block_count_strategy. rewrite Hu, Hcb.
  assert (Tu : truthy (JNum (Int u)) = true).
  { simpl. apply negb_true_iff. apply Z.eqb_neq. exact Hu0. }
  assert (Tc : truthy (JNum (Int cb)) = true).
  { simpl. apply negb_true_iff. apply Z.eqb_neq. exact Hcb0. }
  rewrite Tu, Tc.
  cbv beta iota zeta
      delta [negb orb rbind js_sub to_numeric Number_ to_primitive num_sub
             num_le num_mul].
  destruct (u - cb <=? 0); reflexivity.
Qed.

(** The records of the table carry [unlockAtBlock] as a bigint and
    [currentBlock] as a number: their difference cannot be taken. *)
Lemma block_count_mixed StringToNumber release u cb :
  obj_get "unlockAtBlock" release = JBig u -> u <> 0 ->
  obj_get "currentBlock" release = JNum (Int cb) -> cb <> 0 ->
  block_count_strategy StringToNumber release = Throw mix_error.
Proof.
  intros Hu Hu0 Hcb Hcb0. unfold block_count_strategy. rewrite Hu, Hcb.
  assert (Tu : truthy (JBig u) = true).
  { simpl. apply negb_true_iff. apply Z.eqb_neq. exact Hu0. }
  assert (Tc : truthy (JNum (Int cb)) = true).
  { simpl. apply negb_true_iff. apply Z.eqb_neq. exact Hcb0. }
  rewrite Tu, Tc. reflexivity.
Qed.

Lemma key_only_payload_witness :
  demo_select
    (release_by_id 7 "0xcreator" "0xhash" 150 true (Some keyless_payload)
                   160) []
  = Some (Ok (mkPage
                (Some (release_by_id 7 "0xcreator" "0xhash" 150 true
                                     (Some keyless_payload) 160))
                (Some (key_only_metadata "2025-01-01T00:00:00.000Z"
                                         keyless_payload))
                None false), []).
Proof.
  unfold demo_select.
  apply (key_only_payload_shows_no_media (fun s => Ok s) Json.JSON_parse
           demo_keccak lower_string "2025-01-01T00:00:00.000Z"
           (fun _ _ => Ok (true, "OK"%string, []))
           (fun _ _ _ => Throw (Error "decrypt"))
           (fun _ _ _ => "blob:1"%string)
           (release_by_id 7 "0xcreator" "0xhash" 150 true
                          (Some keyless_payload) 160)
           keyless_payload keyless_payload
           (mkPage None None None false) []);
    try reflexivity; try (vm_compute; reflexivity);
    try (vm_compute; discriminate).
Defined.

Lemma wall_clock_witness :
  demo_time storage_7 1700000040000 listed_7
  = Ok (if 1700000000000 + (150 - 100) * avgBlockSeconds * 1000
           <=? 1700000040000
        then "Unlocked!"%string
        else format_seconds
               (Int ((1700000000000 + (150 - 100) * avgBlockSeconds * 1000
                      - 1700000040000) / 1000))).
Proof.
  unfold demo_time.
  apply (wall_clock_strategy Creator.decimal_number Json.JSON_parse
           storage_7 1700000040000 listed_7 entry_7
           [("requestId"%string, JStr "7");
            ("targetBlock"%string, JStr "150");
            ("createdAt"%string, JNum (Int 1700000000000));
            ("createdAtBlock"%string, JNum (Int 100));
            ("txHash"%string, JStr "0xabc")]
           1700000000000 "150" 150 100);
    solve [reflexivity | discriminate].
Defined.

Lemma block_count_numbers_witness :
  block_count_strategy Creator.decimal_number
    (obj_set "unlockAtBlock" (JNum (Int 150)) listed_7)
  = Ok (if 150 - 100 <=? 0 then "Unlocked!"%string
        else format_seconds (Int ((150 - 100) * avgBlockSeconds))).
Proof.
  apply (block_count_numbers Creator.decimal_number
           (obj_set "unlockAtBlock" (JNum (Int 150)) listed_7) 150 100);
    solve [reflexivity | discriminate].
Defined.

Lemma block_count_mixed_witness :
  block_count_strategy Creator.decimal_number listed_7 = Throw mix_error.
Proof.
  apply (block_count_mixed Creator.decimal_number listed_7 150 100);
    solve [reflexivity | discriminate].
Defined.

(** C9 at the failing input.  Request 7, unlocking at block 150 and
    listed by [fetchReleases] at height 100, has no stored creation
    time: the block-count strategy is to give 50 blocks of 2 seconds,
    [00:01:40], and the code throws a [TypeError] on the difference of
    a bigint and a number.  With its creation time stored, the
    wall-clock strategy gives the estimate and then the sentinel. *)
Lemma C9_block_count_throws_on_listed_release :
  demo_time empty_storage 1700000000000 listed_7 = Throw mix_error
  /\ obj_get "unlockAtBlock" listed_7 = JBig 150
  /\ obj_get "currentBlock" listed_7 = JNum (Int 100)
  /\ format_seconds (Int ((150 - 100) * avgBlockSeconds))
     = "00:01:40"%string
  /\ demo_time storage_7 1700000000000 listed_7 = Ok "00:01:40"%string
  /\ demo_time storage_7 1700000100000 listed_7 = Ok "Unlocked!"%string.
Proof.
  repeat split; vm_compute; reflexivity.
Qed.

End Page.


(* ================================================================= *)
(** ** useFilecoinUpload: encrypting and uploading a file *)

Module Upload.

(** *** Hex text of bytes, and back *)

(** [b.toString(16)] for a byte. *)
Definition hex_char (n : N) : ascii :=
  (if n <? 10 then ascii_of_N (48 + n) else ascii_of_N (87 + n))%N.

Definition toString16 (b : byte) : string :=
  let n := Byte.to_N b in
  (if n <? 16 then String (hex_char n) EmptyString
   else String (hex_char (n / 16))
               (String (hex_char (n mod 16)) EmptyString))%N.

(** [s.padStart(2, "0")] *)
Definition padStart2 (s : string) : string :=
  match String.length s with
  | O => "00"%string
  | S O => ("0" ++ s)%string
  | _ => s
  end.

(** [Array.from(bytes, b => b.toString(16).padStart(2, '0')).join('')],
    the text of the key in [handleFileUpload] and of the file hash in
    [prepareFileForUpload]. *)
Definition hex_of_bytes (bs : list byte) : string :=
  String.concat "" (map (fun b => padStart2 (toString16 b)) bs).

(** The key text is read as its code units, each below 256; a hex key
    is ASCII, where code units and bytes are the same. *)
Definition is_line_terminator (c : ascii) : bool :=
  let n := nat_of_ascii c in Nat.eqb n 10 || Nat.eqb n 13.

Definition is_js_space (c : ascii) : bool :=
  let n := nat_of_ascii c in
  Nat.eqb n 9 || Nat.eqb n 10 || Nat.eqb n 11 || Nat.eqb n 12
  || Nat.eqb n 13 || Nat.eqb n 32 || Nat.eqb n 160.

(** [s.match(/.{1,2}/g)]: the matches from left to right, each of two
    characters where two follow that are no line terminators; the
    empty list stands for [null]. *)
Fixpoint pairs (s : string) : list string :=
  match s with
  | EmptyString => []
  | String a t =>
      if is_line_terminator a then pairs t
      else
        match t with
        | EmptyString => [String a EmptyString]
        | String b r =>
            if is_line_terminator b then String a EmptyString :: pairs r
            else String a (String b EmptyString) :: pairs r
        end
  end.

Fixpoint skip_space (s : string) : string :=
  match s with
  | String c s' => if is_js_space c then skip_space s' else s
  | EmptyString => s
  end.

(** The value of the longest prefix of hex digits; [None] when there
    is none. *)
Fixpoint hex_prefix (s : string) (acc : option Z) : option Z :=
  match s with
  | String c rest =>
      match Json.hex_value c with
      | Some d =>
          hex_prefix rest
            (Some (16 * match acc with Some a => a | None => 0 end
                   + Z.of_N d))
      | None => acc
      end
  | EmptyString => acc
  end.

(** [parseInt(s, 16)]: blanks, a sign and a [0x] are passed over. *)
Definition parseInt16 (s : string) : number :=
  let s := skip_space s in
  let '(sign, s) :=
    match s with
    | String c r =>
        if Ascii.eqb c "-" then (-1, r)
        else if Ascii.eqb c "+" then (1, r)
        else (1, s)
    | EmptyString => (1, s)
    end in
  let s :=
    match s with
    | String z (String x r) =>
        if Ascii.eqb z "0" && (Ascii.eqb x "x" || Ascii.eqb x "X")
        then r else s
    | _ => s
    end in
  match hex_prefix s None with
  | Some v => Int (sign * v)
  | None => NaN
  end.

(** The conversion of a number stored into a [Uint8Array]. *)
Definition to_uint8 (n : number) : byte :=
  match n with
  | NaN => x00
  | Int z =>
      match Byte.of_N (Z.to_N (z mod 256)) with
      | Some b => b
      | None => x00
      end
  end.

(** [new Uint8Array(keyHex.match(/.{1,2}/g)!.map(h => parseInt(h, 16)))] *)
Definition key_bytes (keyHex : string) : Res (list byte) :=
  match pairs keyHex with
  | [] => Throw (TypeError "Cannot read properties of null (reading 'map')")
  | matches => Ok (map (fun h => to_uint8 (parseInt16 h)) matches)
  end.

(** *** The hook *)

Inductive Stage : Type := idle | encrypting | uploading | complete | error.

Record UploadProgress : Type := mkProgress {
  stage : Stage;
  message : string;
  progress : option Z
}.

Record UploadResult : Type := mkUpload {
  fileCid : string;
  fileHash : string;
  fileUrl : string;
  uploadedAtBlock : Z
}.

(** A [File]: its name, its type and its bytes. *)
Record File : Type := mkFile {
  name : string;
  type_ : string;
  content : list byte
}.

(** What the hook does to the outside world. *)
Inductive UploadEvent : Type :=
| UpSetUploadProgress (p : UploadProgress)
| UpGetBlockNumber
| UpGetRandomValues (n : nat)
| UpUpload (data : list byte) (filename : string)
| UpConsole (level text : string).

(** Computations of the hook: they extend a trace and return or
    throw; none of them loops. *)
Definition U (A : Type) : Type :=
  list UploadEvent -> Res A * list UploadEvent.

Definition uret {A} (a : A) : U A := fun h => (Ok a, h).
Definition uthrow {A} (e : exn) : U A := fun h => (Throw e, h).

Definition ubind {A B} (m : U A) (k : A -> U B) : U B :=
  fun h =>
    match m h with
    | (Ok a, h') => k a h'
    | (Throw e, h') => (Throw e, h')
    end.

Definition utry_catch {A} (m : U A) (handler : exn -> U A) : U A :=
  fun h =>
    match m h with
    | (Ok a, h') => (Ok a, h')
    | (Throw e, h') => handler e h'
    end.

Definition uemit (e : UploadEvent) : U unit := fun h => (Ok tt, h ++ [e]).

Definition ucall {A} (e : UploadEvent) (answer : list UploadEvent -> Res A)
  : U A :=
  fun h => (answer h, h ++ [e]).

Definition ulift {A} (r : Res A) : U A := fun h => (r, h).

Declare Scope upload_scope.
Delimit Scope upload_scope with upload.
Notation "x <- c1 ;; c2" := (ubind c1 (fun x => c2))
  (at level 61, c1 at next level, right associativity) : upload_scope.
Notation "c1 ;; c2" := (ubind c1 (fun _ => c2))
  (at level 61, right associativity) : upload_scope.
Local Open Scope upload_scope.

(** The uploads in a trace. *)
Definition uploads (h : list UploadEvent) : list (list byte * string) :=
  flat_map (fun e => match e with
                     | UpUpload data filename => [(data, filename)]
                     | _ => []
                     end) h.

(** The state of the page's form. *)
Record FormState : Type := mkForm {
  shownFileCid : string;
  shownDecryptionKey : string;
  fileMeta : option Creator.FileMeta;
  showUploadForm : bool
}.

Section Hook.

(** The wallet and the provider, the Web Crypto digest, random
    bytes, key import and AES-GCM encryption, and the storage service:
    its answer is the [Hash] of the response, if it has one. *)
Variable isConnected : bool.
Variable have_provider : bool.
Variable rpc_getBlockNumber : list UploadEvent -> Res Z.
Variable sha256 : list byte -> list byte.
Variable getRandomValues : list UploadEvent -> nat -> list byte.
Variable CryptoKey : Type.
Variable importKey : list byte -> Res CryptoKey.
Variable aes_gcm_encrypt : CryptoKey -> list byte -> list byte
                           -> Res (list byte).
Variable lighthouse_upload :
  list UploadEvent -> list byte -> string -> Res (option string).

Definition prepareFileForUpload (file : File) : U (list byte * string) :=
  uret (content file, hex_of_bytes (sha256 (content file))).

Definition random_bytes (n : nat) : U (list byte) :=
  fun h => (Ok (getRandomValues h n), h ++ [UpGetRandomValues n]).

(** AES-GCM encrypt: output layout [0x01][12-byte IV][ciphertext]. *)
Definition encryptBytes (plaintext : list byte) (keyHex : string)
  : U (list byte) :=
  keyBytes <- ulift (key_bytes keyHex) ;;
  cryptoKey <- ulift (importKey keyBytes) ;;
  iv <- random_bytes 12 ;;
  ct <- ulift (aes_gcm_encrypt cryptoKey iv plaintext) ;;
  uret ([x01] ++ iv ++ ct)%list.

Definition uploadToLighthouse (data : list byte) (filename : string)
  : U string :=
  uemit (UpSetUploadProgress
           (mkProgress uploading "Uploading to Lighthouse IPFS..."
                       (Some 50))) ;;
  utry_catch
    (response <- ucall (UpUpload data filename)
                       (fun h => lighthouse_upload h data filename) ;;
     match response with
     | Some hash =>
         if String.eqb hash ""
         then uthrow (Error "Upload failed: No CID returned from Lighthouse")
         else uret hash
     | None =>
         uthrow (Error "Upload failed: No CID returned from Lighthouse")
     end)
    (fun err =>
       uemit (UpConsole "error" "Lighthouse upload error:") ;;
       uthrow (Error ("Lighthouse upload failed: " ++ message_of err))).

Definition uploadFile (file : File) (encryptionKeyHex : option string)
  : U UploadResult :=
  if negb isConnected then uthrow (Error "Wallet not connected")
  else
    utry_catch
      (uemit (UpSetUploadProgress
                (mkProgress uploading "Preparing file for upload..."
                            (Some 25))) ;;
       currentBlock <-
         (if have_provider then ucall UpGetBlockNumber rpc_getBlockNumber
          else uret 0) ;;
       prepared <- prepareFileForUpload file ;;
       let '(fileData, fileHash) := prepared in
       uemit (UpSetUploadProgress
                (mkProgress uploading "Uploading file to Lighthouse IPFS..."
                            (Some 50))) ;;
       dataToUpload <-
         match encryptionKeyHex with
         | Some keyHex =>
             if String.eqb keyHex "" then uret fileData
             else encryptBytes fileData keyHex
         | None => uret fileData
         end ;;
       let filename :=
         match encryptionKeyHex with
         | Some keyHex =>
             if String.eqb keyHex "" then name file
             else (name file ++ ".enc")%string
         | None => name file
         end in
       fileCid <- uploadToLighthouse dataToUpload filename ;;
       uemit (UpSetUploadProgress
                (mkProgress complete "Upload complete!" (Some 100))) ;;
       let fileUrl :=
         ("https://gateway.lighthouse.storage/ipfs/" ++ fileCid)%string in
       uret (mkUpload fileCid fileHash fileUrl currentBlock))
      (fun err =>
         uemit (UpConsole "error" "Upload error:") ;;
         uemit (UpSetUploadProgress
                  (mkProgress error
                              ("Upload failed: " ++ message_of err)
                              None)) ;;
         uthrow err).

Definition resetUpload : U unit :=
  uemit (UpSetUploadProgress (mkProgress idle "" None)).

(** [handleFileUpload] of the page, with the form it leaves. *)
Definition handleFileUpload (file : option File) (form : FormState)
  : U FormState :=
  match file with
  | None => uret form
  | Some file =>
      utry_catch
        (resetUpload ;;
         key <- random_bytes 32 ;;
         let keyHex := hex_of_bytes key in
         result <- uploadFile file (Some keyHex) ;;
         uret (mkForm (fileCid result) keyHex
                      (Some (Creator.mkFileMeta
                               (name file)
                               (if String.eqb (type_ file) ""
                                then "application/octet-stream"%string
                                else type_ file)
                               (Int (Z.of_nat (List.length (content file))))))
                      false))
        (fun err => uemit (UpConsole "error" "Upload failed:") ;; uret form)
  end.

(** *** Properties of the upload *)

Lemma slice_frame (iv ct : list byte) :
  List.length iv = 12%nat ->
  Viewer.slice 1 13 (x01 :: iv ++ ct) = iv
  /\ Viewer.slice_from 13 (x01 :: iv ++ ct) = ct.
Proof.
  intros Hiv. unfold Viewer.slice, Viewer.slice_from.
  change (skipn 1 (x01 :: iv ++ ct)) with (iv ++ ct)%list.
  change (skipn 13 (x01 :: iv ++ ct)) with (skipn 12 (iv ++ ct)).
  change (13 - 1)%nat with 12%nat. split.
  - rewrite firstn_app, Hiv. change (12 - 12)%nat with 0%nat.
    rewrite firstn_O, app_nil_r. rewrite <- Hiv. apply firstn_all.
  - rewrite skipn_app, Hiv. change (12 - 12)%nat with 0%nat.
    rewrite <- Hiv, skipn_all. reflexivity.
Qed.

(** The frame the upload writes is the frame the viewer reads.  With
    a key, [uploadFile] sends to the storage service, under the file's
    name followed by [.enc], the byte 1, the 12 random bytes of the
    nonce and the AES-GCM ciphertext of the file under the imported
    key, and nothing else.  [decode_frame] of the viewer accepts that
    frame and hands exactly this nonce and this ciphertext to the
    decryption.  The result carries the hex SHA-256 of the plain file,
    the height read, and as URL the gateway address the viewer
    fetches. *)
Theorem uploadFile_encrypts_under_key
    file keyHex keyBytes cryptoKey iv ct cid cb h :
  isConnected = true ->
  keyHex <> ""%string ->
  key_bytes keyHex = Ok keyBytes ->
  importKey keyBytes = Ok cryptoKey ->
  (forall h', getRandomValues h' 12 = iv) ->
  List.length iv = 12%nat ->
  aes_gcm_encrypt cryptoKey iv (content file) = Ok ct ->
  (16 <= List.length ct)%nat ->
  (forall h' data filename,
      lighthouse_upload h' data filename = Ok (Some cid)) ->
  cid <> ""%string ->
  (forall h', rpc_getBlockNumber h' = Ok cb) ->
  exists h',
    uploadFile file (Some keyHex) h
    = (Ok (mkUpload cid (hex_of_bytes (sha256 (content file)))
                    ("https://gateway.lighthouse.storage/ipfs/" ++ cid)
                    (if have_provider then cb else 0)),
       h ++ h')%list
    /\ uploads h' = [(x01 :: iv ++ ct, (name file ++ ".enc")%string)]
    /\ (forall aes_gcm_decrypt key,
          Viewer.decode_frame aes_gcm_decrypt (x01 :: iv ++ ct) key
          = aes_gcm_decrypt key iv ct)
    /\ ("https://gateway.lighthouse.storage/ipfs/" ++ cid)%string
       = Viewer.gateway_url (JStr cid).
Proof.
  intros Hconn Hkey Hbytes Himport Hiv Hlen Henc Htag Hup Hcid Hcb.
  apply String.eqb_neq in Hkey. apply String.eqb_neq in Hcid.
  assert (Hrun : exists h',
             uploadFile file (Some keyHex) h
             = (Ok (mkUpload cid (hex_of_bytes (sha256 (content file)))
                      ("https://gateway.lighthouse.storage/ipfs/" ++ cid)
                      (if have_provider then cb else 0)),
                h ++ h')%list
             /\ uploads h'
                = [(x01 :: iv ++ ct, (name file ++ ".enc")%string)]).
  { unfold uploadFile. rewrite Hconn. change (negb true) with false.
    cbv iota. rewrite Hkey.
    unfold encryptBytes, uploadToLighthouse, prepareFileForUpload,
      random_bytes.
    unfold utry_catch, ubind, uemit, ucall, ulift, uret, uthrow.
    rewrite Hbytes. cbv beta iota. rewrite Himport. cbv beta iota.
    destruct have_provider; [rewrite Hcb|]; cbv beta iota;
      rewrite Hiv, Henc; cbv beta iota; rewrite Hup; cbv beta iota;
      rewrite Hcid; rewrite <- !app_assoc;
      (eexists; split; reflexivity). }
  destruct Hrun as (h' & Hrun & Huploads).
  exists h'. split; [exact Hrun|]. split; [exact Huploads|]. split.
  - intros aes_gcm_decrypt key. unfold Viewer.decode_frame.
    assert (Hlong : (List.length (x01 :: iv ++ ct) <? 1 + 12 + 16)%nat
                    = false).
    { apply Nat.ltb_ge. simpl. rewrite length_app. lia. }
    rewrite Hlong. change (Byte.eqb x01 x01) with true. cbn [negb].
    destruct (slice_frame iv ct Hlen) as [-> ->]. reflexivity.
  - reflexivity.
Qed.


End Hook.

(** *** The key text *)

Lemma pairs_hex b rest :
  pairs (padStart2 (toString16 b) ++ rest)
  = padStart2 (toString16 b) :: pairs rest.
Proof. destruct b; reflexivity. Qed.

Lemma byte_of_hex b : to_uint8 (parseInt16 (padStart2 (toString16 b))) = b.
Proof. destruct b; vm_compute; reflexivity. Qed.

Lemma length_hex b : String.length (padStart2 (toString16 b)) = 2%nat.
Proof. destruct b; reflexivity. Qed.

Lemma append_empty s : (s ++ "")%string = s.
Proof. induction s as [|c s IH]; simpl; congruence. Qed.

Lemma hex_of_bytes_cons b bs :
  hex_of_bytes (b :: bs) = (padStart2 (toString16 b) ++ hex_of_bytes bs)%string.
Proof.
  unfold hex_of_bytes. cbn [map String.concat].
  destruct (map _ bs).
  - symmetry. apply append_empty.
  - reflexivity.
Qed.

Lemma pairs_hex_of_bytes bs :
  pairs (hex_of_bytes bs) = map (fun b => padStart2 (toString16 b)) bs.
Proof.
  induction bs as [|b bs IH]; [reflexivity|].
  rewrite hex_of_bytes_cons, pairs_hex, IH. reflexivity.
Qed.

Lemma length_hex_of_bytes bs :
  String.length (hex_of_bytes bs) = (2 * List.length bs)%nat.
Proof.
  induction bs as [|b bs IH]; [reflexivity|].
  rewrite hex_of_bytes_cons, Json.length_append, length_hex, IH.
  simpl List.length. lia.
Qed.

(** The key text reads back as the key.  The hex text the page makes
    of the random key bytes, two lower-case digits a byte, is split
    into pairs and parsed by [encryptBytes] into exactly those bytes.
    The parsing itself rejects nothing but the empty text: a pair that
    starts with a character that is no hex digit, blank or sign is no
    number, and is stored as the byte 0. *)
Theorem key_hex_round_trip key :
  key <> [] ->
  key_bytes (hex_of_bytes key) = Ok key
  /\ String.length (hex_of_bytes key) = (2 * List.length key)%nat
  /\ (exists e, key_bytes "" = Throw e)
  /\ (forall a b,
        Json.hex_value a = None ->
        is_js_space a = false ->
        is_line_terminator a = false ->
        is_line_terminator b = false ->
        a <> "-"%char -> a <> "+"%char ->
        key_bytes (String a (String b EmptyString)) = Ok [x00]).
Proof.
  intros Hkey. split; [|split; [|split]].
  - unfold key_bytes. rewrite pairs_hex_of_bytes.
    destruct key as [|b bs]; [congruence|].
    cbn [map]. f_equal. f_equal; [apply byte_of_hex|].
    rewrite map_map. clear Hkey.
    induction bs as [|b' bs IH]; [reflexivity|].
    cbn [map]. rewrite byte_of_hex, IH. reflexivity.
  - apply length_hex_of_bytes.
  - eexists. reflexivity.
  - intros a b Hhex Hspace Hterm Htermb Hminus Hplus.
    unfold key_bytes. cbn [pairs]. rewrite Hterm, Htermb.
    cbn [map]. unfold parseInt16. cbn [skip_space]. rewrite Hspace.
    apply Ascii.eqb_neq in Hminus. apply Ascii.eqb_neq in Hplus.
    rewrite Hminus, Hplus.
    assert (Hzero : Ascii.eqb a "0" = false).
    { apply Ascii.eqb_neq. intros ->. discriminate Hhex. }
    rewrite Hzero. cbn [andb hex_prefix]. rewrite Hhex. reflexivity.
Qed.

(** A world for the examples: a digest and a cipher that are
    stand-ins, the cipher appending a tag of sixteen zero bytes. *)
Definition demo_file : File := mkFile "a.png" "image/png" [x01; x02; x03].

Definition demo_upload (answer : Res (option string))
    (encryptionKeyHex : option string) : U UploadResult :=
  uploadFile true true (fun _ => Ok 100) (fun bs => [xab; xcd])
    (fun _ n => repeat x07 n) (list byte) (fun key => Ok key)
    (fun key iv plaintext => Ok (plaintext ++ repeat x00 16)%list)
    (fun _ _ _ => answer) demo_file encryptionKeyHex.

Lemma uploadFile_with_key_witness :
  exists h',
    demo_upload (Ok (Some "bafy-cid"%string)) (Some "00ff"%string) []
    = (Ok (mkUpload "bafy-cid" (hex_of_bytes [xab; xcd])
                    ("https://gateway.lighthouse.storage/ipfs/"
                       ++ "bafy-cid")
                    100),
       [] ++ h')%list
    /\ uploads h'
       = [(x01 :: repeat x07 12 ++ [x01; x02; x03] ++ repeat x00 16,
           ("a.png" ++ ".enc")%string)].
Proof.
  destruct (uploadFile_encrypts_under_key true true (fun _ => Ok 100)
              (fun bs => [xab; xcd]) (fun _ n => repeat x07 n) (list byte)
              (fun key => Ok key)
              (fun key iv plaintext => Ok (plaintext ++ repeat x00 16)%list)
              (fun _ _ _ => Ok (Some "bafy-cid"%string))
              demo_file "00ff" [x00; xff] [x00; xff] (repeat x07 12)
              ([x01; x02; x03] ++ repeat x00 16)%list "bafy-cid" 100 [])
    as (h' & Hrun & Huploads & _);
    try reflexivity; try discriminate; try (intros; reflexivity).
  - simpl. lia.
  - exists h'. split; [exact Hrun|exact Huploads].
Defined.


Lemma key_hex_round_trip_witness :
  key_bytes (hex_of_bytes [x00; x0f; xa5; xff]) = Ok [x00; x0f; xa5; xff]
  /\ hex_of_bytes [x00; x0f; xa5; xff] = "000fa5ff"%string.
Proof.
  split; [|reflexivity].
  apply (key_hex_round_trip [x00; x0f; xa5; xff]). discriminate.
Defined.

End Upload.

(* ================================================================= *)
(** ** PublicTimedMediaRelease: the contract *)

Module Contract.

(** The struct [Release]; an address is the number it denotes. *)
Record Release : Type := mkRelease {
  creator : Z;
  fileCidHash : string;
  unlockAtBlock : Z;
  isRevealed : bool;
  revealed : list byte
}.

(** What a mapping holds at a key never written. *)
Definition zero_hash : string :=
  "0x0000000000000000000000000000000000000000000000000000000000000000".

Definition no_release : Release := mkRelease 0 zero_hash 0 false [].

(** The events of the contract. *)
Inductive Log : Type :=
| Created (requestId creator : Z) (fileCidHash : string) (unlockAtBlock : Z)
| Revealed (requestId : Z) (payload : list byte).

(** A mapping with one key written. *)
Definition upd {A} (m : Z -> A) (key : Z) (value : A) : Z -> A :=
  fun k => if k =? key then value else m k.

(** An argument fits its unsigned type of [bits] bits; the decoder of
    the call data reverts otherwise. *)
Definition in_uint (bits v : Z) : bool := (0 <=? v) && (v <? 2 ^ bits).

Section Chain.

(** [TypesLib.Ciphertext] with its zero value, and [_decrypt] of the
    inherited receiver. *)
Variable Ciphertext : Type.
Variable no_cipher : Ciphertext.
Variable decrypt : Ciphertext -> list byte -> Res (list byte).

Record Storage : Type := mkStorage {
  releases : Z -> Release;
  decryptionKeyCipher : Z -> Ciphertext;
  createdBy : Z -> list Z
}.

(** [createReleaseWithDirectFunding], called by [sender]; [requested]
    is what the inherited [_requestBlocklockPayInNative] returns for
    this call, the request id and the price, or its revert.  The
    result is the returned pair, the storage and the events. *)
Definition createReleaseWithDirectFunding (sender : Z)
    (requested : Res (Z * Z))
    (callbackGasLimit unlockAtBlock_ : Z) (fileCidHash_ : string)
    (cipher : Ciphertext) (s : Storage)
  : Res (Z * Z * Storage * list Log) :=
  if negb (in_uint 32 callbackGasLimit && in_uint 40 unlockAtBlock_)
  then Throw (Error "")
  else
    match requested with
    | Throw e => Throw e
    | Ok (requestId, requestPrice) =>
        Ok (requestId, requestPrice,
            mkStorage
              (upd (releases s) requestId
                   (mkRelease sender fileCidHash_ unlockAtBlock_ false []))
              (upd (decryptionKeyCipher s) requestId cipher)
              (upd (createdBy s) sender
                   (createdBy s sender ++ [requestId])%list),
            [Created requestId sender fileCidHash_ unlockAtBlock_])
    end.

(** [_onBlocklockReceived], the callback of the time-lock service. *)
Definition onBlocklockReceived (requestId : Z) (decryptionKey : list byte)
    (s : Storage) : Res (Storage * list Log) :=
  let r := releases s requestId in
  if creator r =? 0 then Throw (Error "Unknown request")
  else if isRevealed r then Throw (Error "Already revealed")
  else
    match decrypt (decryptionKeyCipher s requestId) decryptionKey with
    | Throw e => Throw e
    | Ok payload =>
        Ok (mkStorage
              (upd (releases s) requestId
                   (mkRelease (creator r) (fileCidHash r) (unlockAtBlock r)
                              true payload))
              (upd (decryptionKeyCipher s) requestId no_cipher)
              (createdBy s),
            [Revealed requestId payload])
    end.

(** [metaOf], the view the client reads. *)
Definition metaOf (requestId : Z) (s : Storage) : Z * string * Z * bool :=
  let r := releases s requestId in
  (creator r, fileCidHash r, unlockAtBlock r, isRevealed r).

Lemma upd_same {A} (m : Z -> A) key value : upd m key value key = value.
Proof. unfold upd. rewrite Z.eqb_refl. reflexivity. Qed.

Lemma upd_other {A} (m : Z -> A) key value k :
  k <> key -> upd m key value k = m k.
Proof. intros H. unfold upd. apply Z.eqb_neq in H. rewrite H. reflexivity. Qed.

(** A reveal happens once and stays.  When the callback goes through
    for a request, the release is marked revealed with the decrypted
    payload, its creator, hash and unlock block are as they were, the
    stored ciphertext is deleted, and one [Revealed] event carries the
    payload.  From then on every further callback for that request
    reverts with "Already revealed"; a callback for another request,
    and the creation of a release under another request id, leave the
    release as it is. *)
Theorem reveal_is_once_and_for_all requestId decryptionKey s s' logs :
  onBlocklockReceived requestId decryptionKey s = Ok (s', logs) ->
  metaOf requestId s'
    = (creator (releases s requestId), fileCidHash (releases s requestId),
       unlockAtBlock (releases s requestId), true)
  /\ decrypt (decryptionKeyCipher s requestId) decryptionKey
     = Ok (revealed (releases s' requestId))
  /\ logs = [Revealed requestId (revealed (releases s' requestId))]
  /\ decryptionKeyCipher s' requestId = no_cipher
  /\ (forall key',
        onBlocklockReceived requestId key' s'
        = Throw (Error "Already revealed"))
  /\ (forall other key' s'' logs',
        onBlocklockReceived other key' s' = Ok (s'', logs') ->
        releases s'' requestId = releases s' requestId)
  /\ (forall sender requested gas unlock hash cipher other price s'' logs',
        createReleaseWithDirectFunding sender requested gas unlock hash
                                       cipher s'
        = Ok (other, price, s'', logs') ->
        other <> requestId ->
        releases s'' requestId = releases s' requestId).
Proof.
  unfold onBlocklockReceived. cbv zeta.
  destruct (creator (releases s requestId) =? 0) eqn:Hknown;
    [discriminate|].
  destruct (isRevealed (releases s requestId)) eqn:Hfresh; [discriminate|].
  destruct (decrypt (decryptionKeyCipher s requestId) decryptionKey)
    as [payload|e] eqn:Hdec; [|discriminate].
  intros [= <- <-].
  unfold metaOf. cbn [releases decryptionKeyCipher].
  rewrite !upd_same. cbn [creator fileCidHash unlockAtBlock isRevealed
                          revealed].
  repeat split.
  - intros key'. rewrite Hknown. reflexivity.
  - intros other key' s'' logs'.
    destruct (Z.eq_dec other requestId) as [->|Hother].
    + rewrite upd_same. cbn [creator isRevealed]. rewrite Hknown.
      discriminate.
    + rewrite (upd_other _ _ _ other Hother).
      destruct (creator (releases s other) =? 0); [discriminate|].
      destruct (isRevealed (releases s other)); [discriminate|].
      rewrite (upd_other _ _ _ other Hother).
      destruct (decrypt (decryptionKeyCipher s other) key');
        [|discriminate].
      intros [= <- _]. cbn [releases].
      rewrite upd_other by congruence. rewrite ?upd_same. reflexivity.
  - intros sender requested gas unlock hash cipher other price s'' logs'.
    unfold createReleaseWithDirectFunding.
    destruct (negb (in_uint 32 gas && in_uint 40 unlock)); [discriminate|].
    destruct requested as [[id p]|e]; [|discriminate].
    intros [= <- _ <- _] Hother. cbn [releases].
    rewrite upd_other by congruence. rewrite ?upd_same. reflexivity.
Qed.

(** A created release, as the contract keeps it.  When the creation
    goes through, [metaOf] of the new request gives the caller as
    creator, the hash and the unlock block that were passed, and "not
    revealed"; one [Created] event carries the same values; the id is
    appended to the caller's list; and every other release is as it
    was.  An unlock block outside [uint40], one above the [2^40 - 1]
    the client checks against, reverts the call. *)
Theorem created_release_is_unrevealed
    sender requested gas unlock hash cipher s :
  (forall requestId price s' logs,
      createReleaseWithDirectFunding sender requested gas unlock hash
                                     cipher s
      = Ok (requestId, price, s', logs) ->
      requested = Ok (requestId, price)
      /\ metaOf requestId s' = (sender, hash, unlock, false)
      /\ revealed (releases s' requestId) = []
      /\ logs = [Created requestId sender hash unlock]
      /\ createdBy s' sender = (createdBy s sender ++ [requestId])%list
      /\ 0 <= unlock <= Creator.MAX_UINT40
      /\ (forall other, other <> requestId ->
            releases s' other = releases s other))
  /\ (Creator.MAX_UINT40 < unlock ->
      createReleaseWithDirectFunding sender requested gas unlock hash
                                     cipher s
      = Throw (Error "")).
Proof.
  unfold createReleaseWithDirectFunding, in_uint, Creator.MAX_UINT40.
  split.
  - intros requestId price s' logs.
    destruct ((0 <=? gas) && (gas <? 2 ^ 32)); [|discriminate].
    destruct ((0 <=? unlock) && (unlock <? 2 ^ 40)) eqn:Hrange;
      [|discriminate].
    cbn [andb negb].
    destruct requested as [[id p]|e]; [|discriminate].
    intros [= <- <- <- <-].
    apply andb_true_iff in Hrange. destruct Hrange as [Hlo Hhi].
    apply Z.leb_le in Hlo. apply Z.ltb_lt in Hhi.
    unfold metaOf. cbn [releases createdBy]. rewrite !upd_same.
    repeat split; try lia.
    intros other Hother. apply upd_other. exact Hother.
  - intros Hover.
    assert (Hhi : (unlock <? 2 ^ 40) = false) by (apply Z.ltb_ge; lia).
    rewrite Hhi, !andb_false_r. reflexivity.
Qed.

End Chain.

(** A chain on which request 7 was created by account 11. *)
Definition demo_decrypt_key (cipher key : list byte) : Res (list byte) :=
  Ok (cipher ++ key)%list.

Definition storage_7 : Storage (list byte) :=
  mkStorage (list byte)
    (upd (fun _ => no_release) 7 (mkRelease 11 "0xhash" 150 false []))
    (upd (fun _ => []) 7 [x0a])
    (fun _ => []).

Lemma reveal_witness :
  exists s',
    onBlocklockReceived (list byte) [] demo_decrypt_key 7 [x0b] storage_7
    = Ok (s', [Revealed 7 [x0a; x0b]])
    /\ metaOf (list byte) 7 s' = (11, "0xhash"%string, 150, true)
    /\ forall key',
         onBlocklockReceived (list byte) [] demo_decrypt_key 7 key' s'
         = Throw (Error "Already revealed").
Proof.
  eexists. split; [reflexivity|].
  destruct (reveal_is_once_and_for_all (list byte) [] demo_decrypt_key
              7 [x0b] storage_7 _ _ eq_refl)
    as (Hmeta & _ & _ & _ & Honce & _).
  split; [exact Hmeta|exact Honce].
Defined.

End Contract.

(* ================================================================= *)
(** ** From the creation to the viewer

    What [handleCreate] writes to [localStorage] is read again by the
    viewer: by [loadFromLocalStorage], which lists the release, and by
    [getTimeRemaining], which counts down to its unlock. *)

Module Flow.

Import Viewer.

(** *** Decimal texts *)

Lemma to_int_not_nil z : Z.to_int z <> Pos Nil /\ Z.to_int z <> Neg Nil.
Proof.
  destruct z as [|p|p]; simpl; split; try discriminate;
    intros [= H]; exact (DecimalPos.Unsigned.to_uint_nonnil p H).
Qed.

Lemma int_of_string_of_Z z :
  NilZero.int_of_string (string_of_Z z) = Some (Z.to_int z).
Proof.
  unfold string_of_Z. destruct (to_int_not_nil z).
  apply NilZero.isi; assumption.
Qed.

Lemma decimal_number_string_of_Z z :
  Creator.decimal_number (string_of_Z z) = Int z.
Proof.
  unfold Creator.decimal_number. rewrite int_of_string_of_Z.
  rewrite DecimalZ.of_to. reflexivity.
Qed.

Lemma decimal_bigint_string_of_Z z :
  decimal_bigint (string_of_Z z) = Some z.
Proof.
  unfold decimal_bigint. rewrite int_of_string_of_Z. simpl.
  rewrite DecimalZ.of_to. reflexivity.
Qed.

Lemma string_of_Z_nonempty z : string_of_Z z <> ""%string.
Proof.
  unfold string_of_Z. destruct z as [|p|p]; simpl; try discriminate.
  pose proof (DecimalPos.Unsigned.to_uint_nonnil p) as Hnil.
  destruct (Pos.to_uint p); [congruence|discriminate..].
Qed.

Lemma not_listed key prev :
  ~ In key (map key_of prev) ->
  existsb (String.eqb key) (map key_of prev) = false.
Proof.
  intros Hnot. destruct (existsb _ _) eqn:E; [|reflexivity].
  apply existsb_exists in E. destruct E as (k & Hin & Heq).
  apply String.eqb_eq in Heq. subst k. contradiction.
Qed.

(** *** The release is listed again *)

(** A created release is remembered.  When [localStorage] holds, under
    [release_<requestId>], a text that parses back to the item
    [handleCreate] stores, [loadFromLocalStorage] lists a record of
    that request unless one is listed already: its unlock block is the
    target block of the creation, its creator the connected account,
    its hash the placeholder [0x], and it is neither revealed nor
    unlocked. *)
Theorem created_release_is_remembered
    JSON_parse StringToBigInt address storage prev result createdAt text :
  In (("release_" ++ string_of_Z (Creator.requestId result))%string, text)
     storage ->
  text <> ""%string ->
  JSON_parse text = Some (JObject (Creator.stored_release result createdAt)) ->
  StringToBigInt (string_of_Z (Creator.requestId result))
    = Some (Creator.requestId result) ->
  StringToBigInt (string_of_Z (Creator.targetBlock result))
    = Some (Creator.targetBlock result) ->
  ~ In (string_of_Z (Creator.requestId result)) (map key_of prev) ->
  In (local_release (Creator.requestId result) address
                    (Creator.targetBlock result))
     (loadFromLocalStorage JSON_parse StringToBigInt true address storage prev).
Proof.
  intros Hitem Htext Hparse Hrid Htarget Hnew.
  set (info := local_release (Creator.requestId result) address
                             (Creator.targetBlock result)).
  assert (Hentry : local_entry JSON_parse StringToBigInt address text
                   = Some info).
  { unfold local_entry. rewrite Hparse.
    cbn [get_prop obj_get obj_lookup Creator.stored_release String.eqb
         Ascii.eqb Bool.eqb BigInt_of].
    rewrite Hrid, Htarget. reflexivity. }
  assert (Hlocal : In info (local_releases JSON_parse StringToBigInt address
                                           storage)).
  { unfold local_releases. apply in_flat_map.
    exists (("release_" ++ string_of_Z (Creator.requestId result))%string,
            text).
    split; [exact Hitem|].
    cbn [append String.eqb String.prefix Ascii.eqb Bool.eqb orb negb].
    assert (Hp : String.prefix "" (string_of_Z (Creator.requestId result))
                 = true) by (destruct (string_of_Z _); reflexivity).
    rewrite Hp. cbn [negb]. apply String.eqb_neq in Htext. rewrite Htext.
    rewrite Hentry. left. reflexivity. }
  unfold loadFromLocalStorage. cbn [negb].
  destruct (local_releases JSON_parse StringToBigInt address storage)
    as [|first rest] eqn:Hlist; [destruct Hlocal|].
  cbn [List.length Nat.ltb Nat.leb].
  apply add_local_In. left. split; [exact Hlocal|].
  apply not_listed. exact Hnew.
Qed.

Lemma created_release_witness :
  In (local_release 7 "0xcreator" 150)
     (loadFromLocalStorage Json.JSON_parse decimal_bigint true "0xcreator"
                           demo_storage []).
Proof.
  apply (created_release_is_remembered Json.JSON_parse decimal_bigint
           "0xcreator" demo_storage []
           (Creator.mkResult 7 150 100 "0xabc") 1700000000000 remembered_7).
  - right. left. reflexivity.
  - vm_compute. discriminate.
  - vm_compute. reflexivity.
  - reflexivity.
  - reflexivity.
  - intros [].
Defined.

(** *** The countdown *)

(** The countdown of a release created in this browser.  With the item
    of [handleCreate] in [localStorage], [getTimeRemaining] does not
    look at the chain: the unlock time is the time of the creation plus
    two seconds for each block between the height at creation and the
    target, and the text is "Unlocked!" from that time on, the
    remaining whole seconds as HH:MM:SS before. *)
Theorem countdown_after_create
    StringToNumber JSON_parse getItem now release result createdAt text :
  obj_get "requestId" release = JBig (Creator.requestId result) ->
  getItem ("release_" ++ string_of_Z (Creator.requestId result))%string
    = Some text ->
  text <> ""%string ->
  JSON_parse text = Some (JObject (Creator.stored_release result createdAt)) ->
  createdAt <> 0 ->
  StringToNumber (string_of_Z (Creator.targetBlock result))
    = Int (Creator.targetBlock result) ->
  Page.getTimeRemaining StringToNumber JSON_parse getItem true now release
  = Ok (if createdAt
           + (Creator.targetBlock result - Creator.createdAtBlock result)
             * 2 * 1000 <=? now
        then "Unlocked!"%string
        else Page.format_seconds
               (Int ((createdAt
                      + (Creator.targetBlock result
                         - Creator.createdAtBlock result) * 2 * 1000
                      - now) / 1000))).
Proof.
  intros Hid Hget Htext Hparse Ht0 Hnum.
  apply (Page.wall_clock_estimate StringToNumber JSON_parse getItem now
           release text (Creator.stored_release result createdAt)
           createdAt (string_of_Z (Creator.targetBlock result))
           (Creator.targetBlock result) (Creator.createdAtBlock result)).
  - rewrite Hid. exact Hget.
  - exact Htext.
  - exact Hparse.
  - reflexivity.
  - exact Ht0.
  - reflexivity.
  - apply string_of_Z_nonempty.
  - exact Hnum.
  - reflexivity.
Qed.

Lemma countdown_after_create_witness :
  Page.demo_time Page.storage_7 1700000040000 Page.listed_7
  = Ok (if 1700000000000 + (150 - 100) * 2 * 1000 <=? 1700000040000
        then "Unlocked!"%string
        else Page.format_seconds
               (Int ((1700000000000 + (150 - 100) * 2 * 1000
                      - 1700000040000) / 1000))).
Proof.
  unfold Page.demo_time.
  apply (countdown_after_create Creator.decimal_number Json.JSON_parse
           Page.storage_7 1700000040000 Page.listed_7
           (Creator.mkResult 7 150 100 "0xabc") 1700000000000 Page.entry_7).
  - reflexivity.
  - reflexivity.
  - vm_compute. discriminate.
  - vm_compute. reflexivity.
  - discriminate.
  - vm_compute. reflexivity.
Defined.

End Flow.
